(** * RevPy: the multi-flight recapture method ([revpy/mfrm.py])

    A shallow embedding of the estimation pipeline of [revpy/mfrm.py] and the
    properties its specification states about it.

    Numbers.  The program computes on Python ints and IEEE doubles.  The
    specification states its equalities "up to solver precision", that is,
    about the exact arithmetic the doubles approximate; the embedding
    therefore computes on the real numbers [R], on which those equalities are
    exact.  Tests on numbers ([==], [>], truthiness) are the decidable tests
    on [R].  A division whose divisor is zero does not yield a real number;
    what it does depends on the kind of its operands (see [Py.div]).

    Mappings.  A Python [dict] keeps its keys unique and iterates in insertion
    order, and the order decides which failing product aborts a loop first;
    a dict is an association list whose keys are pairwise distinct
    ([Dict.wf]).

    Objects.  [calibrate_no_booking] copies the mapping it is given and
    assigns to the inner dicts of the copy; mappings that are assigned to are
    objects in a store ([Store]), and two keys may hold one inner dict. *)

From Stdlib Require Import Reals Lra List String Bool Arith Lia Permutation.
Import ListNotations.

Local Open Scope R_scope.

(** ** Python primitives *)

Module Py.

(** Modelled from the spec: [revpy/exceptions.py], which declares
    [InvalidInputParameters], is not among the sources; the spec calls it
    the invalid-input error, raised for non-zero observed demand with zero
    availability.  The next four constructors are the exceptions of the
    primitives the module calls: [LinAlgError] from [scipy.linalg.solve],
    [ZeroDivisionError] from the division of Python numbers, [KeyError] from
    subscripting a dict with a key it lacks, [TypeError] from subscripting
    an object that is not the dict the program takes it for.

    [NonFinite] is no exception.  It marks a run in which a numpy scalar was
    divided by zero: numpy warns, yields [inf] or [nan], and the run goes on
    with a value that is no real number.  The model computes on [R] and
    does not follow such a run further; it ends it with this mark. *)
Inductive exn : Type :=
| InvalidInputParameters
| LinAlgError
| ZeroDivisionError
| KeyError
| TypeError
| NonFinite.

(** A run either stops short ([inl]) or returns ([inr]). *)
Definition result (A : Type) : Type := (exn + A)%type.

Definition ret {A : Type} (a : A) : result A := inr a.
Definition raise {A : Type} (e : exn) : result A := inl e.

Definition bind {A B : Type} (c : result A) (k : A -> result B) : result B :=
  match c with
  | inl e => inl e
  | inr a => k a
  end.

(** [x == y], [x > y] and the truth value of a number. *)
Definition eqb (x y : R) : bool := if Req_dec_T x y then true else false.
Definition gtb (x y : R) : bool := if Rgt_dec x y then true else false.
Definition truthy (x : R) : bool := negb (eqb x 0).

(** The two kinds of number the program divides.  [/] dispatches on the
    operands: when both are Python's own numbers (int, float) it is Python's
    division; when one of them is a numpy scalar ([np.float64]: what
    [np.exp] and the entries of the array [solve] returns are, and whatever
    is computed from one) it is numpy's. *)
Inductive kind : Type := PyFloat | NumPy.

(** What [x / 0] does: Python raises [ZeroDivisionError]; numpy yields
    [inf] or [nan] with a warning. *)
Definition zero_division (kd : kind) : exn :=
  match kd with
  | PyFloat => ZeroDivisionError
  | NumPy => NonFinite
  end.

(** [x / y], on operands of kind [kd]. *)
Definition div (kd : kind) (x y : R) : result R :=
  if eqb y 0 then raise (zero_division kd) else ret (x / y).

(** The builtin [sum]: a left fold that starts from [0]. *)
Definition sum (l : list R) : R := fold_left Rplus l 0.

End Py.

Import Py.

Notation "x <- c ;; k" := (bind c (fun x => k))
  (at level 61, c at next level, right associativity).
Notation "' p <- c ;; k" := (bind c (fun x => match x with p => k end))
  (at level 61, p pattern, c at next level, right associativity).

(** ** Dictionaries *)

Module Dict.

Definition key : Type := string.
Definition dict (V : Type) : Type := list (key * V).

Section Ops.
Variable V : Type.

Definition keys (d : dict V) : list key := map fst d.
Definition values (d : dict V) : list V := map snd d.

(** Keys are unique: the representation invariant of a dict. *)
Definition wf (d : dict V) : Prop := NoDup (keys d).

Fixpoint lookup (d : dict V) (k : key) : option V :=
  match d with
  | [] => None
  | (k', v) :: d' => if String.eqb k k' then Some v else lookup d' k
  end.

(** [d.get(k, dflt)] *)
Definition get (d : dict V) (k : key) (dflt : V) : V :=
  match lookup d k with
  | Some v => v
  | None => dflt
  end.

(** [d[k]] *)
Definition getitem (d : dict V) (k : key) : result V :=
  match lookup d k with
  | Some v => ret v
  | None => raise KeyError
  end.

(** [d[k] = v]: overwrite in place, or append a new key. *)
Fixpoint setitem (d : dict V) (k : key) (v : V) : dict V :=
  match d with
  | [] => [(k, v)]
  | (k', v') :: d' =>
      if String.eqb k k' then (k', v) :: d' else (k', v') :: setitem d' k v
  end.

End Ops.

Arguments keys {V} d.
Arguments values {V} d.
Arguments wf {V} d.
Arguments lookup {V} d k.
Arguments get {V} d k dflt.
Arguments getitem {V} d k.
Arguments setitem {V} d k v.

End Dict.

Import Dict.

(** ** The linear solver

    [scipy.linalg.solve(A, B)] is not part of the repository.  The program
    uses it on dense 2x2 and 3x3 systems; it returns the solution of
    [A x = B] and raises [LinAlgError] when [A] is singular.  In exact
    arithmetic the solution of a non-singular system is unique
    ([solve2_unique], [solve3_unique] below), so the elimination order of the
    library does not matter; the model computes it by Cramer's rule. *)

Module Linalg.

Definition vec2 : Type := (R * R)%type.
Definition mat2 : Type := (vec2 * vec2)%type.
Definition vec3 : Type := (R * R * R)%type.
Definition mat3 : Type := (vec3 * vec3 * vec3)%type.

Definition det2 (A : mat2) : R :=
  let '((a, b), (c, d)) := A in a * d - b * c.

Definition mulv2 (A : mat2) (x : vec2) : vec2 :=
  let '((a, b), (c, d)) := A in
  let '(x1, x2) := x in
  (a * x1 + b * x2, c * x1 + d * x2).

Definition solve2 (A : mat2) (B : vec2) : result vec2 :=
  if eqb (det2 A) 0 then raise LinAlgError
  else
    let '((a, b), (c, d)) := A in
    let '(e, f) := B in
    ret ((e * d - b * f) / det2 A, (a * f - e * c) / det2 A).

Definition det3 (A : mat3) : R :=
  let '((a, b, c), (d, e, f), (g, h, i)) := A in
  a * (e * i - f * h) - b * (d * i - f * g) + c * (d * h - e * g).

Definition mulv3 (A : mat3) (x : vec3) : vec3 :=
  let '((a, b, c), (d, e, f), (g, h, i)) := A in
  let '(x1, x2, x3) := x in
  (a * x1 + b * x2 + c * x3,
   d * x1 + e * x2 + f * x3,
   g * x1 + h * x2 + i * x3).

Definition solve3 (A : mat3) (B : vec3) : result vec3 :=
  if eqb (det3 A) 0 then raise LinAlgError
  else
    let '((a, b, c), (d, e, f), (g, h, i)) := A in
    let '(p, q, r) := B in
    ret ((p * (e * i - f * h) - b * (q * i - f * r) + c * (q * h - e * r))
           / det3 A,
         (a * (q * i - f * r) - p * (d * i - f * g) + c * (d * r - q * g))
           / det3 A,
         (a * (e * r - q * h) - b * (d * r - q * g) + p * (d * h - e * g))
           / det3 A).

End Linalg.

Import Linalg.

(** ** The estimation pipeline *)

(** The inner dict [{'demand': d, 'spill': s, 'recapture': r}] of an
    estimate mapping. *)
Record estimate : Type := Estimate {
  demand : R;
  spill : R;
  recapture : R
}.

Definition set_spill (e : estimate) (x : R) : estimate :=
  {| demand := demand e; spill := x; recapture := recapture e |}.

Definition set_demand (e : estimate) (x : R) : estimate :=
  {| demand := x; spill := spill e; recapture := recapture e |}.

(** A [for] loop whose body may raise: the first failing iteration ends it. *)
Fixpoint for_each {S A : Type} (body : S -> A -> result S) (l : list A) (s : S)
  : result S :=
  match l with
  | [] => ret s
  | x :: l' => s' <- body s x ;; for_each body l' s'
  end.

(** A comprehension whose element expression may raise. *)
Fixpoint comprehension {A B : Type} (f : A -> result B) (l : list A)
  : result (list B) :=
  match l with
  | [] => ret []
  | x :: l' => y <- f x ;; ys <- comprehension f l' ;; ret (y :: ys)
  end.

(** The matrix of the host-level system. *)
Definition host_matrix (close_prob recapture_rate : R) : mat3 :=
  ((1, -1, 1), (- close_prob, 1, 0), (0, - recapture_rate, 1)).

(** The matrix of the class-level system, [k = 1 - avail]. *)
Definition class_matrix (k : R) : mat2 := ((1, -1), (- k, 1)).

(** [demand_mass_balance_h(odemand, close_prob, recapture_rate)] *)
Definition demand_mass_balance_h (odemand close_prob recapture_rate : R)
  : result (R * R * R) :=
  let A := host_matrix close_prob recapture_rate in
  let B : vec3 := (odemand, 0, 0) in
  ' (demand, spill, recapture) <- solve3 A B ;;
  ret (demand, spill, recapture).

(** [demand_mass_balance_c(host_odemand, class_odemand, avail,
    host_recapture)].  [kd] is the kind of the one division: [NumPy] when
    [host_recapture], [class_odemand] or [host_odemand] is a numpy scalar,
    [PyFloat] when the three are Python numbers. *)
Definition demand_mass_balance_c (kd : kind)
  (host_odemand class_odemand avail host_recapture : R) : result (R * R * R) :=
  if truthy class_odemand then
    recapture <- div kd (host_recapture * class_odemand) host_odemand ;;
    let k := 1 - avail in
    let A := class_matrix k in
    let B : vec2 := (class_odemand - recapture, 0) in
    ' (demand, spill) <- solve2 A B ;;
    ret (demand, spill, recapture)
  else ret (0, 0, 0).

(** [estimate_host_level(observed, availability, probs, nofly_prob)].  [kd]
    is the kind of [prob_market_open], which both divisions have among their
    operands: [NumPy] when [nofly_prob], or the probability or availability
    of a product of [probs], is a numpy scalar, [PyFloat] when they are all
    Python numbers. *)
Definition estimate_host_level (kd : kind)
  (observed availability probs : dict R) (nofly_prob : R)
  : result (R * R * R) :=
  match probs with
  | [] => ret (0, 0, 0)
  | _ :: _ =>
      let prob_market_open :=
        nofly_prob
        + sum (map (fun '(p, pr) => pr * get availability p 0) probs) in
      recapture_rate <-
        div kd (prob_market_open - nofly_prob) prob_market_open ;;
      prob_host_closed <- div kd (1 - prob_market_open) (1 - nofly_prob) ;;
      let total_odemand := sum (values observed) in
      demand_mass_balance_h total_odemand prob_host_closed recapture_rate
  end.

(** ** The object store

    An estimate mapping is a dict whose values are references to its inner
    dicts; the objects live in a store, a reference is an address. *)

Module Store.

Definition loc : Type := nat.

Inductive obj : Type :=
| ODict (d : dict loc)        (* an estimate mapping: key -> inner dict *)
| ORecord (e : estimate).     (* an inner dict *)

Definition store : Type := list obj.

Definition read_dict (h : store) (l : loc) : result (dict loc) :=
  match nth_error h l with
  | Some (ODict d) => ret d
  | _ => raise TypeError
  end.

Definition read_record (h : store) (l : loc) : result estimate :=
  match nth_error h l with
  | Some (ORecord e) => ret e
  | _ => raise TypeError
  end.

(** Assignment to the object at [l]. *)
Fixpoint write (h : store) (l : loc) (o : obj) : store :=
  match h, l with
  | [], _ => []
  | _ :: h', O => o :: h'
  | x :: h', S l' => x :: write h' l' o
  end.

(** The value of a mapping of references: its inner dicts read out. *)
Fixpoint contents (h : store) (d : dict loc) : result (dict estimate) :=
  match d with
  | [] => ret []
  | (k, l) :: d' =>
      e <- read_record h l ;;
      es <- contents h d' ;;
      ret ((k, e) :: es)
  end.

(** [h], at [r], holds a mapping of value [est]; two keys may hold one
    inner dict. *)
Definition holds (h : store) (r : loc) (est : dict estimate) : Prop :=
  exists d, read_dict h r = inr d /\ contents h d = inr est.

(** [h], at [r], holds the mapping [est], no inner dict under two keys. *)
Definition denotes (h : store) (r : loc) (est : dict estimate) : Prop :=
  exists d, read_dict h r = inr d
            /\ contents h d = inr est
            /\ NoDup (values d).

(** A mapping built from dict literals, as [estimate_class_level] builds
    its [estimates]: every inner dict is an object of its own.  [alloc est]
    is a store that holds such a mapping of value [est], the inner dicts in
    the order of the keys and the mapping after them, with its address. *)
Definition alloc (est : dict estimate) : store * loc :=
  (map ORecord (values est)
     ++ [ODict (combine (keys est) (seq 0 (List.length est)))],
   List.length est).

(** The memo of [deepcopy]: the objects copied so far and their copies. *)
Fixpoint memo_get (memo : list (loc * loc)) (l : loc) : option loc :=
  match memo with
  | [] => None
  | (a, b) :: memo' => if Nat.eqb l a then Some b else memo_get memo' l
  end.

(** [deepcopy] of the entries of a mapping: a fresh inner dict for each
    inner dict not copied yet, the copy made before for the others. *)
Fixpoint deepcopy_entries
  (h : store) (memo : list (loc * loc)) (d : dict loc)
  : result (store * dict loc) :=
  match d with
  | [] => ret (h, [])
  | (k, l) :: d' =>
      match memo_get memo l with
      | Some l' =>
          ' (h', c) <- deepcopy_entries h memo d' ;;
          ret (h', (k, l') :: c)
      | None =>
          e <- read_record h l ;;
          let l' := List.length h in
          ' (h', c) <- deepcopy_entries (h ++ [ORecord e])
                         ((l, l') :: memo) d' ;;
          ret (h', (k, l') :: c)
      end
  end.

(** [deepcopy(estimates)] *)
Definition deepcopy (h : store) (r : loc) : result (store * loc) :=
  d <- read_dict h r ;;
  ' (h', c) <- deepcopy_entries h [] d ;;
  ret (h' ++ [ODict c], List.length h').

(** The body of the last loop of [calibrate_no_booking], [d] the mapping
    [estimates] refers to: [estimates[p]['spill'] = unaccounted_spill * w]
    and [estimates[p]['demand'] = unaccounted_spill * w].  [estimates[p]]
    is a reference, the assignments write to the inner dict it refers
    to. *)
Definition calibrate_assign
  (unaccounted_spill : R) (d : dict loc) (h : store) (item : key * R)
  : result store :=
  let '(p, w) := item in
  l <- getitem d p ;;
  e <- read_record h l ;;
  let h := write h l (ORecord (set_spill e (unaccounted_spill * w))) in
  l <- getitem d p ;;
  e <- read_record h l ;;
  ret (write h l (ORecord (set_demand e (unaccounted_spill * w)))).

(** [calibrate_no_booking(estimates, observed, availability, probs,
    host_spill)], [estimates] a reference; the run returns a reference and
    the store it leaves.  [kd] is the kind of the division of the
    normalisation: [NumPy] when the weight of some product without bookings
    is a numpy scalar (its probability or its availability is one),
    [PyFloat] when the weights are Python numbers. *)
Definition calibrate_no_booking (kd : kind)
  (h : store) (estimates : loc) (observed availability probs : dict R)
  (host_spill : R) : result (store * loc) :=
  ' (h, estimates) <- deepcopy h estimates ;;
  d <- read_dict h estimates ;;
  spills <- comprehension (fun l => e <- read_record h l ;; ret (spill e))
              (values d) ;;
  let class_spill := sum spills in
  let unaccounted_spill := host_spill - class_spill in
  if gtb unaccounted_spill 0 then
    let observed0 :=
      filter (fun k => eqb (get observed k 0) 0) (keys d) in
    weights <- comprehension
                 (fun p => pr <- getitem probs p ;;
                           ret (p, pr * (1 - get availability p 0)))
                 observed0 ;;
    weights' <- comprehension
                  (fun '(p, w) => w' <- div kd w (sum (values weights)) ;;
                                  ret (p, w'))
                  weights ;;
    h <- for_each (calibrate_assign unaccounted_spill d) weights' h ;;
    ret (h, estimates)
  else ret (h, estimates).

End Store.

(** The body of the loop of [estimate_class_level].  The recapture it
    passes on came out of the solver, a numpy scalar: the division of
    [demand_mass_balance_c] is numpy's.  Each entry it stores is a dict
    literal, a new object, so the mapping is a mapping of values here. *)
Definition class_level_step
  (observed availability : dict R) (total_odemand host_recapture : R)
  (estimates : dict estimate) (product : key) : result (dict estimate) :=
  let odemand := get observed product 0 in
  let avail := get availability product 0 in
  if eqb avail 0 && gtb odemand 0 then raise InvalidInputParameters
  else if truthy odemand then
    ' (d, s, r) <- demand_mass_balance_c NumPy total_odemand odemand avail
                     host_recapture ;;
    ret (setitem estimates product
           {| demand := d; spill := s; recapture := r |})
  else
    ret (setitem estimates product
           {| demand := 0; spill := 0; recapture := 0 |}).

(** [estimate_class_level(observed, availability, probs, nofly_prob,
    calibrate)]; the run returns the value of the mapping.  [kd] is the kind
    of the probabilities, availabilities and no-fly probability the caller
    passes: that of the divisions of [estimate_host_level], and of the one
    of [calibrate_no_booking]. *)
Definition estimate_class_level (kd : kind)
  (observed availability probs : dict R) (nofly_prob : R) (calibrate : bool)
  : result (dict estimate) :=
  ' (_, host_spill, host_recapture) <-
      estimate_host_level kd observed availability probs nofly_prob ;;
  let total_odemand := sum (values observed) in
  estimates <- for_each
                 (class_level_step observed availability total_odemand
                    host_recapture)
                 (keys probs) [] ;;
  if calibrate then
    let '(h, estimates) := Store.alloc estimates in
    ' (h, estimates) <- Store.calibrate_no_booking kd h estimates observed
                          availability probs host_spill ;;
    d <- Store.read_dict h estimates ;;
    Store.contents h d
  else ret estimates.

(** [selection_probs(utilities, market_share)].  [np.exp] returns numpy
    scalars, so [exp_sum] is one unless [utilities] is empty, when it is the
    [0] that [sum] starts from; [kd] is the kind of [market_share]. *)
Definition selection_probs (kd : kind) (utilities : dict R) (market_share : R)
  : result (dict R * R) :=
  let kd' := match utilities with [] => kd | _ :: _ => NumPy end in
  let exp_sum := sum (map exp (values utilities)) in
  exp_nofly_utility <- div kd' (exp_sum * (1 - market_share)) market_share ;;
  let exp_sum := exp_sum + exp_nofly_utility in
  probs <- comprehension
             (fun '(p, u) => q <- div NumPy (exp u) exp_sum ;; ret (p, q))
             utilities ;;
  nofly_prob <- div kd' exp_nofly_utility exp_sum ;;
  ret (probs, nofly_prob).

(** ** Quantities of the specification *)

(** The probability of selecting an open element of the market set, as
    [estimate_host_level] computes it. *)
Definition prob_market_open (availability probs : dict R) (nofly_prob : R)
  : R :=
  nofly_prob + sum (map (fun '(p, pr) => pr * get availability p 0) probs).

(** The quantities of the calibration step, named as its comments name
    them: the unaccounted spill, the products with no observed bookings, the
    weight of a product and the divisor of the normalisation. *)
Definition unaccounted (estimates : dict estimate) (host_spill : R) : R :=
  host_spill - sum (map spill (values estimates)).

Definition no_booking (observed : dict R) (estimates : dict estimate)
  : list key :=
  filter (fun k => eqb (get observed k 0) 0) (keys estimates).

Definition weight (probs availability : dict R) (p : key) : R :=
  get probs p 0 * (1 - get availability p 0).

Definition total_weight
  (estimates : dict estimate) (observed availability probs : dict R) : R :=
  sum (map (weight probs availability) (no_booking observed estimates)).

(** What the last loop of [calibrate_no_booking] does to the entry of [p]. *)
Definition calibrated (u w : R) (e : estimate) : estimate :=
  {| demand := u * w; spill := u * w; recapture := recapture e |}.

(** The mapping the calibration returns when it redistributes, on a mapping
    with one inner dict per key. *)
Definition redistributed
  (estimates : dict estimate) (observed availability probs : dict R)
  (hs : R) : dict estimate :=
  map (fun '(k, e) =>
         (k, if eqb (get observed k 0) 0
             then calibrated (unaccounted estimates hs)
                    (weight probs availability k
                     / total_weight estimates observed availability probs) e
             else e))
      estimates.

(** The last loop of [calibrate_no_booking] on the value of a mapping with
    one inner dict per key: the two assignments change the entry of [p]. *)
Definition assign_values
  (unaccounted_spill : R) (estimates : dict estimate) (item : key * R)
  : result (dict estimate) :=
  let '(p, w) := item in
  e <- getitem estimates p ;;
  let estimates := setitem estimates p (set_spill e (unaccounted_spill * w)) in
  e <- getitem estimates p ;;
  ret (setitem estimates p (set_demand e (unaccounted_spill * w))).

(** The value of the mapping [calibrate_no_booking] returns, from the value
    of the mapping it is given.  This is what the run on the store computes
    when the mapping has one inner dict per key ([calibrate_refines] below);
    it is not when two keys hold one inner dict. *)
Definition calibrate_values (kd : kind)
  (estimates : dict estimate) (observed availability probs : dict R)
  (host_spill : R) : result (dict estimate) :=
  let class_spill := sum (map spill (values estimates)) in
  let unaccounted_spill := host_spill - class_spill in
  if gtb unaccounted_spill 0 then
    let observed0 :=
      filter (fun k => eqb (get observed k 0) 0) (keys estimates) in
    weights <- comprehension
                 (fun p => pr <- getitem probs p ;;
                           ret (p, pr * (1 - get availability p 0)))
                 observed0 ;;
    weights' <- comprehension
                  (fun '(p, w) => w' <- div kd w (sum (values weights)) ;;
                                  ret (p, w'))
                  weights ;;
    for_each (assign_values unaccounted_spill) weights' estimates
  else ret estimates.

(** The entry one iteration of the loop of [estimate_class_level] stores
    for [product], apart from the mapping it stores it in
    ([class_level_step_entry] below). *)
Definition class_level_entry
  (observed availability : dict R) (total_odemand host_recapture : R)
  (product : key) : result estimate :=
  let odemand := get observed product 0 in
  let avail := get availability product 0 in
  if eqb avail 0 && gtb odemand 0 then raise InvalidInputParameters
  else if truthy odemand then
    ' (d, s, r) <- demand_mass_balance_c NumPy total_odemand odemand avail
                     host_recapture ;;
    ret {| demand := d; spill := s; recapture := r |}
  else ret {| demand := 0; spill := 0; recapture := 0 |}.

(** ** The scenarios of the specification

    [Scenario]: the two-product example; [Closed]: the same market with
    product B closed all period; [ErrorPath]: the one-product error
    example; [Invalid]: a booked, never available product next to an open
    one; [Unlisted]: a booked, never available product that [probs] does not
    list. *)

Module Scenario.
Definition observed : dict R := [("A"%string, 100); ("B"%string, 0)].
Definition availability : dict R := [("A"%string, 4/5); ("B"%string, 1)].
Definition probs : dict R := [("A"%string, 3/10); ("B"%string, 1/5)].
Definition nofly_prob : R := 1/2.
End Scenario.

Module Closed.
Definition observed : dict R := [("A"%string, 100); ("B"%string, 0)].
Definition availability : dict R := [("A"%string, 4/5); ("B"%string, 0)].
Definition probs : dict R := [("A"%string, 3/10); ("B"%string, 1/5)].
Definition nofly_prob : R := 1/2.
End Closed.

Module ErrorPath.
Definition observed : dict R := [("A"%string, 10)].
Definition availability : dict R := [("A"%string, 0)].
Definition probs : dict R := [("A"%string, 3/10)].
Definition nofly_prob : R := 1/2.
End ErrorPath.

Module Invalid.
Definition observed : dict R := [("A"%string, 10); ("B"%string, 5)].
Definition availability : dict R := [("A"%string, 0); ("B"%string, 1)].
Definition probs : dict R := [("A"%string, 3/10); ("B"%string, 1/5)].
Definition nofly_prob : R := 1/2.
End Invalid.

Module Unlisted.
Definition observed : dict R := [("A"%string, 10)].
Definition availability : dict R := [("A"%string, 0); ("B"%string, 1)].
Definition probs : dict R := [("B"%string, 1/2)].
Definition nofly_prob : R := 1/2.
End Unlisted.

(** ** Basic facts *)

Lemma eqb_true x y : eqb x y = true <-> x = y.
Proof. unfold eqb. destruct (Req_dec_T x y); split; congruence. Qed.

Lemma eqb_false x y : eqb x y = false <-> x <> y.
Proof. unfold eqb. destruct (Req_dec_T x y); split; congruence. Qed.

Lemma eqb_refl x : eqb x x = true.
Proof. now apply eqb_true. Qed.

Lemma gtb_true x y : gtb x y = true <-> x > y.
Proof. unfold gtb. destruct (Rgt_dec x y); split; congruence. Qed.

Lemma gtb_false x y : gtb x y = false <-> ~ x > y.
Proof. unfold gtb. destruct (Rgt_dec x y); split; congruence. Qed.

Lemma truthy_true x : truthy x = true <-> x <> 0.
Proof. unfold truthy. rewrite negb_true_iff. apply eqb_false. Qed.

Lemma truthy_false x : truthy x = false <-> x = 0.
Proof. unfold truthy. rewrite negb_false_iff. apply eqb_true. Qed.

Lemma div_ok {kd} x y : y <> 0 -> div kd x y = ret (x / y).
Proof. intros H. unfold div. apply eqb_false in H. now rewrite H. Qed.

Lemma div_zero {kd} x : div kd x 0 = raise (zero_division kd).
Proof. unfold div. now rewrite eqb_refl. Qed.

Lemma div_inr {kd} x y z : div kd x y = inr z -> y <> 0 /\ z = x / y.
Proof.
  unfold div. destruct (eqb y 0) eqn:E; [discriminate|].
  apply eqb_false in E. intros [= <-]. now split.
Qed.

(** *** The solver is exact *)

Ltac unfold_linalg :=
  unfold solve2, solve3, mulv2, mulv3, det2, det3, ret, raise in *.

Lemma solve2_sound A B x : solve2 A B = inr x -> mulv2 A x = B.
Proof.
  destruct A as [[a b] [c d]], B as [e f]. unfold solve2.
  destruct (eqb _ 0) eqn:E; [discriminate|]. apply eqb_false in E.
  unfold_linalg. intros [= <-]. apply f_equal2; field; exact E.
Qed.

Lemma solve2_unique A B x : det2 A <> 0 -> mulv2 A x = B -> solve2 A B = inr x.
Proof.
  destruct A as [[a b] [c d]], B as [e f], x as [x1 x2]. intros Hd.
  unfold solve2. pose proof Hd as E. apply eqb_false in E. rewrite E.
  unfold_linalg. intros [= <- <-].
  apply f_equal. apply f_equal2; field; exact Hd.
Qed.

Lemma solve2_singular A B : det2 A = 0 -> solve2 A B = raise LinAlgError.
Proof. intros H. unfold solve2. now rewrite H, eqb_refl. Qed.

Lemma solve3_sound A B x : solve3 A B = inr x -> mulv3 A x = B.
Proof.
  destruct A as [[[[a b] c] [[d e] f]] [[g h] i]], B as [[p q] r].
  unfold solve3.
  destruct (eqb _ 0) eqn:E; [discriminate|]. apply eqb_false in E.
  unfold_linalg. intros [= <-].
  apply f_equal2; [apply f_equal2|]; field; exact E.
Qed.

Lemma solve3_unique A B x : det3 A <> 0 -> mulv3 A x = B -> solve3 A B = inr x.
Proof.
  destruct A as [[[[a b] c] [[d e] f]] [[g h] i]], B as [[p q] r].
  destruct x as [[x1 x2] x3]. intros Hd.
  unfold solve3. pose proof Hd as E. apply eqb_false in E. rewrite E.
  unfold_linalg. intros [= <- <- <-].
  apply f_equal. apply f_equal2; [apply f_equal2|]; field; exact Hd.
Qed.

Lemma solve3_singular A B : det3 A = 0 -> solve3 A B = raise LinAlgError.
Proof. intros H. unfold solve3. now rewrite H, eqb_refl. Qed.

(** *** Sums *)

Lemma fold_left_Rplus_acc (l : list R) (a : R) :
  fold_left Rplus l a = a + fold_left Rplus l 0.
Proof.
  revert a. induction l as [|x l IH]; intros a; cbn.
  - lra.
  - rewrite (IH (a + x)), (IH (0 + x)). lra.
Qed.

Lemma sum_nil : sum [] = 0.
Proof. reflexivity. Qed.

Lemma sum_cons x l : sum (x :: l) = x + sum l.
Proof. unfold sum. cbn. rewrite fold_left_Rplus_acc. lra. Qed.

Lemma sum_map_scale {A : Type} (f : A -> R) (c : R) (l : list A) :
  sum (map (fun x => c * f x) l) = c * sum (map f l).
Proof.
  induction l as [|x l IH]; cbn [map].
  - rewrite sum_nil. lra.
  - rewrite !sum_cons, IH. lra.
Qed.

Lemma sum_map_div {A : Type} (f : A -> R) (c : R) (l : list A) :
  sum (map (fun x => f x / c) l) = sum (map f l) / c.
Proof.
  induction l as [|x l IH]; cbn [map].
  - rewrite sum_nil. unfold Rdiv. lra.
  - rewrite !sum_cons, IH. unfold Rdiv. lra.
Qed.

Lemma sum_map_ext {A : Type} (f g : A -> R) (l : list A) :
  (forall x, In x l -> f x = g x) -> sum (map f l) = sum (map g l).
Proof.
  induction l as [|x l IH]; intros H; cbn [map]; [reflexivity|].
  rewrite !sum_cons, IH, (H x); auto with datatypes.
Qed.

Lemma sum_pos l : l <> [] -> Forall (fun x => 0 < x) l -> 0 < sum l.
Proof.
  induction l as [|x l IH]; [congruence|]. intros _ H.
  inversion H as [|? ? Hx Hl]; subst. rewrite sum_cons.
  destruct l as [|y l].
  - rewrite sum_nil. lra.
  - assert (0 < sum (y :: l)) by (apply IH; [discriminate | assumption]). lra.
Qed.

(** *** Dictionaries *)

Section DictFacts.
Variable V : Type.
Implicit Types (d : dict V) (k : key) (v : V).

Lemma lookup_setitem_eq d k v : lookup (setitem d k v) k = Some v.
Proof.
  induction d as [|[k' v'] d IH]; cbn.
  - now rewrite String.eqb_refl.
  - destruct (String.eqb k k') eqn:E; cbn; rewrite E; auto.
Qed.

Lemma lookup_setitem_neq d k k' v :
  k <> k' -> lookup (setitem d k v) k' = lookup d k'.
Proof.
  intros Hne. induction d as [|[k0 v0] d IH]; cbn.
  - destruct (String.eqb k' k) eqn:E; [|reflexivity].
    apply String.eqb_eq in E. congruence.
  - destruct (String.eqb k k0) eqn:E; cbn.
    + apply String.eqb_eq in E. subst k0.
      destruct (String.eqb k' k) eqn:E'; [|reflexivity].
      apply String.eqb_eq in E'. congruence.
    + now rewrite IH.
Qed.

Lemma lookup_In_keys d k : In k (keys d) <-> exists v, lookup d k = Some v.
Proof.
  induction d as [|[k' v'] d IH]; cbn.
  - split; [tauto | intros [v H]; discriminate].
  - destruct (String.eqb k k') eqn:E.
    + apply String.eqb_eq in E. subst. split; eauto.
    + apply String.eqb_neq in E. rewrite IH. split.
      * intros [H|H]; [congruence | exact H].
      * auto.
Qed.

Lemma lookup_None d k : ~ In k (keys d) <-> lookup d k = None.
Proof.
  rewrite lookup_In_keys. destruct (lookup d k) as [v|]; split.
  - intros H. exfalso. eauto.
  - discriminate.
  - reflexivity.
  - intros _ [v H]. discriminate.
Qed.

Lemma keys_setitem_In d k v : In k (keys d) -> keys (setitem d k v) = keys d.
Proof.
  induction d as [|[k' v'] d IH]; cbn; [tauto|].
  destruct (String.eqb k k') eqn:E; cbn; [reflexivity|].
  apply String.eqb_neq in E. intros [H|H]; [congruence|].
  unfold keys in IH. now rewrite IH.
Qed.

Lemma keys_setitem_notin d k v :
  ~ In k (keys d) -> keys (setitem d k v) = keys d ++ [k].
Proof.
  induction d as [|[k' v'] d IH]; cbn; [reflexivity|].
  intros H. destruct (String.eqb k k') eqn:E.
  - apply String.eqb_eq in E. subst k'. tauto.
  - cbn. unfold keys in IH. rewrite IH; [reflexivity | tauto].
Qed.

Lemma lookup_In d k v : lookup d k = Some v -> In (k, v) d.
Proof.
  induction d as [|[k' v'] d IH]; cbn; [discriminate|].
  destruct (String.eqb k k') eqn:E.
  - apply String.eqb_eq in E. intros [= ->]. subst. now left.
  - auto.
Qed.

Lemma In_lookup d k v : wf d -> In (k, v) d -> lookup d k = Some v.
Proof.
  unfold wf. induction d as [|[k' v'] d IH]; cbn; [tauto|].
  intros Hnd [H|H].
  - injection H as -> ->. now rewrite String.eqb_refl.
  - inversion Hnd as [|? ? Hnotin Hnd']; subst.
    destruct (String.eqb k k') eqn:E.
    + apply String.eqb_eq in E. subst k'. exfalso. apply Hnotin.
      change (In (fst (k, v)) (map fst d)). now apply in_map.
    + auto.
Qed.

End DictFacts.

(** *** Loops and comprehensions *)

(** ** The mass-balance solvers *)

Lemma det3_host_matrix c r : det3 (host_matrix c r) = 1 - c + c * r.
Proof. unfold det3, host_matrix. ring. Qed.

Lemma det2_class_matrix k : det2 (class_matrix k) = 1 - k.
Proof. unfold det2, class_matrix. ring. Qed.

(** The closed form of the host-level solution. *)
Lemma demand_mass_balance_h_closed odemand c r :
  1 - c + c * r <> 0 ->
  demand_mass_balance_h odemand c r =
    inr (odemand / (1 - c + c * r),
         c * odemand / (1 - c + c * r),
         r * c * odemand / (1 - c + c * r)).
Proof.
  intros Hd. unfold demand_mass_balance_h.
  rewrite (solve3_unique _ _
             (odemand / (1 - c + c * r),
              c * odemand / (1 - c + c * r),
              r * c * odemand / (1 - c + c * r)));
    [reflexivity | now rewrite det3_host_matrix |].
  unfold mulv3, host_matrix.
  apply f_equal2; [apply f_equal2|]; field; exact Hd.
Qed.

Lemma demand_mass_balance_h_singular odemand c r :
  1 - c + c * r = 0 ->
  demand_mass_balance_h odemand c r = raise LinAlgError.
Proof.
  intros Hd. unfold demand_mass_balance_h.
  rewrite solve3_singular; [reflexivity | now rewrite det3_host_matrix].
Qed.

(** Whatever the host-level solver returns solves the three equations. *)
Lemma demand_mass_balance_h_sound odemand c rr d s r :
  demand_mass_balance_h odemand c rr = inr (d, s, r) ->
  d - s + r = odemand /\ s = c * d /\ r = rr * s.
Proof.
  unfold demand_mass_balance_h.
  destruct (solve3 _ _) as [e|[[d' s'] r']] eqn:E; cbn; [discriminate|].
  intros [= -> -> ->]. apply solve3_sound in E.
  unfold mulv3, host_matrix in E. injection E as E1 E2 E3.
  repeat split; lra.
Qed.

(** C1.  Whenever the 3x3 host-level system is solvable (its matrix is
    non-singular), [demand_mass_balance_h] returns a triple
    (demand, spill, recapture), and the triple satisfies
    demand - spill + recapture = odemand, spill = close_prob * demand and
    recapture = recapture_rate * spill. *)
Theorem demand_mass_balance_h_balance odemand close_prob recapture_rate :
  det3 (host_matrix close_prob recapture_rate) <> 0 ->
  exists d s r,
    demand_mass_balance_h odemand close_prob recapture_rate = inr (d, s, r)
    /\ d - s + r = odemand
    /\ s = close_prob * d
    /\ r = recapture_rate * s.
Proof.
  rewrite det3_host_matrix. intros Hd.
  pose proof (demand_mass_balance_h_closed odemand _ _ Hd) as E.
  do 3 eexists. split; [exact E|].
  now apply demand_mass_balance_h_sound in E.
Qed.

Lemma demand_mass_balance_h_balance_witness :
  det3 (host_matrix (1/2) (1/2)) <> 0
  /\ exists d s r,
       demand_mass_balance_h 100 (1/2) (1/2) = inr (d, s, r)
       /\ d - s + r = 100 /\ s = 1/2 * d /\ r = 1/2 * s.
Proof.
  assert (H : det3 (host_matrix (1/2) (1/2)) <> 0).
  { rewrite det3_host_matrix. lra. }
  split; [exact H|].
  exact (demand_mass_balance_h_balance 100 (1/2) (1/2) H).
Defined.

(** The closed form of the class-level solution. *)
Lemma demand_mass_balance_c_closed {kd} host_odemand class_odemand avail hr :
  class_odemand <> 0 -> host_odemand <> 0 -> avail <> 0 ->
  demand_mass_balance_c kd host_odemand class_odemand avail hr =
    inr ((class_odemand - hr * class_odemand / host_odemand) / avail,
         (1 - avail) * (class_odemand - hr * class_odemand / host_odemand)
           / avail,
         hr * class_odemand / host_odemand).
Proof.
  intros Hc Hh Ha. unfold demand_mass_balance_c.
  apply truthy_true in Hc. rewrite Hc, div_ok by assumption. cbn.
  rewrite (solve2_unique _ _
             ((class_odemand - hr * class_odemand / host_odemand) / avail,
              (1 - avail) * (class_odemand - hr * class_odemand / host_odemand)
                / avail));
    [reflexivity | rewrite det2_class_matrix; lra |].
  unfold mulv2, class_matrix. apply f_equal2; field; split; assumption.
Qed.

Lemma demand_mass_balance_c_zero {kd} host_odemand avail hr :
  demand_mass_balance_c kd host_odemand 0 avail hr = inr (0, 0, 0).
Proof.
  unfold demand_mass_balance_c.
  now replace (truthy 0) with false by (symmetry; now apply truthy_false).
Qed.

(** Whatever the class-level solver returns for a non-zero observed demand
    solves the class-level balance. *)
Lemma demand_mass_balance_c_sound {kd}
  host_odemand class_odemand avail hr d s r :
  class_odemand <> 0 ->
  demand_mass_balance_c kd host_odemand class_odemand avail hr
  = inr (d, s, r) ->
  host_odemand <> 0
  /\ r = hr * class_odemand / host_odemand
  /\ s = (1 - avail) * d
  /\ d - s = class_odemand - r.
Proof.
  intros Hc. unfold demand_mass_balance_c.
  apply truthy_true in Hc. rewrite Hc.
  destruct (div _ _ _) as [e|r'] eqn:Er; cbn; [discriminate|].
  apply div_inr in Er. destruct Er as [Hh ->].
  destruct (solve2 _ _) as [e|[d' s']] eqn:E; cbn; [discriminate|].
  intros [= -> -> <-]. apply solve2_sound in E.
  unfold mulv2, class_matrix in E. injection E as E1 E2.
  repeat split; try assumption; lra.
Qed.

(** ** The class-level loop *)

Lemma class_level_step_entry observed availability total hr estimates product :
  class_level_step observed availability total hr estimates product =
  (e <- class_level_entry observed availability total hr product ;;
   ret (setitem estimates product e)).
Proof.
  unfold class_level_step, class_level_entry.
  destruct (eqb _ 0 && gtb _ 0); [reflexivity|].
  destruct (truthy _); [|reflexivity].
  destruct (demand_mass_balance_c _ _ _ _ _) as [e|[[d s] r]]; reflexivity.
Qed.

Section StoreLoop.
(** A loop that stores, for each key of a list, an entry computed from the
    key alone. *)
Variable V : Type.
Variable g : key -> result V.

Let body (d : dict V) (p : key) : result (dict V) :=
  e <- g p ;; ret (setitem d p e).

Lemma for_each_store_inr l d d' :
  for_each body l d = inr d' ->
  (forall p, In p l -> exists e, g p = inr e /\ lookup d' p = Some e)
  /\ (forall p, ~ In p l -> lookup d' p = lookup d p).
Proof.
  revert d. induction l as [|q l IH]; intros d; cbn.
  - intros [= <-]. split; [contradiction | reflexivity].
  - unfold body at 1. destruct (g q) as [x|e] eqn:Eq; cbn; [discriminate|].
    intros H. apply IH in H. destruct H as [Hin Hout]. split.
    + intros p [<-|Hp].
      * destruct (in_dec string_dec q l) as [Hq|Hq]; [now apply Hin|].
        exists e. split; [assumption|].
        rewrite Hout by assumption. apply lookup_setitem_eq.
      * now apply Hin.
    + intros p Hp. rewrite Hout by tauto.
      apply lookup_setitem_neq. tauto.
Qed.

(** When every failing key fails with the same exception, and some key
    fails, the loop raises that exception. *)
Lemma for_each_store_raises l d x :
  (forall p, In p l -> g p = inl x \/ exists e, g p = inr e) ->
  (exists p, In p l /\ g p = inl x) ->
  for_each body l d = inl x.
Proof.
  revert d. induction l as [|q l IH]; intros d Hall [p [Hp Hx]]; cbn.
  - contradiction.
  - unfold body at 1. destruct (Hall q) as [Hq|[e Hq]]; [now left| |].
    + now rewrite Hq.
    + rewrite Hq. cbn. apply IH.
      * intros p' Hp'. apply Hall. now right.
      * destruct Hp as [<-|Hp]; [congruence|]. eauto.
Qed.

End StoreLoop.

(** ** The calibration step on values

    [calibrate_values]: what a call of [calibrate_no_booking] computes of
    the value of a mapping with one inner dict per key. *)

Lemma setitem_map {V : Type} (d : dict V) k v :
  wf d -> In k (keys d) ->
  setitem d k v = map (fun '(k', v') => if String.eqb k' k then (k', v) else (k', v')) d.
Proof.
  unfold wf. induction d as [|[k0 v0] d IH]; cbn; [tauto|].
  intros Hnd Hin. inversion Hnd as [|? ? Hk0 Hnd']; subst.
  destruct (String.eqb k k0) eqn:E.
  - apply String.eqb_eq in E. subst k0. rewrite String.eqb_refl. f_equal.
    clear - Hk0. induction d as [|[k1 v1] d IHd]; cbn in *; [reflexivity|].
    destruct (String.eqb k1 k) eqn:E1.
    + apply String.eqb_eq in E1. tauto.
    + f_equal. apply IHd. tauto.
  - rewrite String.eqb_sym, E. f_equal. apply IH; [assumption|].
    apply String.eqb_neq in E. destruct Hin as [Hin|Hin]; [congruence|exact Hin].
Qed.

Lemma keys_map_entries {V : Type} (f : key -> V -> V) (d : dict V) :
  keys (map (fun '(k, v) => (k, f k v)) d) = keys d.
Proof.
  unfold keys. rewrite map_map. apply map_ext. now intros [k v].
Qed.

Lemma lookup_map_entries {V : Type} (f : key -> V -> V) (d : dict V) k :
  lookup (map (fun '(k, v) => (k, f k v)) d) k =
  option_map (f k) (lookup d k).
Proof.
  induction d as [|[k0 v0] d IH]; cbn; [reflexivity|].
  destruct (String.eqb k k0) eqn:E; [|exact IH].
  apply String.eqb_eq in E. now subst.
Qed.

(** The first comprehension: the weights of the products without bookings. *)
Lemma weights_inr probs availability l ws :
  comprehension
    (fun p => pr <- getitem probs p ;;
              ret (p, pr * (1 - get availability p 0))) l = inr ws
  <-> ws = map (fun p => (p, weight probs availability p)) l
      /\ Forall (fun p => In p (keys probs)) l.
Proof.
  revert ws. induction l as [|p l IH]; intros ws; cbn.
  - unfold ret. split.
    + intros [= <-]. split; constructor.
    + intros [-> _]. reflexivity.
  - unfold weight at 1, getitem, get.
    destruct (lookup probs p) as [pr|] eqn:Ep; cbn.
    + destruct (comprehension _ l) as [x|ws0] eqn:El; cbn.
      * split; [discriminate|]. intros [_ H]. inversion H; subst.
        specialize (proj2 (IH _) (conj eq_refl H3)). discriminate.
      * destruct (proj1 (IH _) eq_refl) as [-> Hl]. unfold ret. split.
        -- intros [= <-]. split; [reflexivity|]. constructor; [|assumption].
           apply lookup_In_keys. eauto.
        -- intros [-> _]. reflexivity.
    + split; [discriminate|]. intros [_ H]. inversion H; subst.
      apply lookup_In_keys in H2. destruct H2 as [v Hv]. congruence.
Qed.

Lemma weights_KeyError probs availability l :
  ~ Forall (fun p => In p (keys probs)) l ->
  comprehension
    (fun p => pr <- getitem probs p ;;
              ret (p, pr * (1 - get availability p 0))) l = inl KeyError.
Proof.
  induction l as [|p l IH]; intros H; cbn.
  - exfalso. apply H. constructor.
  - unfold getitem at 1.
    destruct (lookup probs p) as [pr|] eqn:Ep; cbn [bind ret raise]; [|reflexivity].
    rewrite IH; [reflexivity|]. intros Hl. apply H. constructor; [|assumption].
    apply lookup_In_keys. eauto.
Qed.

(** The second comprehension: the normalisation. *)
Lemma normalise_inr {kd} (W : R) (ws : dict R) :
  W <> 0 ->
  comprehension (fun '(p, w) => w' <- div kd w W ;; ret (p, w')) ws =
  inr (map (fun '(p, w) => (p, w / W)) ws).
Proof.
  intros HW. induction ws as [|[p w] ws IH]; cbn; [reflexivity|].
  rewrite div_ok by assumption. cbn. now rewrite IH.
Qed.

Lemma normalise_zero {kd} (ws : dict R) :
  ws <> [] ->
  comprehension (fun '(p, w) => w' <- div kd w 0 ;; ret (p, w')) ws =
  inl (zero_division kd).
Proof.
  destruct ws as [|[p w] ws]; [congruence|]. intros _. cbn.
  now rewrite div_zero.
Qed.

(** The last loop, on a mapping with the keys it is run on. *)
Lemma calibrate_loop u (ws : dict R) (d : dict estimate) :
  wf d -> wf ws -> (forall p, In p (keys ws) -> In p (keys d)) ->
  for_each (assign_values u) ws d
  = inr (map (fun '(k, e) =>
                (k, match lookup ws k with
                    | Some w => calibrated u w e
                    | None => e
                    end)) d).
Proof.
  revert d. induction ws as [|[p w] ws IH]; intros d Hd Hws Hsub; cbn.
  - unfold ret. apply f_equal. rewrite <- (map_id d) at 1.
    apply map_ext. now intros [k e].
  - assert (Hp : In p (keys d)) by (apply Hsub; now left).
    destruct (proj1 (lookup_In_keys _ _ _) Hp) as [e He].
    unfold getitem at 1. rewrite He. cbn.
    unfold getitem at 1. rewrite lookup_setitem_eq. cbn.
    inversion Hws as [|? ? Hpws Hws']; subst.
    assert (Hstep :
      setitem (setitem d p (set_spill e (u * w))) p
        (set_demand (set_spill e (u * w)) (u * w))
      = map (fun '(k, e0) =>
               (k, if String.eqb k p then calibrated u w e0 else e0)) d).
    { rewrite setitem_map.
      - rewrite (setitem_map d p _ Hd Hp), map_map. apply map_ext_in.
        intros [k e0] Hin. destruct (String.eqb k p) eqn:E; cbn; rewrite E.
        + apply String.eqb_eq in E. subst k.
          rewrite (In_lookup _ _ _ _ Hd Hin) in He. now injection He as ->.
        + reflexivity.
      - unfold wf. now rewrite keys_setitem_In.
      - now rewrite keys_setitem_In. }
    rewrite Hstep, IH.
    + apply f_equal. rewrite map_map. apply map_ext. intros [k e0].
      destruct (String.eqb k p) eqn:E; [|reflexivity].
      apply String.eqb_eq in E. subst k.
      apply lookup_None in Hpws. now rewrite Hpws.
    + unfold wf. now rewrite (keys_map_entries (fun k e0 => if String.eqb k p then calibrated u w e0 else e0)).
    + exact Hws'.
    + intros q Hq.
      rewrite (keys_map_entries (fun k e0 => if String.eqb k p then calibrated u w e0 else e0)).
      apply Hsub. now right.
Qed.

Lemma lookup_map_keys_In {V : Type} (f : key -> V) (l : list key) k :
  In k l -> lookup (map (fun p => (p, f p)) l) k = Some (f k).
Proof.
  induction l as [|q l IH]; cbn [map lookup In]; [contradiction|].
  destruct (String.eqb k q) eqn:E.
  - apply String.eqb_eq in E. now subst q.
  - apply String.eqb_neq in E. intros [H|H]; [congruence | auto].
Qed.

Lemma lookup_map_keys_notin {V : Type} (f : key -> V) (l : list key) k :
  ~ In k l -> lookup (map (fun p => (p, f p)) l) k = None.
Proof.
  intros H. apply lookup_None. unfold keys. rewrite map_map. cbn.
  now rewrite map_id.
Qed.

Lemma no_booking_In observed estimates k :
  In k (no_booking observed estimates) <->
  In k (keys estimates) /\ get observed k 0 = 0.
Proof.
  unfold no_booking. rewrite filter_In, eqb_true. tauto.
Qed.

Lemma no_booking_NoDup observed estimates :
  wf estimates -> NoDup (no_booking observed estimates).
Proof. intros H. unfold no_booking. now apply NoDup_filter. Qed.

Lemma gtb_unaccounted estimates host_spill :
  gtb (host_spill - sum (map spill (values estimates))) 0
  = gtb (unaccounted estimates host_spill) 0.
Proof. reflexivity. Qed.

(** Unaccounted spill that is not positive: nothing is redistributed. *)
Lemma calibrate_values_unchanged {kd} estimates observed availability probs hs :
  ~ unaccounted estimates hs > 0 ->
  calibrate_values kd estimates observed availability probs hs
  = inr estimates.
Proof.
  intros H. unfold calibrate_values. rewrite gtb_unaccounted.
  apply gtb_false in H. now rewrite H.
Qed.

Lemma calibrate_values_redistributes {kd}
  estimates observed availability probs hs :
  wf estimates ->
  unaccounted estimates hs > 0 ->
  Forall (fun p => In p (keys probs)) (no_booking observed estimates) ->
  no_booking observed estimates = []
  \/ total_weight estimates observed availability probs <> 0 ->
  calibrate_values kd estimates observed availability probs hs
  = inr (redistributed estimates observed availability probs hs).
Proof.
  intros Hwf Hu Hin Hw. unfold calibrate_values.
  rewrite gtb_unaccounted. apply gtb_true in Hu. rewrite Hu.
  fold (no_booking observed estimates).
  rewrite (proj2 (weights_inr probs availability _ _) (conj eq_refl Hin)).
  cbn [bind].
  set (nb := no_booking observed estimates) in *.
  assert (HW : sum (values (map (fun p => (p, weight probs availability p)) nb))
               = total_weight estimates observed availability probs).
  { unfold total_weight, values. fold nb. now rewrite map_map. }
  rewrite HW.
  set (W := total_weight estimates observed availability probs) in *.
  assert (Hnorm :
    comprehension (fun '(p, w) => w' <- div kd w W ;; ret (p, w'))
      (map (fun p => (p, weight probs availability p)) nb)
    = inr (map (fun p => (p, weight probs availability p / W)) nb)).
  { destruct Hw as [Hnil|HWne].
    - rewrite Hnil. reflexivity.
    - rewrite normalise_inr by assumption. now rewrite map_map. }
  rewrite Hnorm. cbn [bind].
  rewrite calibrate_loop.
  - apply f_equal. unfold redistributed. apply map_ext_in.
    intros [k e] Hke. apply f_equal.
    fold (unaccounted estimates hs).
    assert (Hk : In k (keys estimates)).
    { change (In (fst (k, e)) (map fst estimates)). now apply in_map. }
    destruct (in_dec string_dec k nb) as [Hnb|Hnb].
    + rewrite (lookup_map_keys_In
                 (fun p => weight probs availability p / W) _ _ Hnb).
      unfold nb in Hnb. rewrite no_booking_In in Hnb.
      destruct Hnb as [_ Hz]. apply eqb_true in Hz. now rewrite Hz.
    + rewrite (lookup_map_keys_notin
                 (fun p => weight probs availability p / W) _ _ Hnb).
      unfold nb in Hnb. rewrite no_booking_In in Hnb.
      destruct (eqb (get observed k 0) 0) eqn:Ez; [|reflexivity].
      apply eqb_true in Ez. tauto.
  - exact Hwf.
  - unfold wf, keys. rewrite map_map. cbn. rewrite map_id.
    now apply no_booking_NoDup.
  - intros p. unfold keys at 1. rewrite map_map. cbn. rewrite map_id.
    unfold nb. rewrite no_booking_In. tauto.
Qed.

Lemma calibrate_values_KeyError {kd} estimates observed availability probs hs :
  unaccounted estimates hs > 0 ->
  ~ Forall (fun p => In p (keys probs)) (no_booking observed estimates) ->
  calibrate_values kd estimates observed availability probs hs
  = inl KeyError.
Proof.
  intros Hu Hin. unfold calibrate_values.
  rewrite gtb_unaccounted. apply gtb_true in Hu. rewrite Hu.
  fold (no_booking observed estimates).
  now rewrite weights_KeyError.
Qed.

Lemma calibrate_values_zero_division {kd}
  estimates observed availability probs hs :
  unaccounted estimates hs > 0 ->
  Forall (fun p => In p (keys probs)) (no_booking observed estimates) ->
  no_booking observed estimates <> [] ->
  total_weight estimates observed availability probs = 0 ->
  calibrate_values kd estimates observed availability probs hs
  = inl (zero_division kd).
Proof.
  intros Hu Hin Hne HW. unfold calibrate_values.
  rewrite gtb_unaccounted. apply gtb_true in Hu. rewrite Hu.
  fold (no_booking observed estimates).
  rewrite (proj2 (weights_inr probs availability _ _) (conj eq_refl Hin)).
  cbn [bind].
  assert (HW' : sum (values (map (fun p => (p, weight probs availability p))
                               (no_booking observed estimates))) = 0).
  { rewrite <- HW. unfold total_weight, values. now rewrite map_map. }
  rewrite HW', normalise_zero; [reflexivity|].
  destruct (no_booking observed estimates); [congruence | discriminate].
Qed.

(** Every returning run is one of the two above. *)
Lemma calibrate_values_inr {kd} estimates observed availability probs hs est' :
  wf estimates ->
  calibrate_values kd estimates observed availability probs hs = inr est' ->
  (~ unaccounted estimates hs > 0 /\ est' = estimates)
  \/ (unaccounted estimates hs > 0
      /\ Forall (fun p => In p (keys probs)) (no_booking observed estimates)
      /\ (no_booking observed estimates = []
          \/ total_weight estimates observed availability probs <> 0)
      /\ est' = redistributed estimates observed availability probs hs).
Proof.
  intros Hwf H.
  destruct (Rgt_dec (unaccounted estimates hs) 0) as [Hu|Hu].
  - right. split; [assumption|].
    destruct (Forall_dec (fun p => In p (keys probs))
                (fun p => in_dec string_dec p (keys probs))
                (no_booking observed estimates)) as [Hin|Hin].
    + split; [assumption|].
      assert (Hw : no_booking observed estimates = []
                   \/ total_weight estimates observed availability probs <> 0).
      { destruct (no_booking observed estimates) eqn:Enb; [now left|].
        right. intros HW.
        rewrite calibrate_values_zero_division in H;
          try assumption; try discriminate.
        - now rewrite Enb.
        - rewrite Enb. discriminate. }
      split; [assumption|].
      rewrite calibrate_values_redistributes in H by assumption.
      congruence.
    + rewrite calibrate_values_KeyError in H by assumption. discriminate.
  - left. split; [assumption|].
    rewrite calibrate_values_unchanged in H by assumption. congruence.
Qed.

Lemma sum_map_plus {A : Type} (f g : A -> R) (l : list A) :
  sum (map (fun x => f x + g x) l) = sum (map f l) + sum (map g l).
Proof.
  induction l as [|x l IH]; cbn [map].
  - rewrite sum_nil. lra.
  - rewrite !sum_cons, IH. lra.
Qed.

Lemma sum_map_filter {A : Type} (f : A -> R) (p : A -> bool) (l : list A) :
  sum (map f (filter p l)) = sum (map (fun x => if p x then f x else 0) l).
Proof.
  induction l as [|x l IH]; cbn [map filter]; [reflexivity|].
  rewrite sum_cons, <- IH. destruct (p x); cbn [map].
  - now rewrite sum_cons.
  - lra.
Qed.

Lemma in_keys {V : Type} (d : dict V) k v : In (k, v) d -> In k (keys d).
Proof. intros H. change (In (fst (k, v)) (map fst d)). now apply in_map. Qed.

(** The divisor of the normalisation as a sum over the entries. *)
Lemma total_weight_entries estimates observed availability probs :
  total_weight estimates observed availability probs =
  sum (map (fun '(k, _) =>
              if eqb (get observed k 0) 0
              then weight probs availability k else 0) estimates).
Proof.
  unfold total_weight, no_booking. rewrite sum_map_filter.
  unfold keys. rewrite map_map. f_equal. apply map_ext. now intros [k e].
Qed.

Lemma lookup_redistributed estimates observed availability probs hs k :
  lookup (redistributed estimates observed availability probs hs) k =
  option_map
    (fun e => if eqb (get observed k 0) 0
              then calibrated (unaccounted estimates hs)
                     (weight probs availability k
                      / total_weight estimates observed availability probs) e
              else e)
    (lookup estimates k).
Proof.
  unfold redistributed.
  apply (lookup_map_entries
           (fun k e => if eqb (get observed k 0) 0
                       then calibrated (unaccounted estimates hs)
                              (weight probs availability k
                               / total_weight estimates observed availability
                                   probs) e
                       else e)).
Qed.

(** The spills of the redistributed mapping add up to the host spill when
    the products without bookings carried no spill. *)
Lemma redistributed_spill estimates observed availability probs hs :
  total_weight estimates observed availability probs <> 0 ->
  (forall k e, In (k, e) estimates -> get observed k 0 = 0 -> spill e = 0) ->
  sum (map spill
         (values (redistributed estimates observed availability probs hs)))
  = hs.
Proof.
  intros HW Hz. unfold redistributed, values. rewrite !map_map.
  set (U := unaccounted estimates hs).
  set (W := total_weight estimates observed availability probs) in *.
  rewrite (sum_map_ext _
             (fun x => U / W * (let '(k, _) := x in
                                if eqb (get observed k 0) 0
                                then weight probs availability k else 0)
                       + spill (snd x))).
  - rewrite sum_map_plus, sum_map_scale.
    rewrite <- total_weight_entries. fold W.
    replace (sum (map (fun x : key * estimate => spill (snd x)) estimates))
      with (sum (map spill (values estimates)))
      by (unfold values; now rewrite map_map).
    unfold U, unaccounted. field. exact HW.
  - intros [k e] Hke. cbn [snd].
    destruct (eqb (get observed k 0) 0) eqn:Ez; cbn [spill calibrated].
    + apply eqb_true in Ez. rewrite (Hz k e Hke Ez). field. exact HW.
    + lra.
Qed.

(** ** Evaluation on concrete inputs *)

Ltac decide_tests :=
  repeat match goal with
    | |- context [eqb ?x ?y] =>
        let H := fresh in
        first [ assert (H : eqb x y = true) by (apply eqb_true; lra)
              | assert (H : eqb x y = false) by (apply eqb_false; lra) ];
        rewrite H; clear H
    | |- context [gtb ?x ?y] =>
        let H := fresh in
        first [ assert (H : gtb x y = true) by (apply gtb_true; lra)
              | assert (H : gtb x y = false) by (apply gtb_false; lra) ];
        rewrite H; clear H
    end.

Ltac wf_dict :=
  unfold wf, keys; cbn [map fst];
  repeat (constructor; [cbn [In]; intuition discriminate|]); constructor.

Local Open Scope string_scope.
Local Open Scope list_scope.
Local Open Scope R_scope.


Ltac eval_dict :=
  cbn [map filter fst snd lookup String.eqb Ascii.eqb Bool.eqb].

Ltac eval_get := unfold get; eval_dict; try reflexivity; try lra.

Ltac eval_sum :=
  unfold values, keys; cbn [map fst snd spill];
  rewrite ?sum_cons, ?sum_nil; try lra.

(** Calibration leaves the entries of the products with bookings alone. *)
Lemma calibrate_values_frame {kd}
  estimates observed availability probs hs estimates' k :
  wf estimates ->
  calibrate_values kd estimates observed availability probs hs
  = inr estimates' ->
  get observed k 0 <> 0 ->
  lookup estimates' k = lookup estimates k.
Proof.
  intros Hwf H Hk.
  destruct (calibrate_values_inr _ _ _ _ _ _ Hwf H)
    as [[_ ->]|[_ [_ [_ ->]]]]; [reflexivity|].
  rewrite lookup_redistributed. apply eqb_false in Hk. rewrite Hk.
  now destruct (lookup estimates k).
Qed.

(** ** The calibration step on the object store *)

Lemma nth_error_write_eq (h : Store.store) l o :
  (l < List.length h)%nat -> nth_error (Store.write h l o) l = Some o.
Proof.
  revert l. induction h as [|x h IH]; intros [|l] Hl; cbn in *; try lia.
  - reflexivity.
  - apply IH. lia.
Qed.

Lemma nth_error_write_neq (h : Store.store) l l0 o :
  l <> l0 -> nth_error (Store.write h l o) l0 = nth_error h l0.
Proof.
  revert l l0. induction h as [|x h IH]; intros [|l] [|l0] Hne; cbn;
    try reflexivity; try congruence.
  apply IH. congruence.
Qed.

Lemma length_write (h : Store.store) l o :
  List.length (Store.write h l o) = List.length h.
Proof.
  revert l. induction h as [|x h IH]; intros [|l]; cbn; auto.
Qed.

Lemma read_record_inr h l e :
  Store.read_record h l = inr e <-> nth_error h l = Some (Store.ORecord e).
Proof.
  unfold Store.read_record, ret, raise.
  destruct (nth_error h l) as [[d|e']|]; split; congruence.
Qed.

Lemma read_record_valid h l e :
  Store.read_record h l = inr e -> (l < List.length h)%nat.
Proof.
  intros H. apply read_record_inr in H. apply nth_error_Some. congruence.
Qed.

Lemma read_record_agree h h' l :
  nth_error h' l = nth_error h l ->
  Store.read_record h' l = Store.read_record h l.
Proof. intros H. unfold Store.read_record. now rewrite H. Qed.

Lemma contents_agree h h' d :
  (forall l, In l (values d) -> nth_error h' l = nth_error h l) ->
  Store.contents h' d = Store.contents h d.
Proof.
  induction d as [|[k l] d IH]; intros H; cbn; [reflexivity|].
  rewrite (read_record_agree h h' l) by (apply H; now left).
  rewrite IH; [reflexivity|]. intros l0 Hl0. apply H. now right.
Qed.

Lemma contents_inv h k l d est :
  Store.contents h ((k, l) :: d) = inr est ->
  exists e es, Store.read_record h l = inr e
               /\ Store.contents h d = inr es
               /\ est = (k, e) :: es.
Proof.
  cbn. destruct (Store.read_record h l) as [x|e]; cbn; [discriminate|].
  destruct (Store.contents h d) as [x|es]; cbn; [discriminate|].
  intros [= <-]. eauto.
Qed.

Lemma contents_keys h d est :
  Store.contents h d = inr est -> keys est = keys d.
Proof.
  revert est. induction d as [|[k l] d IH]; intros est H.
  - now injection H as <-.
  - apply contents_inv in H. destruct H as [e [es [_ [Hes ->]]]].
    cbn. f_equal. now apply IH.
Qed.

Lemma contents_valid h d est :
  Store.contents h d = inr est ->
  forall l, In l (values d) -> (l < List.length h)%nat.
Proof.
  revert est. induction d as [|[k l] d IH]; intros est H l0 Hl0.
  - contradiction.
  - apply contents_inv in H. destruct H as [e [es [He [Hes ->]]]].
    destruct Hl0 as [<-|Hl0]; [now apply read_record_valid in He | eauto].
Qed.

Lemma contents_lookup h d est p :
  Store.contents h d = inr est ->
  match lookup d p with
  | Some l => exists e, Store.read_record h l = inr e /\ lookup est p = Some e
  | None => lookup est p = None
  end.
Proof.
  revert est. induction d as [|[k l] d IH]; intros est H.
  - now injection H as <-.
  - apply contents_inv in H. destruct H as [e [es [He [Hes ->]]]].
    cbn. destruct (String.eqb p k); [eauto | now apply IH].
Qed.

Lemma contents_spills h d est :
  Store.contents h d = inr est ->
  comprehension (fun l => e <- Store.read_record h l ;; ret (spill e))
    (values d)
  = inr (map spill (values est)).
Proof.
  revert est. induction d as [|[k l] d IH]; intros est H.
  - now injection H as <-.
  - apply contents_inv in H. destruct H as [e [es [He [Hes ->]]]].
    cbn. rewrite He. cbn. fold (values d). now rewrite (IH es Hes).
Qed.

Lemma contents_write_notin h d l o :
  ~ In l (values d) ->
  Store.contents (Store.write h l o) d = Store.contents h d.
Proof.
  intros H. apply contents_agree. intros l0 Hl0.
  apply nth_error_write_neq. intros ->. contradiction.
Qed.

Lemma lookup_In_values {V : Type} (d : dict V) k v :
  lookup d k = Some v -> In v (values d).
Proof.
  intros H. apply lookup_In in H. change v with (snd (k, v)).
  now apply in_map.
Qed.

(** Assigning to the inner dict of [p] changes the entry of [p] alone. *)
Lemma contents_write h d est p l e' :
  NoDup (values d) ->
  Store.contents h d = inr est ->
  lookup d p = Some l ->
  Store.contents (Store.write h l (Store.ORecord e')) d
  = inr (setitem est p e').
Proof.
  revert est. induction d as [|[k l0] d IH]; intros est Hnd H Hl.
  - discriminate.
  - apply contents_inv in H. destruct H as [e [es [He [Hes ->]]]].
    inversion Hnd as [|? ? Hl0 Hnd']; subst. cbn in Hl. cbn [setitem].
    destruct (String.eqb p k) eqn:E.
    + injection Hl as ->. cbn.
      unfold Store.read_record at 1.
      rewrite nth_error_write_eq by (now apply read_record_valid in He).
      cbn. rewrite contents_write_notin by exact Hl0. now rewrite Hes.
    + assert (Hne : l <> l0).
      { intros ->. apply Hl0. now apply lookup_In_values in Hl. }
      cbn. rewrite (read_record_agree h _ l0)
        by (now apply nth_error_write_neq).
      rewrite He. cbn. now rewrite (IH es Hnd' Hes Hl).
Qed.

Lemma contents_app h t d est :
  Store.contents h d = inr est -> Store.contents (h ++ t) d = inr est.
Proof.
  intros H. rewrite <- H. apply contents_agree. intros l Hl.
  apply nth_error_app1. exact (contents_valid _ _ _ H l Hl).
Qed.

(** [deepcopy] of the entries of a mapping whose inner dicts are distinct:
    the copies are appended to the store in the order of the keys. *)
Lemma deepcopy_entries_fresh d : forall h memo est,
  NoDup (values d) ->
  (forall l, In l (values d) -> Store.memo_get memo l = None) ->
  Store.contents h d = inr est ->
  exists c,
    Store.deepcopy_entries h memo d
    = inr (h ++ map Store.ORecord (values est), c)
    /\ keys c = keys d
    /\ values c = seq (List.length h) (List.length d)
    /\ forall t,
         Store.contents (h ++ map Store.ORecord (values est) ++ t) c
         = inr est.
Proof.
  induction d as [|[k l] d IH]; intros h memo est Hnd Hmemo H.
  - injection H as <-. exists []. cbn. rewrite app_nil_r. auto.
  - apply contents_inv in H. destruct H as [e [es [He [Hes ->]]]].
    inversion Hnd as [|? ? Hl Hnd']; subst.
    destruct (IH (h ++ [Store.ORecord e]) ((l, List.length h) :: memo) es
                Hnd') as [c [Hrun [Hk [Hv Hc]]]].
    + intros l0 Hl0. cbn. destruct (Nat.eqb l0 l) eqn:E.
      * apply Nat.eqb_eq in E. subst. contradiction.
      * apply Hmemo. now right.
    + now apply contents_app.
    + exists ((k, List.length h) :: c). cbn [Store.deepcopy_entries].
      rewrite (Hmemo l) by now left. rewrite He. cbn [bind].
      rewrite Hrun. cbn [bind ret]. rewrite <- app_assoc.
      cbn [values map snd app]. split; [reflexivity|].
      split; [unfold keys in *; cbn [map fst]; now rewrite Hk|].
      split.
      * unfold values in *. cbn [map snd List.length seq]. rewrite Hv.
        rewrite length_app. cbn [List.length]. now rewrite Nat.add_1_r.
      * intros t. cbn [Store.contents].
        assert (Hrd : Store.read_record
                        (h ++ Store.ORecord e
                           :: map Store.ORecord (map snd es) ++ t)
                        (List.length h) = inr e).
        { apply read_record_inr. rewrite nth_error_app2 by lia.
          now rewrite Nat.sub_diag. }
        cbn [app]. rewrite Hrd. cbn [bind].
        specialize (Hc t). rewrite <- app_assoc in Hc. cbn [app] in Hc.
        unfold values in Hc. now rewrite Hc.
Qed.

(** The store and the reference [deepcopy] returns. *)
Lemma deepcopy_denotes h r est :
  Store.denotes h r est ->
  exists c,
    let h1 := h ++ map Store.ORecord (values est) in
    Store.deepcopy h r = inr (h1 ++ [Store.ODict c], List.length h1)
    /\ Store.read_dict (h1 ++ [Store.ODict c]) (List.length h1) = inr c
    /\ Store.contents (h1 ++ [Store.ODict c]) c = inr est
    /\ keys c = keys est
    /\ NoDup (values c)
    /\ (forall l, In l (values c) -> (List.length h <= l)%nat).
Proof.
  intros [d [Hd [Hc Hnd]]].
  destruct (deepcopy_entries_fresh d h [] est Hnd (fun _ _ => eq_refl) Hc)
    as [c [Hrun [Hk [Hv Hcc]]]].
  exists c. cbv zeta. unfold Store.deepcopy. rewrite Hd. cbn [bind].
  rewrite Hrun. cbn [bind ret].
  split; [reflexivity|]. split; [|split; [|split; [|split]]].
  - unfold Store.read_dict. rewrite nth_error_app2 by lia.
    now rewrite Nat.sub_diag.
  - specialize (Hcc [Store.ODict c]). now rewrite <- app_assoc.
  - rewrite Hk. symmetry. now apply contents_keys in Hc.
  - rewrite Hv. apply seq_NoDup.
  - intros l Hl. rewrite Hv in Hl. apply in_seq in Hl. lia.
Qed.

(** The two assignments of the last loop, on values and on the store. *)
Lemma assign_values_eq u (est : dict estimate) p w :
  assign_values u est (p, w) =
  match lookup est p with
  | Some e =>
      inr (setitem (setitem est p (set_spill e (u * w))) p
             (set_demand (set_spill e (u * w)) (u * w)))
  | None => inl KeyError
  end.
Proof.
  unfold assign_values, getitem at 1.
  destruct (lookup est p) as [e|]; [|reflexivity]. cbn [bind ret].
  unfold getitem. now rewrite lookup_setitem_eq.
Qed.

Lemma store_calibrate_assign_value u d h p w :
  Store.calibrate_assign u d h (p, w) =
  match lookup d p with
  | Some l =>
      match Store.read_record h l with
      | inr e =>
          inr (Store.write
                 (Store.write h l (Store.ORecord (set_spill e (u * w)))) l
                 (Store.ORecord (set_demand (set_spill e (u * w)) (u * w))))
      | inl x => inl x
      end
  | None => inl KeyError
  end.
Proof.
  unfold Store.calibrate_assign, getitem.
  destruct (lookup d p) as [l|]; [|reflexivity]. cbn [bind ret].
  destruct (Store.read_record h l) as [x|e] eqn:He; [reflexivity|].
  cbn [bind].
  assert (Hr : Store.read_record
                 (Store.write h l (Store.ORecord (set_spill e (u * w)))) l
               = inr (set_spill e (u * w))).
  { apply read_record_inr. apply nth_error_write_eq.
    now apply read_record_valid in He. }
  now rewrite Hr.
Qed.

(** The last loop on the store computes the last loop on values, and writes
    to inner dicts of the mapping only. *)
Lemma store_calibrate_loop u d (ws : dict R) : forall h est,
  NoDup (values d) ->
  Store.contents h d = inr est ->
  match for_each (assign_values u) ws est with
  | inl x => for_each (Store.calibrate_assign u d) ws h = inl x
  | inr est' =>
      exists h',
        for_each (Store.calibrate_assign u d) ws h = inr h'
        /\ Store.contents h' d = inr est'
        /\ List.length h' = List.length h
        /\ forall l0, ~ In l0 (values d) -> nth_error h' l0 = nth_error h l0
  end.
Proof.
  induction ws as [|[p w] ws IH]; intros h est Hnd Hc.
  - cbn. exists h. auto.
  - cbn [for_each].
    rewrite assign_values_eq, store_calibrate_assign_value.
    pose proof (contents_lookup h d est p Hc) as Hp.
    destruct (lookup d p) as [l|] eqn:El.
    + destruct Hp as [e [He Hlk]]. rewrite Hlk, He. cbn [bind].
      pose proof (contents_write h d est p l (set_spill e (u * w)) Hnd Hc El)
        as Hc1.
      pose proof (contents_write _ d _ p l
                    (set_demand (set_spill e (u * w)) (u * w)) Hnd Hc1 El)
        as Hc2.
      specialize (IH _ _ Hnd Hc2).
      destruct (for_each (assign_values u) ws _) as [x|est']; [exact IH|].
      destruct IH as [h' [Hrun [Hc' [Hlen Hframe]]]].
      exists h'. split; [exact Hrun|]. split; [exact Hc'|]. split.
      * now rewrite Hlen, !length_write.
      * intros l0 Hl0. rewrite (Hframe l0 Hl0).
        assert (Hne : l <> l0).
        { intros ->. apply Hl0. now apply lookup_In_values in El. }
        now rewrite !nth_error_write_neq by assumption.
    + rewrite Hp. reflexivity.
Qed.

Lemma contents_records h d est :
  Store.contents h d = inr est ->
  forall l, In l (values d) -> exists e, nth_error h l = Some (Store.ORecord e).
Proof.
  revert est. induction d as [|[k l] d IH]; intros est H l0 Hl0.
  - contradiction.
  - apply contents_inv in H. destruct H as [e [es [He [Hes ->]]]].
    destruct Hl0 as [<-|Hl0]; [|eauto].
    exists e. now apply read_record_inr.
Qed.

Lemma read_dict_inr h l d :
  Store.read_dict h l = inr d <-> nth_error h l = Some (Store.ODict d).
Proof.
  unfold Store.read_dict, ret, raise.
  destruct (nth_error h l) as [[d'|e]|]; split; congruence.
Qed.

(** On a mapping with one inner dict per key the run on the store
    computes [calibrate_values]: it stops as [calibrate_values] stops, and
    otherwise returns a reference to a mapping that holds the value
    [calibrate_values] returns, in a store whose objects from before the
    call are all as they were. *)
Lemma calibrate_refines {kd} h r est observed availability probs hs :
  Store.denotes h r est ->
  match calibrate_values kd est observed availability probs hs with
  | inl x =>
      Store.calibrate_no_booking kd h r observed availability probs hs = inl x
  | inr est' =>
      exists h' r',
        Store.calibrate_no_booking kd h r observed availability probs hs
        = inr (h', r')
        /\ Store.denotes h' r' est'
        /\ forall l, (l < List.length h)%nat -> nth_error h' l = nth_error h l
  end.
Proof.
  intros Hden.
  destruct (deepcopy_denotes h r est Hden)
    as [c [Hcopy [Hrd [Hc [Hk [Hnd Hnew]]]]]]. cbv zeta in Hcopy, Hrd, Hc.
  set (h1 := h ++ map Store.ORecord (values est)) in *.
  set (h2 := h1 ++ [Store.ODict c]) in *.
  assert (Hold : forall l, (l < List.length h)%nat ->
                           nth_error h2 l = nth_error h l).
  { intros l Hl. unfold h2, h1. rewrite <- app_assoc.
    now apply nth_error_app1. }
  unfold Store.calibrate_no_booking, calibrate_values.
  rewrite Hcopy. cbn [bind]. rewrite Hrd. cbn [bind].
  rewrite (contents_spills _ _ _ Hc). cbn [bind]. rewrite <- Hk.
  destruct (gtb (hs - sum (map spill (values est))) 0).
  - destruct (comprehension _ (filter _ (keys c))) as [x|ws]; cbn [bind];
      [reflexivity|].
    destruct (comprehension _ ws) as [x|ws']; cbn [bind]; [reflexivity|].
    pose proof (store_calibrate_loop
                  (hs - sum (map spill (values est))) c ws' h2 est Hnd Hc)
      as Hloop.
    destruct (for_each (assign_values _) ws' est) as [x|est'].
    + now rewrite Hloop.
    + destruct Hloop as [h' [Hrun [Hc' [Hlen Hframe]]]].
      rewrite Hrun. cbn [bind ret].
      exists h', (List.length h1). split; [reflexivity|]. split.
      * exists c. split; [|split; assumption].
        apply read_dict_inr. rewrite Hframe; [now apply read_dict_inr|].
        intros Hin. destruct (contents_records _ _ _ Hc _ Hin) as [e He].
        apply read_dict_inr in Hrd. congruence.
      * intros l Hl. rewrite Hframe; [now apply Hold|].
        intros Hin. apply Hnew in Hin. lia.
  - cbn [ret]. exists h2, (List.length h1). split; [reflexivity|].
    split; [|exact Hold]. exists c. auto.
Qed.

(** The caller's reference still holds the caller's mapping in a store
    that agrees with the old one on the old addresses. *)
Lemma denotes_frame h h' r est :
  Store.denotes h r est ->
  (forall l, (l < List.length h)%nat -> nth_error h' l = nth_error h l) ->
  Store.denotes h' r est.
Proof.
  intros [d [Hd [Hc Hnd]]] Hframe. exists d.
  split; [|split; [|exact Hnd]].
  - apply read_dict_inr. apply read_dict_inr in Hd. rewrite Hframe; [exact Hd|].
    apply nth_error_Some. congruence.
  - rewrite <- Hc. apply contents_agree. intros l Hl. apply Hframe.
    exact (contents_valid _ _ _ Hc l Hl).
Qed.

(** *** The frame of the run on the store, sharing or not *)

Lemma deepcopy_entries_extends d : forall h memo n h' c,
  (n <= List.length h)%nat ->
  (forall a b, Store.memo_get memo a = Some b -> (n <= b)%nat) ->
  Store.deepcopy_entries h memo d = inr (h', c) ->
  (exists t, h' = h ++ t)
  /\ forall l, In l (values c) -> (n <= l)%nat.
Proof.
  induction d as [|[k l] d IH]; intros h memo n h' c Hn Hmemo H.
  - injection H as <- <-. split; [exists []; now rewrite app_nil_r|].
    intros l [].
  - cbn [Store.deepcopy_entries] in H.
    destruct (Store.memo_get memo l) as [l'|] eqn:Em.
    + destruct (Store.deepcopy_entries h memo d) as [x|[h1 c1]] eqn:Ed;
        cbn [bind ret] in H; [discriminate|].
      injection H as <- <-.
      destruct (IH _ _ _ _ _ Hn Hmemo Ed) as [Hext Hc]. split; [exact Hext|].
      intros l0 [<-|Hl0]; [now apply (Hmemo l) | now apply Hc].
    + destruct (Store.read_record h l) as [x|e]; cbn [bind] in H;
        [discriminate|].
      destruct (Store.deepcopy_entries (h ++ [Store.ORecord e])
                  ((l, List.length h) :: memo) d) as [x|[h1 c1]] eqn:Ed;
        cbn [bind ret] in H; [discriminate|].
      injection H as <- <-.
      assert (Hn' : (n <= List.length (h ++ [Store.ORecord e]))%nat)
        by (rewrite length_app; lia).
      assert (Hmemo' : forall a b,
                 Store.memo_get ((l, List.length h) :: memo) a = Some b ->
                 (n <= b)%nat).
      { intros a b. cbn [Store.memo_get]. destruct (Nat.eqb a l).
        - intros [= <-]. exact Hn.
        - apply Hmemo. }
      destruct (IH _ _ n _ _ Hn' Hmemo' Ed) as [[t ->] Hc].
      split; [exists (Store.ORecord e :: t); now rewrite <- app_assoc|].
      intros l0 [<-|Hl0]; [exact Hn | now apply Hc].
Qed.

Lemma store_calibrate_loop_frame u d (ws : dict R) : forall h h',
  for_each (Store.calibrate_assign u d) ws h = inr h' ->
  forall l0, ~ In l0 (values d) -> nth_error h' l0 = nth_error h l0.
Proof.
  induction ws as [|[p w] ws IH]; intros h h' H l0 Hl0.
  - now injection H as <-.
  - cbn [for_each] in H. rewrite store_calibrate_assign_value in H.
    destruct (lookup d p) as [l|] eqn:El; [|discriminate].
    destruct (Store.read_record h l) as [x|e]; [discriminate|].
    cbn [bind] in H. rewrite (IH _ _ H l0 Hl0).
    assert (Hne : l <> l0).
    { intros ->. apply Hl0. now apply lookup_In_values in El. }
    now rewrite !nth_error_write_neq by assumption.
Qed.

(** No run of [calibrate_no_booking] writes to an object that was there
    before the call. *)
Lemma store_calibrate_frame {kd} h r observed availability probs hs h' r' :
  Store.calibrate_no_booking kd h r observed availability probs hs
  = inr (h', r') ->
  forall l, (l < List.length h)%nat -> nth_error h' l = nth_error h l.
Proof.
  unfold Store.calibrate_no_booking, Store.deepcopy.
  destruct (Store.read_dict h r) as [x|d]; cbn [bind]; [discriminate|].
  destruct (Store.deepcopy_entries h [] d) as [x|[h1 c]] eqn:Ed;
    cbn [bind ret]; [discriminate|].
  destruct (deepcopy_entries_extends d h [] (List.length h) h1 c
              (le_n _) ltac:(discriminate) Ed) as [[t ->] Hnew].
  assert (Hold : forall l, (l < List.length h)%nat ->
                   nth_error ((h ++ t) ++ [Store.ODict c]) l = nth_error h l).
  { intros l Hl. rewrite <- app_assoc. now apply nth_error_app1. }
  unfold Store.read_dict at 1. rewrite nth_error_app2 by lia.
  rewrite Nat.sub_diag. cbn [nth_error ret bind].
  destruct (comprehension _ (values c)) as [x|spills]; cbn [bind];
    [discriminate|].
  destruct (gtb _ 0).
  - destruct (comprehension _ (filter _ (keys c))) as [x|ws]; cbn [bind];
      [discriminate|].
    destruct (comprehension _ ws) as [x|ws']; cbn [bind]; [discriminate|].
    destruct (for_each _ ws' _) as [x|h2] eqn:El; cbn [bind ret];
      [discriminate|].
    intros [= <- <-] l Hl.
    rewrite (store_calibrate_loop_frame _ _ _ _ _ El); [now apply Hold|].
    intros Hin. apply Hnew in Hin. lia.
  - intros [= <- <-]. exact Hold.
Qed.

(** C8 (amended).  No run of [calibrate_no_booking] writes to the caller's
    mapping: every object of the store from before the call, the caller's
    mapping and its inner dicts among them, is unchanged after it.  And on
    a mapping whose keys hold distinct inner dicts the entry of every
    product with non-zero observed demand is left as it was: in the mapping
    the call returns, the entry of such a key is the entry of the input
    mapping. *)
Theorem calibrate_no_booking_frame_effect {kd}
  h r observed availability probs host_spill h' r' :
  Store.calibrate_no_booking kd h r observed availability probs host_spill
  = inr (h', r') ->
  (forall l, (l < List.length h)%nat -> nth_error h' l = nth_error h l)
  /\ forall est,
       Store.denotes h r est -> wf est ->
       Store.denotes h' r est
       /\ exists est',
            Store.denotes h' r' est'
            /\ calibrate_values kd est observed availability probs host_spill
               = inr est'
            /\ forall k, get observed k 0 <> 0 ->
                         lookup est' k = lookup est k.
Proof.
  intros Hrun.
  pose proof (store_calibrate_frame _ _ _ _ _ _ _ _ Hrun) as Hframe.
  split; [exact Hframe|].
  intros est Hden Hwf. split; [now apply denotes_frame with h|].
  pose proof (calibrate_refines (kd:=kd) h r est observed availability probs
                host_spill Hden) as Href.
  destruct (calibrate_values kd est observed availability probs host_spill)
    as [x|est'] eqn:Epure.
  - rewrite Href in Hrun. discriminate.
  - destruct Href as [h'' [r'' [Hrun' [Hden' _]]]].
    rewrite Hrun' in Hrun. injection Hrun as -> ->.
    exists est'. split; [exact Hden'|]. split; [reflexivity|].
    intros k Hk.
    now apply (calibrate_values_frame _ _ _ _ _ _ k Hwf Epure).
Qed.

Lemma calibrate_no_booking_frame_effect_witness :
  let h := [Store.ORecord (Estimate 10 2 0); Store.ORecord (Estimate 0 0 0);
            Store.ODict [("A", 0%nat); ("B", 1%nat)]] in
  let est := [("A", Estimate 10 2 0); ("B", Estimate 0 0 0)] in
  let observed := [("A", 10)] in
  let availability := [("A", 4/5); ("B", 1/2)] in
  let probs := [("A", 3/10); ("B", 1/5)] in
  exists h' r' est',
    Store.calibrate_no_booking PyFloat h 2%nat observed availability probs 5
    = inr (h', r')
    /\ Store.denotes h' r' est'
    /\ lookup est' "A" = lookup est "A"
    /\ (forall l, (l < 3)%nat -> nth_error h' l = nth_error h l)
    /\ Store.denotes h' 2%nat est.
Proof.
  cbv zeta.
  set (h := [Store.ORecord (Estimate 10 2 0); Store.ORecord (Estimate 0 0 0);
             Store.ODict [("A", 0%nat); ("B", 1%nat)]]).
  set (est := [("A", Estimate 10 2 0); ("B", Estimate 0 0 0)]).
  set (observed := [("A", 10)]).
  set (availability := [("A", 4/5); ("B", 1/2)]).
  set (probs := [("A", 3/10); ("B", 1/5)]).
  assert (Hden : Store.denotes h 2%nat est).
  { exists [("A", 0%nat); ("B", 1%nat)]. repeat split.
    unfold values. cbn [map snd].
    repeat (constructor; [cbn [In]; lia|]). constructor. }
  assert (Hwf : wf est) by (subst est; wf_dict).
  assert (Hu : unaccounted est 5 > 0).
  { unfold unaccounted, est. eval_sum. }
  assert (Hnb : no_booking observed est = ["B"]).
  { unfold no_booking, keys, get, est, observed. eval_dict.
    decide_tests. reflexivity. }
  assert (HW : total_weight est observed availability probs <> 0).
  { unfold total_weight. rewrite Hnb. unfold weight, get, probs, availability.
    eval_dict. rewrite sum_cons, sum_nil. lra. }
  assert (Hpure :
    calibrate_values PyFloat est observed availability probs 5
    = inr (redistributed est observed availability probs 5)).
  { apply calibrate_values_redistributes; try assumption.
    - rewrite Hnb. constructor; [|constructor]. unfold probs, keys. cbn. auto.
    - now right. }
  pose proof (calibrate_refines (kd:=PyFloat) h 2%nat est observed
                availability probs 5 Hden) as Href.
  rewrite Hpure in Href. destruct Href as [h' [r' [Hrun _]]].
  destruct (calibrate_no_booking_frame_effect
              h 2%nat observed availability probs 5 h' r' Hrun)
    as [Hframe Hval].
  destruct (Hval est Hden Hwf) as [Hcaller [est' [Hden' [_ Hkeep]]]].
  exists h', r', est'. split; [exact Hrun|]. split; [exact Hden'|].
  split; [|split; [exact Hframe | exact Hcaller]].
  apply Hkeep. unfold observed, get. eval_dict. lra.
Defined.

(** C8, as stated, fails on a mapping that holds one inner dict under two
    keys: [deepcopy] keeps the sharing of the mapping it copies, so the
    assignment for the key without bookings (B) shows under the key with
    bookings (A) too, in the returned mapping.  The caller's mapping is
    unchanged all the same. *)
Lemma calibrate_no_booking_shared_inner_dict :
  let h := [Store.ORecord (Estimate 10 2 0);
            Store.ODict [("A", 0%nat); ("B", 0%nat)]] in
  get [("A", 10)] "A" 0 <> 0
  /\ Store.contents h [("A", 0%nat); ("B", 0%nat)]
     = inr [("A", Estimate 10 2 0); ("B", Estimate 10 2 0)]
  /\ exists h' r' d,
       Store.calibrate_no_booking PyFloat h 1%nat [("A", 10)] [("B", 1/2)]
         [("A", 3/10); ("B", 1/5)] 5 = inr (h', r')
       /\ Store.read_dict h' r' = inr d
       /\ Store.contents h' d
          = inr [("A", Estimate 1 1 0); ("B", Estimate 1 1 0)]
       /\ Store.contents h' [("A", 0%nat); ("B", 0%nat)]
          = inr [("A", Estimate 10 2 0); ("B", Estimate 10 2 0)].
Proof.
  cbv zeta. split; [unfold get; eval_dict; lra|]. split; [reflexivity|].
  unfold Store.calibrate_no_booking, Store.deepcopy.
  cbn [Store.read_dict nth_error bind ret Store.deepcopy_entries
       Store.memo_get Store.read_record Nat.eqb List.length app].
  cbn [values map snd comprehension Store.read_record nth_error bind ret spill].
  rewrite !sum_cons, sum_nil.
  decide_tests.
  unfold get. cbn [keys map fst filter lookup String.eqb Ascii.eqb Bool.eqb].
  decide_tests.
  cbn [comprehension getitem lookup String.eqb Ascii.eqb Bool.eqb bind ret
       values map snd].
  rewrite !sum_cons, sum_nil.
  rewrite div_ok by lra.
  cbn [bind ret comprehension for_each].
  rewrite store_calibrate_assign_value.
  cbn [lookup String.eqb Ascii.eqb Bool.eqb Store.read_record nth_error
       Store.write bind ret set_spill set_demand demand spill recapture].
  do 3 eexists. split; [reflexivity|].
  cbn [Store.read_dict nth_error ret]. split; [reflexivity|].
  cbn [Store.contents Store.read_record nth_error bind ret].
  split; [|reflexivity].
  replace ((5 - (2 + (2 + 0))) * (1 / 5 * (1 - 1 / 2) /
             (1 / 5 * (1 - 1 / 2) + 0))) with 1 by field.
  reflexivity.
Qed.


(** ** The run on the store, on any mapping *)

Lemma denotes_holds h r est : Store.denotes h r est -> Store.holds h r est.
Proof. intros [d [Hd [Hc _]]]. exists d. now split. Qed.

Lemma read_record_app h t l e :
  Store.read_record h l = inr e -> Store.read_record (h ++ t) l = inr e.
Proof.
  intros H. apply read_record_inr.
  rewrite nth_error_app1 by (now apply read_record_valid in H).
  now apply read_record_inr.
Qed.

(** [deepcopy] of the entries of any mapping, two keys holding one inner
    dict or not: the copy has the keys and the value of the original. *)
Lemma deepcopy_entries_contents d : forall h memo est,
  Store.contents h d = inr est ->
  (forall a b, Store.memo_get memo a = Some b ->
     exists e, Store.read_record h a = inr e
               /\ Store.read_record h b = inr e) ->
  exists h' c,
    Store.deepcopy_entries h memo d = inr (h', c)
    /\ (exists t, h' = h ++ t)
    /\ keys c = keys d
    /\ Store.contents h' c = inr est.
Proof.
  induction d as [|[k l] d IH]; intros h memo est H Hmemo.
  - injection H as <-. exists h, []. cbn. split; [reflexivity|].
    split; [exists []; now rewrite app_nil_r|]. now split.
  - apply contents_inv in H. destruct H as [e [es [He [Hes ->]]]].
    cbn [Store.deepcopy_entries].
    destruct (Store.memo_get memo l) as [l'|] eqn:Em.
    + destruct (Hmemo _ _ Em) as [e' [Ha Hb]].
      rewrite He in Ha. injection Ha as <-.
      destruct (IH h memo es Hes Hmemo) as [h' [c [Hrun [[t ->] [Hk Hc]]]]].
      exists (h ++ t), ((k, l') :: c). rewrite Hrun. cbn [bind ret].
      split; [reflexivity|]. split; [now exists t|]. split.
      * unfold keys in *. cbn [map fst]. now rewrite Hk.
      * cbn [Store.contents]. rewrite (read_record_app _ t _ _ Hb).
        cbn [bind]. now rewrite Hc.
    + rewrite He. cbn [bind].
      destruct (IH (h ++ [Store.ORecord e]) ((l, List.length h) :: memo) es)
        as [h' [c [Hrun [[t ->] [Hk Hc]]]]].
      * now apply contents_app.
      * intros a b. cbn [Store.memo_get]. destruct (Nat.eqb a l) eqn:E.
        -- intros [= <-]. apply Nat.eqb_eq in E. subst a. exists e.
           split; [now apply read_record_app|].
           apply read_record_inr. rewrite nth_error_app2 by lia.
           now rewrite Nat.sub_diag.
        -- intros Hab. destruct (Hmemo _ _ Hab) as [e' [Ha Hb]].
           exists e'. split; now apply read_record_app.
      * exists ((h ++ [Store.ORecord e]) ++ t), ((k, List.length h) :: c).
        rewrite Hrun. cbn [bind ret].
        split; [reflexivity|].
        split; [exists (Store.ORecord e :: t); now rewrite <- app_assoc|].
        split.
        -- unfold keys in *. cbn [map fst]. now rewrite Hk.
        -- cbn [Store.contents].
           assert (Hr : Store.read_record ((h ++ [Store.ORecord e]) ++ t)
                          (List.length h) = inr e).
           { apply read_record_app. apply read_record_inr.
             rewrite nth_error_app2 by lia. now rewrite Nat.sub_diag. }
           rewrite Hr. cbn [bind]. now rewrite Hc.
Qed.

(** The run on the store after the copy, on any mapping of value [est]:
    the copy [c], at [r2] in [h2], has the value [est]; the sum of the
    spills, the products without bookings and the weights are those of
    [est]; the last loop writes to the inner dicts of [c]. *)
Lemma store_calibrate_run {kd} h r est observed availability probs hs :
  Store.holds h r est ->
  exists h2 r2 c,
    Store.read_dict h2 r2 = inr c
    /\ Store.contents h2 c = inr est
    /\ Store.calibrate_no_booking kd h r observed availability probs hs
       = if gtb (unaccounted est hs) 0 then
           weights <- comprehension
                        (fun p => pr <- getitem probs p ;;
                                  ret (p, pr * (1 - get availability p 0)))
                        (no_booking observed est) ;;
           weights' <- comprehension
                         (fun '(p, w) =>
                            w' <- div kd w (sum (values weights)) ;;
                            ret (p, w'))
                         weights ;;
           h3 <- for_each (Store.calibrate_assign (unaccounted est hs) c)
                   weights' h2 ;;
           ret (h3, r2)
         else ret (h2, r2).
Proof.
  intros [d [Hd Hc]].
  destruct (deepcopy_entries_contents d h [] est Hc)
    as [h1 [c [Hrun [_ [Hk Hc1]]]]]; [discriminate|].
  exists (h1 ++ [Store.ODict c]), (List.length h1), c.
  assert (Hrd : Store.read_dict (h1 ++ [Store.ODict c]) (List.length h1)
                = inr c).
  { apply read_dict_inr. rewrite nth_error_app2 by lia.
    now rewrite Nat.sub_diag. }
  assert (Hc2 : Store.contents (h1 ++ [Store.ODict c]) c = inr est)
    by now apply contents_app.
  split; [exact Hrd|]. split; [exact Hc2|].
  unfold Store.calibrate_no_booking, Store.deepcopy.
  rewrite Hd. cbn [bind]. rewrite Hrun. cbn [bind ret].
  rewrite Hrd. cbn [bind].
  rewrite (contents_spills _ _ _ Hc2). cbn [bind].
  unfold unaccounted, no_booking.
  now rewrite (contents_keys _ _ _ Hc2).
Qed.

(** Nothing to redistribute, or nobody to give it to: the copy is
    returned as it is. *)
Lemma store_calibrate_unchanged {kd} h r est observed availability probs hs :
  Store.holds h r est ->
  ~ unaccounted est hs > 0 \/ no_booking observed est = [] ->
  exists h' r',
    Store.calibrate_no_booking kd h r observed availability probs hs
    = inr (h', r')
    /\ Store.holds h' r' est.
Proof.
  intros Hh Hcase.
  destruct (store_calibrate_run (kd:=kd) h r est observed availability probs
              hs Hh) as [h2 [r2 [c [Hrd [Hc Hrun]]]]].
  exists h2, r2. split; [|exists c; now split].
  rewrite Hrun. destruct (gtb (unaccounted est hs) 0) eqn:Eg; [|reflexivity].
  destruct Hcase as [Hu|Hnil]; [apply gtb_true in Eg; contradiction|].
  rewrite Hnil. reflexivity.
Qed.

Lemma store_calibrate_KeyError {kd} h r est observed availability probs hs :
  Store.holds h r est ->
  unaccounted est hs > 0 ->
  ~ Forall (fun p => In p (keys probs)) (no_booking observed est) ->
  Store.calibrate_no_booking kd h r observed availability probs hs
  = inl KeyError.
Proof.
  intros Hh Hu Hin.
  destruct (store_calibrate_run (kd:=kd) h r est observed availability probs
              hs Hh) as [h2 [r2 [c [_ [_ Hrun]]]]].
  rewrite Hrun. apply gtb_true in Hu. rewrite Hu.
  now rewrite weights_KeyError.
Qed.


(** A mapping built from dict literals denotes its value. *)
Lemma contents_alloc (est : dict estimate) : forall h0 t,
  Store.contents (h0 ++ map Store.ORecord (values est) ++ t)
    (combine (keys est) (seq (List.length h0) (List.length est)))
  = inr est.
Proof.
  induction est as [|[k e] est IH]; intros h0 t; [reflexivity|].
  cbn [keys values map fst snd List.length seq combine Store.contents app].
  assert (Hr : Store.read_record
                 (h0 ++ Store.ORecord e
                    :: map Store.ORecord (map snd est) ++ t)
                 (List.length h0) = inr e).
  { apply read_record_inr. rewrite nth_error_app2 by lia.
    now rewrite Nat.sub_diag. }
  rewrite Hr. cbn [bind].
  specialize (IH (h0 ++ [Store.ORecord e]) t).
  rewrite <- app_assoc, length_app in IH. cbn [app List.length] in IH.
  rewrite Nat.add_1_r in IH. unfold keys, values in IH. now rewrite IH.
Qed.

Lemma values_combine {A B : Type} (l1 : list A) (l2 : list B) :
  List.length l1 = List.length l2 -> map snd (combine l1 l2) = l2.
Proof.
  revert l2. induction l1 as [|a l1 IH]; intros [|b l2]; cbn;
    try congruence; try reflexivity.
  intros [= H]. now rewrite IH.
Qed.

Lemma alloc_denotes (est : dict estimate) :
  Store.denotes (fst (Store.alloc est)) (snd (Store.alloc est)) est.
Proof.
  unfold Store.alloc. cbn [fst snd].
  exists (combine (keys est) (seq 0 (List.length est))). split; [|split].
  - apply read_dict_inr. rewrite nth_error_app2; rewrite length_map;
      unfold values; rewrite ?length_map; [|lia].
    now rewrite Nat.sub_diag.
  - exact (contents_alloc est [] _).
  - unfold values. rewrite values_combine.
    + apply seq_NoDup.
    + unfold keys. now rewrite length_map, length_seq.
Qed.

(** [estimate_class_level] calibrates a mapping it has built itself, one
    inner dict per key: the run on the store computes [calibrate_values]. *)
Lemma estimate_class_level_eq
  kd observed availability probs nofly_prob calibrate :
  estimate_class_level kd observed availability probs nofly_prob calibrate
  = (' (_, host_spill, host_recapture) <-
       estimate_host_level kd observed availability probs nofly_prob ;;
     estimates <- for_each
                    (class_level_step observed availability
                       (sum (values observed)) host_recapture)
                    (keys probs) [] ;;
     if calibrate
     then calibrate_values kd estimates observed availability probs
            host_spill
     else ret estimates).
Proof.
  unfold estimate_class_level.
  destruct (estimate_host_level _ _ _ _ _) as [x|[[hd hs] hr]];
    cbn [bind]; [reflexivity|].
  destruct (for_each _ _ _) as [x|est0]; cbn [bind]; [reflexivity|].
  destruct calibrate; [|reflexivity].
  pose proof (calibrate_refines (kd:=kd) _ _ est0 observed availability
                probs hs (alloc_denotes est0)) as Href.
  destruct (Store.alloc est0) as [h r]. cbn [fst snd] in Href.
  destruct (calibrate_values kd est0 observed availability probs hs)
    as [x|est'].
  - now rewrite Href.
  - destruct Href as [h' [r' [Hrun [[d [Hd [Hc _]]] _]]]].
    rewrite Hrun. cbn [bind]. rewrite Hd. cbn [bind]. exact Hc.
Qed.

(** *** Facts on the redistributed mapping *)

Lemma redistributed_entry estimates observed availability probs hs p e :
  lookup estimates p = Some e -> get observed p 0 = 0 ->
  lookup (redistributed estimates observed availability probs hs) p
  = Some (calibrated (unaccounted estimates hs)
            (weight probs availability p
             / total_weight estimates observed availability probs) e).
Proof.
  intros He Hz. rewrite lookup_redistributed, He. cbn [option_map].
  apply eqb_true in Hz. now rewrite Hz.
Qed.

(** The amounts given to the products without bookings add up to the
    unaccounted spill. *)
Lemma redistributed_amounts estimates observed availability probs hs :
  total_weight estimates observed availability probs <> 0 ->
  sum (map (fun p =>
              spill (get (redistributed estimates observed availability
                            probs hs) p (Estimate 0 0 0)))
         (no_booking observed estimates))
  = unaccounted estimates hs.
Proof.
  intros HW.
  set (u := unaccounted estimates hs).
  set (W := total_weight estimates observed availability probs) in *.
  rewrite (sum_map_ext _ (fun p => u * (weight probs availability p / W))).
  - rewrite sum_map_scale, sum_map_div.
    fold (total_weight estimates observed availability probs). fold W.
    field. exact HW.
  - intros p Hp. apply no_booking_In in Hp. destruct Hp as [Hk Hz].
    apply lookup_In_keys in Hk. destruct Hk as [e He].
    unfold get.
    now rewrite (redistributed_entry _ _ _ _ _ _ _ He Hz).
Qed.

(** A positive unaccounted spill, every product without bookings a key of
    [probs], weights that do not add up to zero, one inner dict per key: the
    run returns a mapping that holds the redistributed value. *)
Lemma store_calibrate_redistributes {kd}
  h r est observed availability probs hs :
  Store.denotes h r est -> wf est ->
  unaccounted est hs > 0 ->
  (forall p, In p (no_booking observed est) -> In p (keys probs)) ->
  total_weight est observed availability probs <> 0 ->
  exists h' r',
    Store.calibrate_no_booking kd h r observed availability probs hs
    = inr (h', r')
    /\ Store.denotes h' r'
         (redistributed est observed availability probs hs).
Proof.
  intros Hden Hwf Hu Hin HW.
  pose proof (calibrate_refines (kd:=kd) h r est observed availability probs
                hs Hden) as Href.
  rewrite calibrate_values_redistributes in Href; try assumption.
  - destruct Href as [h' [r' [Hrun [Hden' _]]]]. eauto.
  - now apply Forall_forall.
  - now right.
Qed.

(** *** The stores of the examples *)

Lemma example_denotes :
  Store.denotes
    [Store.ORecord (Estimate 10 2 0); Store.ORecord (Estimate 0 0 0);
     Store.ODict [("A", 0%nat); ("B", 1%nat)]] 2%nat
    [("A", Estimate 10 2 0); ("B", Estimate 0 0 0)].
Proof.
  exists [("A", 0%nat); ("B", 1%nat)]. repeat split.
  unfold values. cbn [map snd].
  repeat (constructor; [cbn [In]; lia|]). constructor.
Qed.

Lemma example_no_booking :
  no_booking [("A", 10)] [("A", Estimate 10 2 0); ("B", Estimate 0 0 0)]
  = ["B"].
Proof.
  unfold no_booking, keys, get. eval_dict. decide_tests. reflexivity.
Qed.

Lemma example_total_weight :
  total_weight [("A", Estimate 10 2 0); ("B", Estimate 0 0 0)] [("A", 10)]
    [("A", 4/5); ("B", 1/2)] [("A", 3/10); ("B", 1/5)]
  = 1/10.
Proof.
  unfold total_weight. rewrite example_no_booking. unfold weight, get.
  eval_dict. rewrite sum_cons, sum_nil. lra.
Qed.

Lemma example_unaccounted :
  unaccounted [("A", Estimate 10 2 0); ("B", Estimate 0 0 0)] 5 = 3.
Proof. unfold unaccounted. eval_sum. Qed.

(** ** Calibration: conservation (C4) *)

(** C4, as stated, fails: with a positive unaccounted spill and no product
    without bookings the call returns a copy of the mapping as it came, and
    its spills do not add up to the host spill. *)
Lemma calibrate_no_booking_conservation_fails :
  let h := [Store.ORecord (Estimate 10 2 0); Store.ODict [("A", 0%nat)]] in
  let est := [("A", Estimate 10 2 0)] in
  Store.denotes h 1%nat est
  /\ unaccounted est 5 > 0
  /\ sum (map spill (values est)) <> 5
  /\ exists h' r',
       Store.calibrate_no_booking PyFloat h 1%nat [("A", 10)] [("A", 4/5)]
         [("A", 3/10)] 5 = inr (h', r')
       /\ Store.holds h' r' est.
Proof.
  cbv zeta.
  assert (Hden : Store.denotes
                   [Store.ORecord (Estimate 10 2 0);
                    Store.ODict [("A", 0%nat)]] 1%nat
                   [("A", Estimate 10 2 0)]).
  { exists [("A", 0%nat)]. repeat split. unfold values. cbn [map snd].
    constructor; [intros []|constructor]. }
  split; [exact Hden|].
  split; [unfold unaccounted; eval_sum|].
  split; [eval_sum|].
  apply store_calibrate_unchanged; [now apply denotes_holds|].
  right. unfold no_booking, keys, get. eval_dict. decide_tests. reflexivity.
Qed.

(** C4 (amended).  On a mapping whose keys hold distinct inner dicts, when
    the unaccounted spill is positive, every product without observed
    bookings is a key of [probs], their weights do not add up to zero (so
    there is such a product) and they carry no spill yet (as in the mapping
    [estimate_class_level] passes), the call returns and the spills of the
    returned mapping add up to the host spill.  On any mapping, when the
    unaccounted spill is not positive the call returns a mapping of the
    same value, entry for entry. *)
Theorem calibrate_no_booking_conservation {kd}
  h r est observed availability probs host_spill :
  Store.holds h r est -> wf est ->
  (Store.denotes h r est ->
   unaccounted est host_spill > 0 ->
   (forall p, In p (no_booking observed est) -> In p (keys probs)) ->
   total_weight est observed availability probs <> 0 ->
   (forall p e, In (p, e) est -> get observed p 0 = 0 -> spill e = 0) ->
   exists h' r' est',
     Store.calibrate_no_booking kd h r observed availability probs
       host_spill = inr (h', r')
     /\ Store.denotes h' r' est'
     /\ sum (map spill (values est')) = host_spill)
  /\ (unaccounted est host_spill <= 0 ->
      exists h' r',
        Store.calibrate_no_booking kd h r observed availability probs
          host_spill = inr (h', r')
        /\ Store.holds h' r' est).
Proof.
  intros Hh Hwf. split.
  - intros Hden Hu Hin HW Hz.
    destruct (store_calibrate_redistributes (kd:=kd) h r est observed
                availability probs host_spill Hden Hwf Hu Hin HW)
      as [h' [r' [Hrun Hden']]].
    exists h', r', (redistributed est observed availability probs host_spill).
    split; [exact Hrun|]. split; [exact Hden'|].
    now apply redistributed_spill.
  - intros Hle. apply store_calibrate_unchanged; [exact Hh|]. left. lra.
Qed.

Lemma calibrate_no_booking_conservation_witness :
  exists h' r' est',
    Store.calibrate_no_booking PyFloat
      [Store.ORecord (Estimate 10 2 0); Store.ORecord (Estimate 0 0 0);
       Store.ODict [("A", 0%nat); ("B", 1%nat)]] 2%nat
      [("A", 10)] [("A", 4/5); ("B", 1/2)] [("A", 3/10); ("B", 1/5)] 5
    = inr (h', r')
    /\ Store.denotes h' r' est'
    /\ sum (map spill (values est')) = 5.
Proof.
  refine (proj1 (calibrate_no_booking_conservation (kd:=PyFloat)
                   _ _ [("A", Estimate 10 2 0); ("B", Estimate 0 0 0)]
                   [("A", 10)] [("A", 4/5); ("B", 1/2)]
                   [("A", 3/10); ("B", 1/5)] 5
                   (denotes_holds _ _ _ example_denotes) _)
            example_denotes _ _ _ _).
  - wf_dict.
  - rewrite example_unaccounted. lra.
  - rewrite example_no_booking. intros p [<-|[]]. unfold keys. cbn. auto.
  - rewrite example_total_weight. lra.
  - intros p e [[= <- <-]|[[= <- <-]|[]]]; [|reflexivity].
    unfold get. eval_dict. lra.
Defined.

(** ** Calibration: weighting (C5) *)

(** C5, as stated, fails on a mapping that holds one inner dict under two
    keys without bookings: both assignments of the last loop write to the
    one copy [deepcopy] made of it, and the second overwrites the first.
    Of the unaccounted spill 4, product A should receive 3 and product B 1;
    the returned mapping has spill 1 under both keys. *)
Lemma calibrate_no_booking_weighting_shared :
  let h := [Store.ORecord (Estimate 0 0 0);
            Store.ODict [("A", 0%nat); ("B", 0%nat)]] in
  let est := [("A", Estimate 0 0 0); ("B", Estimate 0 0 0)] in
  let probs := [("A", 3/10); ("B", 1/10)] in
  Store.holds h 1%nat est
  /\ unaccounted est 4
     * (weight probs [] "A" / total_weight est [] [] probs) = 3
  /\ exists h' r',
       Store.calibrate_no_booking PyFloat h 1%nat [] [] probs 4
       = inr (h', r')
       /\ Store.holds h' r'
            [("A", Estimate 1 1 0); ("B", Estimate 1 1 0)].
Proof.
  cbv zeta. split; [|split].
  - exists [("A", 0%nat); ("B", 0%nat)]. split; reflexivity.
  - unfold unaccounted, total_weight, no_booking, weight, keys, get.
    eval_dict. decide_tests. eval_dict.
    unfold values. cbn [map snd spill]. rewrite !sum_cons, !sum_nil. field.
  - unfold Store.calibrate_no_booking, Store.deepcopy.
    cbn [Store.read_dict nth_error bind ret Store.deepcopy_entries
         Store.memo_get Store.read_record Nat.eqb List.length app].
    cbn [values map snd comprehension Store.read_record nth_error bind ret
         spill].
    rewrite !sum_cons, sum_nil.
    decide_tests.
    unfold get. cbn [keys map fst filter lookup String.eqb Ascii.eqb Bool.eqb].
    decide_tests.
    cbn [comprehension getitem lookup String.eqb Ascii.eqb Bool.eqb bind ret
         values map snd filter].
    rewrite !sum_cons, sum_nil.
    rewrite !div_ok by lra.
    cbn [bind ret comprehension for_each].
    rewrite !store_calibrate_assign_value.
    cbn [lookup String.eqb Ascii.eqb Bool.eqb Store.read_record nth_error
         Store.write bind ret set_spill set_demand demand spill recapture
         for_each].
    rewrite !store_calibrate_assign_value.
    cbn [lookup String.eqb Ascii.eqb Bool.eqb Store.read_record nth_error
         Store.write bind ret set_spill set_demand demand spill recapture
         for_each].
    do 2 eexists. split; [reflexivity|].
    exists [("A", 2%nat); ("B", 2%nat)]. split; [reflexivity|].
    cbn [Store.contents Store.read_record nth_error bind ret].
    unfold set_demand, set_spill. cbn [demand spill recapture].
    apply f_equal.
    replace ((4 - (0 + (0 + 0)))
             * (1 / 10 * (1 - 0) / (3 / 10 * (1 - 0) + (1 / 10 * (1 - 0) + 0))))
      with 1 by field.
    reflexivity.
Qed.

(** C5 (amended).  On a mapping whose keys hold distinct inner dicts, when
    the unaccounted spill is positive, every product without observed
    bookings is a key of [probs] and their weights do not add up to zero,
    [calibrate_no_booking] returns, and in the mapping it returns every
    product without observed bookings has as spill the unaccounted spill
    times its normalised weight [probs[p] * (1 - availability.get(p, 0))],
    its demand is the same amount and its recapture is as it was (so it
    remains 0); the amounts are the weights scaled by one factor, and they
    add up to the unaccounted spill. *)
Theorem calibrate_no_booking_weighting {kd}
  h r est observed availability probs host_spill :
  Store.denotes h r est -> wf est ->
  unaccounted est host_spill > 0 ->
  (forall p, In p (no_booking observed est) -> In p (keys probs)) ->
  total_weight est observed availability probs <> 0 ->
  let u := unaccounted est host_spill in
  let W := total_weight est observed availability probs in
  exists h' r' est',
    Store.calibrate_no_booking kd h r observed availability probs host_spill
    = inr (h', r')
    /\ Store.denotes h' r' est'
    /\ (forall p e,
          lookup est p = Some e -> get observed p 0 = 0 ->
          exists e',
            lookup est' p = Some e'
            /\ spill e' = u * (weight probs availability p / W)
            /\ spill e' = u / W * weight probs availability p
            /\ demand e' = spill e'
            /\ recapture e' = recapture e
            /\ (recapture e = 0 -> recapture e' = 0))
    /\ sum (map (fun p => spill (get est' p (Estimate 0 0 0)))
              (no_booking observed est)) = u.
Proof.
  intros Hden Hwf Hu Hin HW u W.
  destruct (store_calibrate_redistributes (kd:=kd) h r est observed
              availability probs host_spill Hden Hwf Hu Hin HW)
    as [h' [r' [Hrun Hden']]].
  exists h', r', (redistributed est observed availability probs host_spill).
  split; [exact Hrun|]. split; [exact Hden'|]. split.
  - intros p e He Hz.
    exists (calibrated u (weight probs availability p / W) e).
    split; [now apply redistributed_entry|].
    cbn [calibrated spill demand recapture].
    repeat split; try reflexivity; try tauto.
    unfold Rdiv. ring.
  - now apply redistributed_amounts.
Qed.

Lemma calibrate_no_booking_weighting_witness :
  exists h' r' est',
    Store.calibrate_no_booking PyFloat
      [Store.ORecord (Estimate 10 2 0); Store.ORecord (Estimate 0 0 0);
       Store.ODict [("A", 0%nat); ("B", 1%nat)]] 2%nat
      [("A", 10)] [("A", 4/5); ("B", 1/2)] [("A", 3/10); ("B", 1/5)] 5
    = inr (h', r')
    /\ Store.denotes h' r' est'
    /\ exists e', lookup est' "B" = Some e'
                  /\ spill e' = 3 /\ demand e' = 3 /\ recapture e' = 0.
Proof.
  destruct (calibrate_no_booking_weighting (kd:=PyFloat)
              _ _ [("A", Estimate 10 2 0); ("B", Estimate 0 0 0)]
              [("A", 10)] [("A", 4/5); ("B", 1/2)]
              [("A", 3/10); ("B", 1/5)] 5 example_denotes)
    as [h' [r' [est' [Hrun [Hden [Hentry _]]]]]].
  - wf_dict.
  - rewrite example_unaccounted. lra.
  - rewrite example_no_booking. intros p [<-|[]]. unfold keys. cbn. auto.
  - rewrite example_total_weight. lra.
  - exists h', r', est'. split; [exact Hrun|]. split; [exact Hden|].
    destruct (Hentry "B" (Estimate 0 0 0)) as [e' [He' [Hs [_ [Hd [Hr _]]]]]].
    + reflexivity.
    + reflexivity.
    + exists e'. rewrite example_unaccounted, example_total_weight in Hs.
      assert (Hw : weight [("A", 3/10); ("B", 1/5)]
                     [("A", 4/5); ("B", 1/2)] "B" = 1/10)
        by (unfold weight, get; eval_dict; lra).
      rewrite Hw in Hs. cbn [recapture] in Hr.
      split; [exact He'|]. repeat split; lra.
Defined.

(** ** Calibration: the zero divisor (C10) *)





(** ** The class-level estimate *)

Lemma for_each_ext {S A : Type} (f g : S -> A -> result S) l s :
  (forall s x, f s x = g s x) -> for_each f l s = for_each g l s.
Proof.
  intros H. revert s. induction l as [|x l IH]; intros s; cbn; [reflexivity|].
  rewrite H. destruct (g s x); cbn; auto.
Qed.

Lemma class_loop_store observed availability total hr l d :
  for_each (class_level_step observed availability total hr) l d =
  for_each (fun d p =>
              e <- class_level_entry observed availability total hr p ;;
              ret (setitem d p e)) l d.
Proof. apply for_each_ext. intros. apply class_level_step_entry. Qed.

Lemma class_level_entry_zero observed availability total hr p :
  get observed p 0 = 0 ->
  class_level_entry observed availability total hr p = inr (Estimate 0 0 0).
Proof.
  intros Hz. unfold class_level_entry. rewrite Hz.
  replace (gtb 0 0) with false by (symmetry; apply gtb_false; lra).
  rewrite andb_false_r.
  replace (truthy 0) with false by (symmetry; now apply truthy_false).
  reflexivity.
Qed.

Lemma class_level_entry_invalid observed availability total hr p :
  get availability p 0 = 0 -> get observed p 0 > 0 ->
  class_level_entry observed availability total hr p
  = inl InvalidInputParameters.
Proof.
  intros Ha Ho. unfold class_level_entry.
  apply eqb_true in Ha. apply gtb_true in Ho. now rewrite Ha, Ho.
Qed.

Lemma class_level_entry_booked observed availability total hr p :
  get observed p 0 <> 0 -> get availability p 0 <> 0 -> total <> 0 ->
  class_level_entry observed availability total hr p =
  inr (Estimate
         ((get observed p 0 - hr * get observed p 0 / total)
            / get availability p 0)
         ((1 - get availability p 0)
            * (get observed p 0 - hr * get observed p 0 / total)
            / get availability p 0)
         (hr * get observed p 0 / total)).
Proof.
  intros Ho Ha Ht. unfold class_level_entry.
  apply eqb_false in Ha. rewrite Ha. cbn [andb].
  apply truthy_true in Ho. rewrite Ho.
  apply truthy_true in Ho. apply eqb_false in Ha.
  now rewrite demand_mass_balance_c_closed.
Qed.

(** A stored entry of a product with observed demand solves the class-level
    balance. *)
Lemma class_level_entry_sound observed availability total hr p e :
  get observed p 0 <> 0 ->
  class_level_entry observed availability total hr p = inr e ->
  total <> 0
  /\ recapture e = hr * get observed p 0 / total
  /\ spill e = (1 - get availability p 0) * demand e
  /\ demand e - spill e = get observed p 0 - recapture e.
Proof.
  intros Ho. unfold class_level_entry.
  destruct (eqb _ 0 && gtb _ 0); [discriminate|].
  pose proof Ho as Ht. apply truthy_true in Ht. rewrite Ht.
  destruct (demand_mass_balance_c _ _ _ _ _) as [x|[[d s] r]] eqn:E;
    cbn; [discriminate|].
  intros [= <-]. cbn [demand spill recapture].
  now apply demand_mass_balance_c_sound in E.
Qed.

Lemma wf_setitem {V : Type} (d : dict V) k v : wf d -> wf (setitem d k v).
Proof.
  unfold wf. intros H.
  destruct (in_dec string_dec k (keys d)) as [Hin|Hin].
  - now rewrite keys_setitem_In.
  - rewrite keys_setitem_notin by assumption.
    apply NoDup_app; [assumption | repeat constructor; intros [] |].
    intros x Hx [<-|[]]. contradiction.
Qed.

Lemma class_loop_wf observed availability total hr l d d' :
  wf d ->
  for_each (class_level_step observed availability total hr) l d = inr d' ->
  wf d'.
Proof.
  revert d. induction l as [|q l IH]; intros d Hwf; cbn.
  - now intros [= <-].
  - rewrite class_level_step_entry.
    destruct (class_level_entry _ _ _ _ q) as [x|e]; cbn; [discriminate|].
    apply IH. now apply wf_setitem.
Qed.

(** The three stages of a returning run of [estimate_class_level]. *)
Lemma estimate_class_level_inr {kd}
  observed availability probs nofly calibrate est :
  estimate_class_level kd observed availability probs nofly calibrate
  = inr est ->
  exists hd hs hr est0,
    estimate_host_level kd observed availability probs nofly = inr (hd, hs, hr)
    /\ for_each
         (class_level_step observed availability (sum (values observed)) hr)
         (keys probs) [] = inr est0
    /\ (if calibrate
        then calibrate_values kd est0 observed availability probs hs = inr est
        else est = est0).
Proof.
  rewrite estimate_class_level_eq.
  destruct (estimate_host_level _ _ _ _ _) as [x|[[hd hs] hr]]; cbn;
    [discriminate|].
  destruct (for_each _ _ _) as [x|est0] eqn:E; cbn; [discriminate|].
  intros H. exists hd, hs, hr, est0.
  split; [reflexivity|]. split; [exact E|].
  destruct calibrate; [exact H | now injection H].
Qed.



(** The entry of a product of [probs] in the mapping before calibration. *)
Lemma class_loop_entry observed availability total hr l est0 p :
  for_each (class_level_step observed availability total hr) l [] = inr est0 ->
  In p l ->
  exists e, class_level_entry observed availability total hr p = inr e
            /\ lookup est0 p = Some e.
Proof.
  rewrite class_loop_store. intros H Hp.
  exact (proj1 (for_each_store_inr _ _ _ _ _ H) p Hp).
Qed.

(** ** The host-level estimate *)

Lemma estimate_host_level_empty {kd} observed availability nofly :
  estimate_host_level kd observed availability [] nofly = inr (0, 0, 0).
Proof. reflexivity. Qed.

Lemma estimate_host_level_closed {kd} observed availability probs nofly :
  probs <> [] ->
  prob_market_open availability probs nofly <> 0 ->
  nofly <> 1 ->
  estimate_host_level kd observed availability probs nofly =
  demand_mass_balance_h (sum (values observed))
    ((1 - prob_market_open availability probs nofly) / (1 - nofly))
    ((prob_market_open availability probs nofly - nofly)
       / prob_market_open availability probs nofly).
Proof.
  intros Hne Hp Hn. unfold estimate_host_level.
  destruct probs as [|x probs]; [congruence|].
  fold (prob_market_open availability (x :: probs) nofly).
  rewrite div_ok by assumption. cbn [bind ret].
  rewrite div_ok by lra. reflexivity.
Qed.

(** The value of a host-level run from the values of its steps. *)
Lemma estimate_host_level_value {kd}
  observed availability probs nofly pmo total c rr d s r :
  probs <> [] ->
  prob_market_open availability probs nofly = pmo ->
  sum (values observed) = total ->
  pmo <> 0 -> nofly <> 1 ->
  c = (1 - pmo) / (1 - nofly) ->
  rr = (pmo - nofly) / pmo ->
  1 - c + c * rr <> 0 ->
  d = total / (1 - c + c * rr) -> s = c * d -> r = rr * s ->
  estimate_host_level kd observed availability probs nofly = inr (d, s, r).
Proof.
  intros Hne Hp Ht Hp0 Hn -> -> Hdet -> -> ->.
  rewrite estimate_host_level_closed; rewrite ?Hp; try assumption.
  rewrite Ht, demand_mass_balance_h_closed by assumption.
  assert (Hn' : 1 - nofly <> 0) by lra.
  assert (Hnum : (1 - nofly - (1 - pmo)) * pmo + (1 - pmo) * (pmo - nofly)
                 <> 0).
  { intros H0. apply Hdet.
    replace (1 - (1 - pmo) / (1 - nofly)
             + (1 - pmo) / (1 - nofly) * ((pmo - nofly) / pmo))
      with (((1 - nofly - (1 - pmo)) * pmo + (1 - pmo) * (pmo - nofly))
            / ((1 - nofly) * pmo))
      by (field; split; assumption).
    rewrite H0. unfold Rdiv. ring. }
  apply f_equal. apply f_equal2; [apply f_equal2|]; field;
    repeat split; assumption.
Qed.

(** When no product of [probs] was ever open the host-level system is
    singular. *)
Lemma estimate_host_level_all_closed {kd} observed availability probs nofly :
  probs <> [] ->
  prob_market_open availability probs nofly = nofly ->
  nofly <> 0 -> nofly <> 1 ->
  estimate_host_level kd observed availability probs nofly = inl LinAlgError.
Proof.
  intros Hne Hp Hn0 Hn1.
  rewrite estimate_host_level_closed; rewrite ?Hp; try assumption.
  apply demand_mass_balance_h_singular. field. lra.
Qed.

(** The run of [estimate_class_level] from the values of its stages. *)
Lemma estimate_class_level_value {kd}
  observed availability probs nofly calibrate hd hs hr est0 :
  estimate_host_level kd observed availability probs nofly = inr (hd, hs, hr) ->
  for_each (fun d p =>
              e <- class_level_entry observed availability
                     (sum (values observed)) hr p ;;
              ret (setitem d p e)) (keys probs) [] = inr est0 ->
  estimate_class_level kd observed availability probs nofly calibrate =
  if calibrate
  then calibrate_values kd est0 observed availability probs hs
  else inr est0.
Proof.
  intros Hh Hl. rewrite estimate_class_level_eq, Hh. cbn [bind].
  rewrite class_loop_store, Hl. reflexivity.
Qed.

Lemma class_level_entry_value
  observed availability total hr p od a d s r :
  get observed p 0 = od -> get availability p 0 = a ->
  od <> 0 -> a <> 0 -> total <> 0 ->
  r = hr * od / total -> d = (od - r) / a -> s = (1 - a) * d ->
  class_level_entry observed availability total hr p
  = inr (Estimate d s r).
Proof.
  intros Ho Ha Hod Hna Ht -> -> ->.
  rewrite class_level_entry_booked; rewrite ?Ho, ?Ha; try assumption.
  apply f_equal. unfold Rdiv. f_equal; ring.
Qed.


(** *** The two-product scenario *)

Lemma scenario_host_level {kd} :
  estimate_host_level kd Scenario.observed Scenario.availability Scenario.probs
    Scenario.nofly_prob
  = inr (1175/11, 141/11, 6).
Proof.
  apply (estimate_host_level_value _ _ _ _ (47/50) 100 (3/25) (22/47));
    unfold Scenario.nofly_prob; try lra; try discriminate.
  - unfold prob_market_open, Scenario.probs, Scenario.availability, get.
    eval_dict. rewrite !sum_cons, sum_nil. lra.
  - unfold Scenario.observed. eval_sum.
Qed.

Lemma scenario_class_level {kd} calibrate :
  estimate_class_level kd Scenario.observed Scenario.availability Scenario.probs
    Scenario.nofly_prob calibrate
  = inr [("A", Estimate (235/2) (47/2) 6); ("B", Estimate 0 0 0)].
Proof.
  assert (Ht : sum (values Scenario.observed) = 100)
    by (unfold Scenario.observed; eval_sum).
  rewrite (estimate_class_level_value _ _ _ _ calibrate _ _ _
             [("A", Estimate (235/2) (47/2) 6); ("B", Estimate 0 0 0)]
             scenario_host_level).
  - destruct calibrate; [|reflexivity].
    apply calibrate_values_unchanged. unfold unaccounted. eval_sum.
  - rewrite Ht. unfold Scenario.probs. cbn [keys map fst for_each].
    rewrite (class_level_entry_value _ _ _ _ "A" 100 (4/5) (235/2) (47/2) 6);
      try lra; try (unfold Scenario.observed, Scenario.availability; eval_get).
    cbn [bind ret setitem].
    rewrite class_level_entry_zero
      by (unfold Scenario.observed; eval_get).
    reflexivity.
Qed.

(** *** The scenario with product B closed *)

Lemma closed_host_level {kd} :
  estimate_host_level kd Closed.observed Closed.availability Closed.probs
    Closed.nofly_prob
  = inr (925/6, 481/6, 26).
Proof.
  apply (estimate_host_level_value _ _ _ _ (37/50) 100 (13/25) (12/37));
    unfold Closed.nofly_prob; try lra; try discriminate.
  - unfold prob_market_open, Closed.probs, Closed.availability, get.
    eval_dict. rewrite !sum_cons, sum_nil. lra.
  - unfold Closed.observed. eval_sum.
Qed.

Lemma closed_class_level_uncalibrated {kd} :
  estimate_class_level kd Closed.observed Closed.availability Closed.probs
    Closed.nofly_prob false
  = inr [("A", Estimate (185/2) (37/2) 26); ("B", Estimate 0 0 0)].
Proof.
  assert (Ht : sum (values Closed.observed) = 100)
    by (unfold Closed.observed; eval_sum).
  rewrite (estimate_class_level_value _ _ _ _ false _ _ _
             [("A", Estimate (185/2) (37/2) 26); ("B", Estimate 0 0 0)]
             closed_host_level); [reflexivity|].
  rewrite Ht. unfold Closed.probs. cbn [keys map fst for_each].
  rewrite (class_level_entry_value _ _ _ _ "A" 100 (4/5) (185/2) (37/2) 26);
    try lra; try (unfold Closed.observed, Closed.availability; eval_get).
  cbn [bind ret setitem].
  rewrite class_level_entry_zero by (unfold Closed.observed; eval_get).
  reflexivity.
Qed.

Lemma closed_class_level_calibrated {kd} :
  estimate_class_level kd Closed.observed Closed.availability Closed.probs
    Closed.nofly_prob true
  = inr [("A", Estimate (185/2) (37/2) 26);
         ("B", Estimate (185/3) (185/3) 0)].
Proof.
  assert (Ht : sum (values Closed.observed) = 100)
    by (unfold Closed.observed; eval_sum).
  set (est0 := [("A", Estimate (185/2) (37/2) 26); ("B", Estimate 0 0 0)]).
  rewrite (estimate_class_level_value _ _ _ _ true _ _ _ est0
             closed_host_level).
  - assert (Hu : unaccounted est0 (481/6) = 185/3)
      by (unfold unaccounted, est0; eval_sum).
    assert (Hnb : no_booking Closed.observed est0 = ["B"]).
    { unfold no_booking, keys, get, est0, Closed.observed. eval_dict.
      decide_tests. reflexivity. }
    assert (Hw : weight Closed.probs Closed.availability "B" = 1/5).
    { unfold weight, get, Closed.probs, Closed.availability. eval_dict. lra. }
    assert (HW : total_weight est0 Closed.observed Closed.availability
                   Closed.probs = 1/5).
    { unfold total_weight. rewrite Hnb. cbn [map].
      rewrite Hw, sum_cons, sum_nil. lra. }
    rewrite calibrate_values_redistributes.
    + apply f_equal. unfold redistributed. rewrite Hu, HW.
      unfold est0, Closed.observed, get. eval_dict. decide_tests.
      rewrite Hw. unfold calibrated. cbn [recapture].
      replace (185 / 3 * (1 / 5 / (1 / 5))) with (185 / 3) by field.
      reflexivity.
    + unfold est0. wf_dict.
    + rewrite Hu. lra.
    + rewrite Hnb. constructor; [|constructor].
      unfold Closed.probs, keys. eval_dict. cbn [In]. auto.
    + right. rewrite HW. lra.
  - rewrite Ht. unfold Closed.probs. cbn [keys map fst for_each].
    rewrite (class_level_entry_value _ _ _ _ "A" 100 (4/5) (185/2) (37/2) 26);
      try lra; try (unfold Closed.observed, Closed.availability; eval_get).
    cbn [bind ret setitem].
    rewrite class_level_entry_zero by (unfold Closed.observed; eval_get).
    reflexivity.
Qed.

(** ** Class-level mass balance (C2) *)

Lemma wf_nil {V : Type} : wf (@nil (key * V)).
Proof. constructor. Qed.

(** The entry of a product with observed demand in a returned mapping. *)
Lemma estimate_class_level_booked {kd}
  observed availability probs nofly calibrate est hd hs hr p :
  estimate_class_level kd observed availability probs nofly calibrate
  = inr est ->
  estimate_host_level kd observed availability probs nofly = inr (hd, hs, hr) ->
  In p (keys probs) -> get observed p 0 <> 0 ->
  exists e,
    lookup est p = Some e
    /\ recapture e = hr * get observed p 0 / sum (values observed)
    /\ spill e = (1 - get availability p 0) * demand e
    /\ demand e - spill e = get observed p 0 - recapture e.
Proof.
  intros H Hh Hp Ho.
  apply estimate_class_level_inr in H.
  destruct H as [hd' [hs' [hr' [est0 [Hh' [Hl Hc]]]]]].
  rewrite Hh in Hh'. injection Hh' as <- <- <-.
  destruct (class_loop_entry _ _ _ _ _ _ _ Hl Hp) as [e [He Hlk]].
  exists e. split.
  - destruct calibrate; [|now subst].
    rewrite (calibrate_values_frame _ _ _ _ _ _ p
               (class_loop_wf _ _ _ _ _ _ _ wf_nil Hl) Hc Ho).
    exact Hlk.
  - now apply class_level_entry_sound in He.
Qed.

(** C2.  For a non-zero class demand and a solvable system (non-zero host
    demand to apportion the recapture by, non-singular 2x2 matrix)
    [demand_mass_balance_c] returns (d, s, recapture) with
    recapture = host_recapture * class_odemand / host_odemand,
    s = (1 - avail) * d and d - s = class_odemand - recapture; and every
    entry [estimate_class_level] returns for a product of [probs] with
    non-zero observed demand satisfies this balance, calibrated or not. *)
Theorem class_level_mass_balance {kd} :
  (forall host_odemand class_odemand avail host_recapture,
      class_odemand <> 0 -> host_odemand <> 0 ->
      det2 (class_matrix (1 - avail)) <> 0 ->
      exists d s r,
        demand_mass_balance_c kd host_odemand class_odemand avail host_recapture
        = inr (d, s, r)
        /\ r = host_recapture * class_odemand / host_odemand
        /\ s = (1 - avail) * d
        /\ d - s = class_odemand - r)
  /\ (forall observed availability probs nofly calibrate est hd hs hr p,
         estimate_class_level kd observed availability probs nofly calibrate
         = inr est ->
         estimate_host_level kd observed availability probs nofly
         = inr (hd, hs, hr) ->
         In p (keys probs) -> get observed p 0 <> 0 ->
         exists e,
           lookup est p = Some e
           /\ recapture e = hr * get observed p 0 / sum (values observed)
           /\ spill e = (1 - get availability p 0) * demand e
           /\ demand e - spill e = get observed p 0 - recapture e).
Proof.
  split.
  - intros ho co av hr Hc Hh Hd. rewrite det2_class_matrix in Hd.
    assert (Ha : av <> 0) by lra.
    pose proof (demand_mass_balance_c_closed (kd:=kd) ho co av hr Hc Hh Ha)
      as E.
    do 3 eexists. split; [exact E|].
    now apply demand_mass_balance_c_sound in E.
  - intros observed availability probs nofly calibrate est hd hs hr p.
    apply estimate_class_level_booked.
Qed.

Lemma class_level_mass_balance_witness :
  (exists d s r,
      demand_mass_balance_c PyFloat 100 100 (4/5) 6 = inr (d, s, r)
      /\ r = 6 * 100 / 100 /\ s = (1 - 4/5) * d /\ d - s = 100 - r)
  /\ (exists e,
         lookup [("A", Estimate (235/2) (47/2) 6); ("B", Estimate 0 0 0)] "A"
         = Some e
         /\ recapture e
            = 6 * get Scenario.observed "A" 0 / sum (values Scenario.observed)
         /\ spill e = (1 - get Scenario.availability "A" 0) * demand e
         /\ demand e - spill e = get Scenario.observed "A" 0 - recapture e).
Proof.
  split.
  - apply (proj1 (class_level_mass_balance (kd:=PyFloat)) 100 100 (4/5) 6);
      try lra.
    rewrite det2_class_matrix. lra.
  - apply (proj2 (class_level_mass_balance (kd:=PyFloat))
             Scenario.observed Scenario.availability Scenario.probs
             Scenario.nofly_prob true _ _ _ _ "A"
             (scenario_class_level true) scenario_host_level).
    + unfold Scenario.probs, keys. cbn. auto.
    + unfold Scenario.observed. unfold get. eval_dict. lra.
Defined.

(** ** Zero observed demand without calibration (C9) *)

(** C9.  With [calibrate=False], every product of [probs] whose observed
    demand is 0, absent from [observed] or not, has the estimate (0, 0, 0)
    in the mapping [estimate_class_level] returns. *)
Theorem estimate_class_level_zero_demand {kd}
  observed availability probs nofly est p :
  estimate_class_level kd observed availability probs nofly false = inr est ->
  In p (keys probs) ->
  get observed p 0 = 0 ->
  lookup est p = Some (Estimate 0 0 0).
Proof.
  intros H Hp Hz. apply estimate_class_level_inr in H.
  destruct H as [hd [hs [hr [est0 [_ [Hl ->]]]]]].
  destruct (class_loop_entry _ _ _ _ _ _ _ Hl Hp) as [e [He Hlk]].
  rewrite class_level_entry_zero in He by assumption.
  now injection He as <-.
Qed.

Lemma estimate_class_level_zero_demand_witness :
  lookup [("A", Estimate (235/2) (47/2) 6); ("B", Estimate 0 0 0)] "B"
  = Some (Estimate 0 0 0).
Proof.
  apply (estimate_class_level_zero_demand (kd:=PyFloat)
           Scenario.observed Scenario.availability Scenario.probs
           Scenario.nofly_prob _ "B" (scenario_class_level false)).
  - unfold Scenario.probs, keys. cbn. auto.
  - unfold Scenario.observed, get. eval_dict. reflexivity.
Defined.

(** ** Estimated against observed demand (C7) *)

(** C7, as stated, fails: with product B closed all period, product A is
    estimated at 92.5 against 100 observed, calibrated or not; its recapture
    (26) exceeds its spill (18.5). *)
Lemma class_level_demand_below_observed :
  exists est e,
    estimate_class_level PyFloat Closed.observed Closed.availability Closed.probs
      Closed.nofly_prob true = inr est
    /\ lookup est "A" = Some e
    /\ get Closed.observed "A" 0 <> 0
    /\ ~ demand e >= get Closed.observed "A" 0.
Proof.
  eexists. exists (Estimate (185/2) (37/2) 26).
  split; [exact closed_class_level_calibrated|].
  split; [reflexivity|].
  unfold Closed.observed, get. eval_dict. cbn [demand]. split; lra.
Qed.

(** C7 (amended).  The class-level estimate of a product with non-zero
    observed demand has demand = observed - recapture + spill, so its demand
    is at least the observed demand exactly when its spill is at least its
    recapture; in the two-product scenario product A is estimated at 117.5,
    which is at least 100. *)
Theorem class_level_demand_vs_observed {kd} :
  (forall observed availability probs nofly calibrate est p,
      estimate_class_level kd observed availability probs nofly calibrate
      = inr est ->
      In p (keys probs) -> get observed p 0 <> 0 ->
      exists e,
        lookup est p = Some e
        /\ demand e = get observed p 0 - recapture e + spill e
        /\ (demand e >= get observed p 0 <-> spill e >= recapture e))
  /\ (forall calibrate,
         exists est e,
           estimate_class_level kd Scenario.observed Scenario.availability
             Scenario.probs Scenario.nofly_prob calibrate = inr est
           /\ lookup est "A" = Some e
           /\ demand e = 235/2
           /\ demand e >= 100).
Proof.
  split.
  - intros observed availability probs nofly calibrate est p H Hp Ho.
    pose proof H as H'. apply estimate_class_level_inr in H'.
    destruct H' as [hd [hs [hr [_ [Hh _]]]]].
    destruct (estimate_class_level_booked _ _ _ _ _ _ _ _ _ _ H Hh Hp Ho)
      as [e [Hlk [_ [_ Hb]]]].
    exists e. split; [exact Hlk|]. split; [lra|]. split; intros; lra.
  - intros calibrate. eexists. exists (Estimate (235/2) (47/2) 6).
    split; [apply scenario_class_level|].
    split; [reflexivity|]. cbn [demand]. split; lra.
Qed.

Lemma class_level_demand_vs_observed_witness :
  exists e,
    lookup [("A", Estimate (185/2) (37/2) 26);
            ("B", Estimate (185/3) (185/3) 0)] "A" = Some e
    /\ demand e = get Closed.observed "A" 0 - recapture e + spill e
    /\ (demand e >= get Closed.observed "A" 0 <-> spill e >= recapture e).
Proof.
  apply (proj1 (class_level_demand_vs_observed (kd:=PyFloat))
           Closed.observed Closed.availability Closed.probs Closed.nofly_prob
           true _ "A" closed_class_level_calibrated).
  - unfold Closed.probs, keys. cbn. auto.
  - unfold Closed.observed, get. eval_dict. lra.
Defined.

(** ** The invalid-input check (C3) *)

Lemma sum_nonneg_ge (l : list R) v :
  Forall (fun x => 0 <= x) l -> In v l -> v <= sum l /\ 0 <= sum l.
Proof.
  induction l as [|x l IH]; [contradiction|].
  intros Hall Hin. inversion Hall as [|? ? Hx Hl]; subst.
  rewrite sum_cons.
  assert (Hs : 0 <= sum l).
  { clear - Hl. induction l as [|y l IHl]; [rewrite sum_nil; lra|].
    inversion Hl; subst. rewrite sum_cons. specialize (IHl H2). lra. }
  destruct Hin as [->|Hin]; [lra|].
  destruct (IH Hl Hin). lra.
Qed.

Lemma get_nonneg (observed : dict R) p :
  (forall k v, In (k, v) observed -> 0 <= v) -> 0 <= get observed p 0.
Proof.
  intros H. unfold get. destruct (lookup observed p) as [v|] eqn:E; [|lra].
  apply lookup_In in E. eauto.
Qed.

Lemma get_le_sum (observed : dict R) p :
  (forall k v, In (k, v) observed -> 0 <= v) ->
  get observed p 0 <= sum (values observed).
Proof.
  intros H.
  assert (Hall : Forall (fun x => 0 <= x) (values observed)).
  { apply Forall_forall. intros v Hv. unfold values in Hv.
    apply in_map_iff in Hv. destruct Hv as [[k v'] [<- Hin]]. eauto. }
  unfold get. destruct (lookup observed p) as [v|] eqn:E.
  - apply lookup_In in E. apply (sum_nonneg_ge _ v Hall).
    unfold values. change v with (snd (p, v)). now apply in_map.
  - destruct (values observed) as [|x l] eqn:Ev; [rewrite sum_nil; lra|].
    apply (sum_nonneg_ge (x :: l) x Hall). now left.
Qed.

(** C3, as stated, fails: a booked product that was never available but is
    not a key of [probs] is never looked at; the call returns. *)
Lemma estimate_class_level_unlisted_product :
  get Unlisted.availability "A" 0 = 0
  /\ get Unlisted.observed "A" 0 > 0
  /\ estimate_class_level PyFloat Unlisted.observed Unlisted.availability
       Unlisted.probs Unlisted.nofly_prob true
     = inr [("B", Estimate 0 0 0)].
Proof.
  split; [unfold Unlisted.availability; eval_get|].
  split; [unfold Unlisted.observed; eval_get|].
  assert (Hh : estimate_host_level PyFloat Unlisted.observed Unlisted.availability
                 Unlisted.probs Unlisted.nofly_prob = inr (10, 0, 0)).
  { apply (estimate_host_level_value _ _ _ _ 1 10 0 (1/2));
      unfold Unlisted.nofly_prob; try lra; try discriminate.
    - unfold prob_market_open, Unlisted.probs, Unlisted.availability, get.
      eval_dict. rewrite !sum_cons, sum_nil. lra.
    - unfold Unlisted.observed. eval_sum. }
  rewrite (estimate_class_level_value _ _ _ _ true _ _ _
             [("B", Estimate 0 0 0)] Hh).
  - apply calibrate_values_unchanged. unfold unaccounted. eval_sum.
  - unfold Unlisted.probs. cbn [keys map fst for_each].
    rewrite class_level_entry_zero by (unfold Unlisted.observed; eval_get).
    reflexivity.
Qed.

(** The error example of the specification: its only product was never
    open, the host-level system is singular and the solver fails before the
    loop that checks the products is reached. *)
Lemma estimate_class_level_error_path {kd} calibrate :
  estimate_class_level kd ErrorPath.observed ErrorPath.availability
    ErrorPath.probs ErrorPath.nofly_prob calibrate
  = inl LinAlgError.
Proof.
  rewrite estimate_class_level_eq.
  rewrite estimate_host_level_all_closed; [reflexivity | discriminate | |
    unfold ErrorPath.nofly_prob; lra | unfold ErrorPath.nofly_prob; lra].
  unfold prob_market_open, ErrorPath.probs, ErrorPath.availability,
    ErrorPath.nofly_prob, get.
  eval_dict. rewrite !sum_cons, sum_nil. lra.
Qed.

(** C3 (amended).  When the host-level estimate succeeds and no observed
    demand is negative, a product of [probs] with availability 0 and
    observed demand > 0 makes [estimate_class_level] raise
    [InvalidInputParameters], calibrating or not. *)
Theorem estimate_class_level_invalid_input {kd}
  observed availability probs nofly calibrate h p :
  estimate_host_level kd observed availability probs nofly = inr h ->
  (forall k v, In (k, v) observed -> 0 <= v) ->
  In p (keys probs) ->
  get availability p 0 = 0 ->
  get observed p 0 > 0 ->
  estimate_class_level kd observed availability probs nofly calibrate
  = inl InvalidInputParameters.
Proof.
  intros Hh Hpos Hp Ha Ho. unfold estimate_class_level. rewrite Hh.
  destruct h as [[hd hs] hr]. cbn [bind].
  rewrite class_loop_store.
  rewrite (for_each_store_raises _
             (class_level_entry observed availability
                (sum (values observed)) hr)
             (keys probs) [] InvalidInputParameters); [reflexivity| |].
  - intros q _.
    destruct (Req_dec_T (get observed q 0) 0) as [Hz|Hnz].
    + right. eexists. now apply class_level_entry_zero.
    + assert (Hq : get observed q 0 > 0).
      { pose proof (get_nonneg observed q Hpos). lra. }
      destruct (Req_dec_T (get availability q 0) 0) as [Haz|Hanz].
      * left. now apply class_level_entry_invalid.
      * right. eexists. apply class_level_entry_booked; try assumption.
        pose proof (get_le_sum observed p Hpos). lra.
  - exists p. split; [assumption|]. now apply class_level_entry_invalid.
Qed.

Lemma estimate_class_level_invalid_input_witness :
  estimate_class_level PyFloat Invalid.observed Invalid.availability Invalid.probs
    Invalid.nofly_prob true
  = inl InvalidInputParameters.
Proof.
  assert (Hh : estimate_host_level PyFloat Invalid.observed Invalid.availability
                 Invalid.probs Invalid.nofly_prob = inr (105/4, 63/4, 9/2)).
  { apply (estimate_host_level_value _ _ _ _ (7/10) 15 (3/5) (2/7));
      unfold Invalid.nofly_prob; try lra; try discriminate.
    - unfold prob_market_open, Invalid.probs, Invalid.availability, get.
      eval_dict. rewrite !sum_cons, sum_nil. lra.
    - unfold Invalid.observed. eval_sum. }
  apply (estimate_class_level_invalid_input (kd:=PyFloat)
           Invalid.observed Invalid.availability Invalid.probs
           Invalid.nofly_prob true _ "A" Hh).
  - unfold Invalid.observed. cbn [In].
    intros k v [[= <- <-]|[[= <- <-]|[]]]; lra.
  - unfold Invalid.probs, keys. cbn. auto.
  - unfold Invalid.availability. eval_get.
  - unfold Invalid.observed. eval_get.
Defined.

(** ** The choice probabilities (C6) *)

Lemma sum_exp_pos (us : list R) : us <> [] -> 0 < sum (map exp us).
Proof.
  intros Hne. apply sum_pos.
  - destruct us; [congruence | discriminate].
  - apply Forall_forall. intros x Hx. apply in_map_iff in Hx.
    destruct Hx as [u [<- _]]. apply exp_pos.
Qed.

Lemma probs_comprehension {kd} (T : R) (utilities : dict R) :
  T <> 0 ->
  comprehension (fun '(p, u) => q <- div kd (exp u) T ;; ret (p, q)) utilities
  = inr (map (fun '(p, u) => (p, exp u / T)) utilities).
Proof.
  intros HT. induction utilities as [|[p u] us IH]; cbn; [reflexivity|].
  rewrite div_ok by assumption. cbn. now rewrite IH.
Qed.

(** The closed form of [selection_probs] on a non-empty mapping. *)
Lemma selection_probs_closed {kd} utilities market_share :
  utilities <> [] -> market_share <> 0 ->
  let S := sum (map exp (values utilities)) in
  let N := S * (1 - market_share) / market_share in
  selection_probs kd utilities market_share
  = inr (map (fun '(p, u) => (p, exp u / (S + N))) utilities, N / (S + N))
    /\ S + N <> 0.
Proof.
  intros Hne Hm S N.
  assert (HS : 0 < S).
  { apply sum_exp_pos. unfold values. destruct utilities; [congruence|discriminate]. }
  assert (HT : S + N <> 0).
  { unfold N. intros H0.
    assert (E : S + S * (1 - market_share) / market_share = S / market_share)
      by (field; assumption).
    rewrite E in H0.
    assert (S = 0); [|lra].
    replace S with (S / market_share * market_share) by (field; assumption).
    rewrite H0. ring. }
  split; [|exact HT].
  unfold selection_probs. fold S. rewrite div_ok by assumption.
  cbn [bind ret]. fold N. rewrite probs_comprehension by assumption.
  cbn [bind]. rewrite div_ok by assumption. reflexivity.
Qed.

(** C6, as stated, fails: on the empty utility mapping the sum of the
    exponentials is 0 and the no-fly probability divides 0 by 0. *)
Lemma selection_probs_empty :
  0 < 1/2 < 1 /\ selection_probs PyFloat [] (1/2) = inl ZeroDivisionError.
Proof.
  split; [lra|]. unfold selection_probs, values. cbn [map].
  rewrite sum_nil, div_ok by lra. cbn [bind ret comprehension].
  unfold div. decide_tests. reflexivity.
Qed.

(** C6 (amended).  For every non-empty utility mapping and every
    market share in (0,1), [selection_probs] returns a probability mapping
    and a no-fly probability whose values together sum to 1. *)
Theorem selection_probs_sum_one {kd} utilities market_share :
  utilities <> [] ->
  0 < market_share < 1 ->
  exists probs nofly_prob,
    selection_probs kd utilities market_share = inr (probs, nofly_prob)
    /\ keys probs = keys utilities
    /\ sum (values probs) + nofly_prob = 1.
Proof.
  intros Hne Hm.
  destruct (selection_probs_closed (kd:=kd) utilities market_share Hne) as [E HT];
    [lra|]. cbv zeta in E, HT.
  do 2 eexists. split; [exact E|]. split.
  - unfold keys. rewrite map_map. apply map_ext. now intros [p u].
  - unfold values at 1. rewrite map_map.
    rewrite (sum_map_ext _ (fun x => exp (snd x) / _))
      by (intros [p u] _; reflexivity).
    rewrite (sum_map_div (fun x => exp (snd x))).
    replace (sum (map (fun x : key * R => exp (snd x)) utilities))
      with (sum (map exp (values utilities)))
      by (unfold values; now rewrite map_map).
    set (S := sum (map exp (values utilities))) in *.
    set (N := S * (1 - market_share) / market_share) in *.
    clearbody N. field. exact HT.
Qed.

Lemma selection_probs_sum_one_witness :
  exists probs nofly_prob,
    selection_probs PyFloat [("A", 2); ("B", 1)] (3/5) = inr (probs, nofly_prob)
    /\ keys probs = ["A"; "B"]
    /\ sum (values probs) + nofly_prob = 1.
Proof.
  apply (selection_probs_sum_one (kd:=PyFloat) [("A", 2); ("B", 1)] (3/5)).
  - discriminate.
  - lra.
Defined.


(** ** The calibrated pipeline *)

(** Before calibration the mapping has the keys of [probs] and no other. *)
Lemma class_loop_only_probs observed availability total hr l est0 p :
  for_each (class_level_step observed availability total hr) l [] = inr est0 ->
  ~ In p l -> lookup est0 p = None.
Proof.
  rewrite class_loop_store. intros H Hp.
  exact (proj2 (for_each_store_inr _ _ _ _ _ H) p Hp).
Qed.

(** Before calibration a product without observed bookings has the entry
    (0, 0, 0), whatever its key. *)
Lemma class_loop_no_booking observed availability total hr l est0 k e :
  for_each (class_level_step observed availability total hr) l [] = inr est0 ->
  lookup est0 k = Some e -> get observed k 0 = 0 -> e = Estimate 0 0 0.
Proof.
  intros H Hlk Hz. destruct (in_dec string_dec k l) as [Hin|Hin].
  - destruct (class_loop_entry _ _ _ _ _ _ _ H Hin) as [e' [He' Hlk']].
    rewrite class_level_entry_zero in He' by assumption. congruence.
  - rewrite (class_loop_only_probs _ _ _ _ _ _ _ H Hin) in Hlk. discriminate.
Qed.

(** X13.  In a mapping [estimate_class_level] returns, calibrated or not, a
    product of [probs] without observed bookings has recapture 0 and a
    demand equal to its spill. *)
Lemma estimate_class_level_no_booking {kd}
  observed availability probs nofly calibrate est p :
  estimate_class_level kd observed availability probs nofly calibrate
  = inr est ->
  In p (keys probs) -> get observed p 0 = 0 ->
  exists e, lookup est p = Some e /\ recapture e = 0 /\ demand e = spill e.
Proof.
  intros H Hp Hz. apply estimate_class_level_inr in H.
  destruct H as [hd [hs [hr [est0 [_ [Hl Hc]]]]]].
  destruct (class_loop_entry _ _ _ _ _ _ _ Hl Hp) as [e [He Hlk]].
  rewrite class_level_entry_zero in He by assumption. injection He as <-.
  destruct calibrate; [|subst est; eauto].
  destruct (calibrate_values_inr _ _ _ _ _ _
              (class_loop_wf _ _ _ _ _ _ _ wf_nil Hl) Hc)
    as [[_ ->]|[_ [_ [_ ->]]]]; [eauto|].
  rewrite lookup_redistributed, Hlk. cbn [option_map].
  apply eqb_true in Hz. rewrite Hz. eexists. split; [reflexivity|].
  split; reflexivity.
Qed.

Lemma estimate_class_level_no_booking_witness :
  exists e,
    lookup [("A", Estimate (185/2) (37/2) 26);
            ("B", Estimate (185/3) (185/3) 0)] "B" = Some e
    /\ recapture e = 0 /\ demand e = spill e.
Proof.
  apply (estimate_class_level_no_booking (kd:=PyFloat) Closed.observed Closed.availability
           Closed.probs Closed.nofly_prob true).
  - exact closed_class_level_calibrated.
  - unfold Closed.probs, keys. cbn. auto.
  - unfold Closed.observed, get. eval_dict. reflexivity.
Defined.

(** * Further properties of the module *)

(** ** [selection_probs] *)

Lemma sum_exp_utilities_pos (utilities : dict R) :
  utilities <> [] -> 0 < sum (map exp (values utilities)).
Proof.
  intros H. apply sum_exp_pos. unfold values.
  destruct utilities; [congruence | discriminate].
Qed.

(** The value of [selection_probs]: the exponentials normalised to the
    market share, and what is left of 1 for not flying. *)
Lemma selection_probs_value {kd} utilities market_share :
  utilities <> [] -> market_share <> 0 ->
  selection_probs kd utilities market_share
  = inr (map (fun '(p, u) =>
                (p, market_share * exp u / sum (map exp (values utilities))))
           utilities,
         1 - market_share).
Proof.
  intros Hne Hm.
  destruct (selection_probs_closed (kd:=kd) utilities market_share Hne Hm)
    as [E HT].
  cbv zeta in E, HT. rewrite E.
  pose proof (sum_exp_utilities_pos utilities Hne) as HS.
  set (S := sum (map exp (values utilities))) in *.
  apply f_equal. apply f_equal2.
  - apply map_ext. intros [p u]. apply f_equal. field. split; [lra|exact Hm].
  - field; repeat split;
      first [ exact Hm | lra
            | replace (S * market_share + S * (1 - market_share)) with S
                by ring; lra ].
Qed.

(** The probabilities of [selection_probs_value] add up to the market
    share, and each of them is positive when the market share is. *)
Lemma softmax_sum (utilities : dict R) market_share :
  utilities <> [] ->
  sum (values (map (fun '(p, u) =>
                      (p, market_share * exp u
                          / sum (map exp (values utilities))))
                 utilities))
  = market_share.
Proof.
  intros Hne.
  pose proof (sum_exp_utilities_pos utilities Hne) as HS.
  unfold values at 1. rewrite map_map.
  rewrite (sum_map_ext _
             (fun x => market_share
                       * (exp (snd x) / sum (map exp (values utilities)))))
    by (intros [p u] _; cbn [snd]; unfold Rdiv; ring).
  rewrite (sum_map_scale
             (fun x => exp (snd x) / sum (map exp (values utilities)))).
  rewrite (sum_map_div (fun x => exp (snd x))).
  replace (sum (map (fun x : key * R => exp (snd x)) utilities))
    with (sum (map exp (values utilities)))
    by (unfold values; now rewrite map_map).
  field. lra.
Qed.

Lemma softmax_pos (utilities : dict R) market_share u :
  utilities <> [] -> 0 < market_share ->
  0 < market_share * exp u / sum (map exp (values utilities)).
Proof.
  intros Hne Hm.
  pose proof (sum_exp_utilities_pos utilities Hne) as HS.
  pose proof (exp_pos u) as Hu.
  apply Rmult_lt_0_compat; [apply Rmult_lt_0_compat; lra|].
  now apply Rinv_0_lt_compat.
Qed.

(** X1.  On a non-empty utility mapping and a non-zero market share, the
    selection probabilities [selection_probs] returns add up to the market
    share, and the no-fly probability is 1 - market_share. *)
Theorem selection_probs_market_share {kd} utilities market_share :
  utilities <> [] -> market_share <> 0 ->
  exists probs,
    selection_probs kd utilities market_share = inr (probs, 1 - market_share)
    /\ sum (values probs) = market_share.
Proof.
  intros Hne Hm. eexists.
  split; [now apply selection_probs_value | now apply softmax_sum].
Qed.

Lemma selection_probs_market_share_witness :
  exists probs,
    selection_probs PyFloat [("A", 2); ("B", 1)] (3/5) = inr (probs, 1 - 3/5)
    /\ sum (values probs) = 3/5.
Proof.
  apply (selection_probs_market_share (kd:=PyFloat) [("A", 2); ("B", 1)] (3/5)).
  - discriminate.
  - lra.
Defined.

Lemma exp_le_sum (us : list R) u : In u us -> exp u <= sum (map exp us).
Proof.
  induction us as [|v us IH]; [contradiction|].
  cbn [map]. rewrite sum_cons. intros [->|Hin].
  - assert (0 <= sum (map exp us)); [|lra].
    destruct us as [|w us']; [cbn [map]; rewrite sum_nil; lra|].
    apply Rlt_le. apply sum_exp_pos. discriminate.
  - pose proof (exp_pos v). specialize (IH Hin). lra.
Qed.

(** X2.  The probability [selection_probs] gives a product is the market
    share times the softmax of its utility,
    market_share * exp(u) / sum of exp over all products; the mapping keeps
    the products and their order, and for a market share in (0,1) every
    probability is positive and at most the market share. *)
Theorem selection_probs_softmax {kd} utilities market_share :
  utilities <> [] -> 0 < market_share < 1 ->
  exists probs nofly_prob,
    selection_probs kd utilities market_share = inr (probs, nofly_prob)
    /\ probs = map (fun '(p, u) =>
                      (p, market_share * exp u
                          / sum (map exp (values utilities))))
                 utilities
    /\ keys probs = keys utilities
    /\ forall p q, In (p, q) probs -> 0 < q <= market_share.
Proof.
  intros Hne Hm. do 2 eexists.
  split; [apply selection_probs_value; [exact Hne | lra]|].
  split; [reflexivity|]. split.
  - unfold keys. rewrite map_map. apply map_ext. now intros [p u].
  - intros p q Hin. apply in_map_iff in Hin.
    destruct Hin as [[p' u] [[= <- <-] Hu]].
    pose proof (sum_exp_utilities_pos utilities Hne) as HS.
    assert (Hle : exp u <= sum (map exp (values utilities))).
    { apply exp_le_sum. unfold values. change u with (snd (p', u)).
      now apply in_map. }
    pose proof (exp_pos u) as Hu0.
    set (S := sum (map exp (values utilities))) in *.
    assert (Hinv : 0 < / S) by now apply Rinv_0_lt_compat.
    unfold Rdiv. split.
    + apply Rmult_lt_0_compat; [apply Rmult_lt_0_compat; lra | exact Hinv].
    + assert (Hr : exp u * / S <= 1).
      { apply (Rmult_le_reg_r S); [exact HS|].
        rewrite Rmult_assoc, Rinv_l by lra. lra. }
      rewrite Rmult_assoc.
      rewrite <- (Rmult_1_r market_share) at 2.
      apply Rmult_le_compat_l; lra.
Qed.

Lemma selection_probs_softmax_witness :
  exists probs nofly_prob,
    selection_probs PyFloat [("A", 2); ("B", 1)] (3/5) = inr (probs, nofly_prob)
    /\ probs = map (fun '(p, u) =>
                      (p, 3/5 * exp u
                          / sum (map exp (values [("A", 2); ("B", 1)]))))
                 [("A", 2); ("B", 1)]
    /\ keys probs = keys [("A", 2); ("B", 1)]
    /\ forall p q, In (p, q) probs -> 0 < q <= 3/5.
Proof.
  apply (selection_probs_softmax (kd:=PyFloat) [("A", 2); ("B", 1)] (3/5)).
  - discriminate.
  - lra.
Defined.

(** X3.  Adding one constant to every utility changes nothing:
    [selection_probs] returns the same probabilities and the same no-fly
    probability. *)
Theorem selection_probs_shift {kd} utilities market_share c :
  utilities <> [] -> market_share <> 0 ->
  selection_probs kd (map (fun '(p, u) => (p, u + c)) utilities) market_share
  = selection_probs kd utilities market_share.
Proof.
  intros Hne Hm.
  assert (Hne' : map (fun '(p, u) => (p, u + c)) utilities <> [])
    by (destruct utilities; [congruence | discriminate]).
  rewrite !selection_probs_value by assumption.
  pose proof (sum_exp_utilities_pos utilities Hne) as HS.
  assert (Hsum : sum (map exp (values (map (fun '(p, u) => (p, u + c))
                                         utilities)))
                 = exp c * sum (map exp (values utilities))).
  { unfold values. rewrite !map_map.
    rewrite (sum_map_ext _ (fun x => exp c * exp (snd x)))
      by (intros [p u] _; cbn [snd]; rewrite exp_plus; ring).
    now rewrite (sum_map_scale (fun x => exp (snd x))). }
  rewrite Hsum. apply f_equal. apply f_equal2; [|reflexivity].
  rewrite map_map. apply map_ext. intros [p u]. apply f_equal.
  rewrite exp_plus. pose proof (exp_pos c). field. split; lra.
Qed.

Lemma selection_probs_shift_witness :
  selection_probs PyFloat (map (fun '(p, u) => (p, u + 10)) [("A", 2); ("B", 1)])
    (3/5)
  = selection_probs PyFloat [("A", 2); ("B", 1)] (3/5).
Proof.
  apply (selection_probs_shift (kd:=PyFloat) [("A", 2); ("B", 1)] (3/5) 10).
  - discriminate.
  - lra.
Defined.

(** ** [estimate_host_level] *)

Lemma estimate_host_level_zero_open {kd} observed availability probs nofly :
  probs <> [] ->
  prob_market_open availability probs nofly = 0 ->
  estimate_host_level kd observed availability probs nofly
  = inl (zero_division kd).
Proof.
  intros Hne Hp. unfold estimate_host_level.
  destruct probs as [|x probs]; [congruence|].
  fold (prob_market_open availability (x :: probs) nofly).
  now rewrite Hp, div_zero.
Qed.

Lemma estimate_host_level_sure_nofly {kd} observed availability probs :
  probs <> [] ->
  prob_market_open availability probs 1 <> 0 ->
  estimate_host_level kd observed availability probs 1
  = inl (zero_division kd).
Proof.
  intros Hne Hp. unfold estimate_host_level.
  destruct probs as [|x probs]; [congruence|].
  fold (prob_market_open availability (x :: probs) 1).
  rewrite div_ok by assumption. cbn [bind ret].
  replace (1 - 1) with 0 by ring. now rewrite div_zero.
Qed.

(** The host-level estimate in closed form. *)
Lemma estimate_host_level_solution {kd} observed availability probs nofly :
  probs <> [] ->
  let pmo := prob_market_open availability probs nofly in
  let total := sum (values observed) in
  pmo <> 0 -> nofly <> 1 -> pmo <> nofly ->
  estimate_host_level kd observed availability probs nofly
  = inr (total * pmo * (1 - nofly) / (pmo - nofly),
         total * pmo * (1 - pmo) / (pmo - nofly),
         total * (1 - pmo)).
Proof.
  intros Hne pmo total Hp Hn Hd.
  assert (Hdet : 1 - (1 - pmo) / (1 - nofly)
                 + (1 - pmo) / (1 - nofly) * ((pmo - nofly) / pmo)
                 = (pmo - nofly) / (pmo * (1 - nofly)))
    by (field; split; [lra | exact Hp]).
  apply (estimate_host_level_value _ _ _ _ pmo total
           ((1 - pmo) / (1 - nofly)) ((pmo - nofly) / pmo));
    try reflexivity; try assumption.
  - rewrite Hdet. intros H0.
    assert (pmo - nofly = 0); [|lra].
    replace (pmo - nofly)
      with ((pmo - nofly) / (pmo * (1 - nofly)) * (pmo * (1 - nofly)))
      by (field; split; [lra | exact Hp]).
    rewrite H0. ring.
  - rewrite Hdet. field. repeat split; try assumption; lra.
  - field. repeat split; try assumption; lra.
  - field. repeat split; try assumption; lra.
Qed.

(** X4.  On a non-empty [probs], [estimate_host_level] returns exactly when
    the probability of an open market choice is non-zero, differs from the
    no-fly probability (some listed product was open), and the no-fly
    probability is not 1; otherwise it does not return (it raises, or numpy
    has divided by zero). *)
Theorem estimate_host_level_returns_iff {kd} observed availability probs nofly :
  probs <> [] ->
  (exists t, estimate_host_level kd observed availability probs nofly = inr t)
  <-> (prob_market_open availability probs nofly <> 0
       /\ nofly <> 1
       /\ prob_market_open availability probs nofly <> nofly).
Proof.
  intros Hne. split.
  - intros [t Ht].
    destruct (Req_dec_T (prob_market_open availability probs nofly) 0)
      as [Hp|Hp].
    { rewrite estimate_host_level_zero_open in Ht by assumption.
      discriminate. }
    destruct (Req_dec_T nofly 1) as [->|Hn].
    { rewrite estimate_host_level_sure_nofly in Ht by assumption.
      discriminate. }
    destruct (Req_dec_T (prob_market_open availability probs nofly) nofly)
      as [Hd|Hd].
    { rewrite estimate_host_level_all_closed in Ht; try assumption;
        [discriminate | congruence]. }
    auto.
  - intros [Hp [Hn Hd]]. eexists.
    now apply estimate_host_level_solution.
Qed.

Lemma estimate_host_level_returns_iff_witness :
  (exists t,
      estimate_host_level PyFloat Scenario.observed Scenario.availability
        Scenario.probs Scenario.nofly_prob = inr t)
  <-> (prob_market_open Scenario.availability Scenario.probs
         Scenario.nofly_prob <> 0
       /\ Scenario.nofly_prob <> 1
       /\ prob_market_open Scenario.availability Scenario.probs
            Scenario.nofly_prob <> Scenario.nofly_prob).
Proof.
  apply (estimate_host_level_returns_iff (kd:=PyFloat)
           Scenario.observed Scenario.availability Scenario.probs
           Scenario.nofly_prob).
  discriminate.
Defined.

(** A returning host-level run on a non-empty [probs]: the divisions and
    the solver went through, and the triple is the closed form. *)
Lemma estimate_host_level_inv {kd} observed availability probs nofly d s r :
  probs <> [] ->
  estimate_host_level kd observed availability probs nofly = inr (d, s, r) ->
  let pmo := prob_market_open availability probs nofly in
  let total := sum (values observed) in
  pmo <> 0 /\ nofly <> 1 /\ pmo <> nofly
  /\ d = total * pmo * (1 - nofly) / (pmo - nofly)
  /\ s = total * pmo * (1 - pmo) / (pmo - nofly)
  /\ r = total * (1 - pmo).
Proof.
  intros Hne H pmo total.
  destruct (Req_dec_T pmo 0) as [Hp|Hp].
  { unfold pmo in Hp.
    rewrite estimate_host_level_zero_open in H by assumption. discriminate. }
  destruct (Req_dec_T nofly 1) as [->|Hn].
  { rewrite estimate_host_level_sure_nofly in H by assumption.
    discriminate. }
  destruct (Req_dec_T pmo nofly) as [Hd|Hd].
  { unfold pmo in Hd, Hp.
    rewrite estimate_host_level_all_closed in H; try assumption;
      [discriminate | congruence]. }
  rewrite estimate_host_level_solution in H by assumption.
  fold pmo total in H. injection H as <- <- <-.
  repeat split; assumption.
Qed.

(** X5.  Whatever [estimate_host_level] returns on a non-empty [probs] is,
    with pmo the probability of an open market choice and T the total
    observed demand: demand = T * pmo * (1 - nofly) / (pmo - nofly),
    spill = T * pmo * (1 - pmo) / (pmo - nofly), recapture = T * (1 - pmo);
    and demand - spill + recapture = T. *)
Theorem estimate_host_level_closed_form {kd}
  observed availability probs nofly d s r :
  probs <> [] ->
  estimate_host_level kd observed availability probs nofly = inr (d, s, r) ->
  let pmo := prob_market_open availability probs nofly in
  let total := sum (values observed) in
  d = total * pmo * (1 - nofly) / (pmo - nofly)
  /\ s = total * pmo * (1 - pmo) / (pmo - nofly)
  /\ r = total * (1 - pmo)
  /\ d - s + r = total.
Proof.
  intros Hne H pmo total.
  destruct (estimate_host_level_inv _ _ _ _ _ _ _ Hne H)
    as [Hp [Hn [Hd [-> [-> ->]]]]].
  fold pmo total. fold pmo in Hd. repeat split. field. lra.
Qed.

Lemma estimate_host_level_closed_form_witness :
  let pmo := prob_market_open Scenario.availability Scenario.probs
               Scenario.nofly_prob in
  let total := sum (values Scenario.observed) in
  1175/11 = total * pmo * (1 - Scenario.nofly_prob)
            / (pmo - Scenario.nofly_prob)
  /\ 141/11 = total * pmo * (1 - pmo) / (pmo - Scenario.nofly_prob)
  /\ 6 = total * (1 - pmo)
  /\ 1175/11 - 141/11 + 6 = total.
Proof.
  apply (estimate_host_level_closed_form (kd:=PyFloat)
           Scenario.observed Scenario.availability Scenario.probs
           Scenario.nofly_prob (1175/11) (141/11) 6).
  - discriminate.
  - exact scenario_host_level.
Defined.

(** The probability of an open market choice lies between the no-fly
    probability and the total of all probabilities. *)
Lemma prob_market_open_bounds availability probs nofly :
  (forall p pr, In (p, pr) probs ->
     0 <= pr /\ 0 <= get availability p 0 <= 1) ->
  nofly <= prob_market_open availability probs nofly
  /\ prob_market_open availability probs nofly <= nofly + sum (values probs).
Proof.
  unfold prob_market_open, values.
  induction probs as [|[p pr] probs IH]; intros H.
  - cbn [map]. rewrite sum_nil. lra.
  - cbn [map snd]. rewrite !sum_cons.
    destruct (H p pr (or_introl eq_refl)) as [Hpr Ha].
    pose proof (IH (fun q qr Hq => H q qr (or_intror Hq))) as IH'.
    assert (0 <= pr * get availability p 0 <= pr) by nra.
    lra.
Qed.

Lemma prob_market_open_gt availability probs nofly :
  (forall p pr, In (p, pr) probs ->
     0 <= pr /\ 0 <= get availability p 0 <= 1) ->
  (exists p pr, In (p, pr) probs /\ 0 < pr * get availability p 0) ->
  nofly < prob_market_open availability probs nofly.
Proof.
  induction probs as [|[p pr] probs IH]; intros H [q [qr [Hin Hq]]].
  - contradiction.
  - pose proof (prob_market_open_bounds availability probs nofly
                  (fun q qr Hq => H q qr (or_intror Hq))) as [Hlo _].
    destruct (H p pr (or_introl eq_refl)) as [Hpr Ha].
    assert (0 <= pr * get availability p 0) by nra.
    unfold prob_market_open in *. cbn [map]. rewrite sum_cons.
    destruct Hin as [[= -> ->]|Hin]; [lra|].
    assert (nofly
            < nofly + sum (map (fun '(p0, pr0) => pr0 * get availability p0 0)
                             probs)); [|lra].
    apply IH; [intros; apply H; now right | eauto].
Qed.

(** The closed form of the host-level estimate, for probabilities in
    range: the demand is at least the total observed, and the recapture lies
    between 0 and the spill. *)
Lemma host_solution_bounds (T pmo nofly : R) :
  0 <= T -> 0 <= nofly -> nofly < pmo -> pmo <= 1 ->
  T <= T * pmo * (1 - nofly) / (pmo - nofly)
  /\ 0 <= T * (1 - pmo) <= T * pmo * (1 - pmo) / (pmo - nofly).
Proof.
  intros Ht Hn Hlo Hhi.
  assert (Hq : 0 < / (pmo - nofly)) by (apply Rinv_0_lt_compat; lra).
  assert (Hd : T * pmo * (1 - nofly) / (pmo - nofly)
               = T + T * nofly * (1 - pmo) * / (pmo - nofly))
    by (field; lra).
  assert (Hs : T * pmo * (1 - pmo) / (pmo - nofly)
               = T * (1 - pmo) + T * nofly * (1 - pmo) * / (pmo - nofly))
    by (field; lra).
  assert (Hx : 0 <= T * nofly * (1 - pmo) * / (pmo - nofly)).
  { apply Rmult_le_pos; [|lra]. apply Rmult_le_pos; [|lra].
    apply Rmult_le_pos; lra. }
  assert (Hr : 0 <= T * (1 - pmo)) by (apply Rmult_le_pos; lra).
  rewrite Hd, Hs. lra.
Qed.

(** X6.  With probabilities and availabilities in range (each probability
    non-negative, each availability in [0,1], the no-fly probability
    non-negative and all probabilities together at most 1), some listed
    product open with positive probability and a non-negative total of
    observed demand, [estimate_host_level] returns, its demand is at least
    the total observed demand, and 0 <= recapture <= spill. *)
Theorem estimate_host_level_bounds {kd} observed availability probs nofly :
  (forall p pr, In (p, pr) probs ->
     0 <= pr /\ 0 <= get availability p 0 <= 1) ->
  (exists p pr, In (p, pr) probs /\ 0 < pr * get availability p 0) ->
  0 <= nofly -> nofly + sum (values probs) <= 1 ->
  0 <= sum (values observed) ->
  exists d s r,
    estimate_host_level kd observed availability probs nofly = inr (d, s, r)
    /\ sum (values observed) <= d
    /\ 0 <= r <= s.
Proof.
  intros Hrange Hopen Hn Hsum Ht.
  pose proof (prob_market_open_bounds _ _ nofly Hrange) as [_ Hhi].
  pose proof (prob_market_open_gt _ _ nofly Hrange Hopen) as Hlo.
  assert (Hne : probs <> []).
  { destruct Hopen as [p [pr [Hin _]]]. intros ->. contradiction. }
  do 3 eexists. split.
  { apply estimate_host_level_solution; [exact Hne | lra | lra | lra]. }
  apply host_solution_bounds; lra.
Qed.

Lemma estimate_host_level_bounds_witness :
  exists d s r,
    estimate_host_level PyFloat Scenario.observed Scenario.availability
      Scenario.probs Scenario.nofly_prob = inr (d, s, r)
    /\ sum (values Scenario.observed) <= d
    /\ 0 <= r <= s.
Proof.
  apply (estimate_host_level_bounds (kd:=PyFloat) Scenario.observed Scenario.availability
           Scenario.probs Scenario.nofly_prob).
  - intros p pr [[= <- <-]|[[= <- <-]|[]]]; unfold Scenario.availability, get;
      eval_dict; lra.
  - exists "A", (3/10). split; [now left|].
    unfold Scenario.availability, get. eval_dict. lra.
  - unfold Scenario.nofly_prob. lra.
  - unfold Scenario.nofly_prob, Scenario.probs. eval_sum.
  - unfold Scenario.observed. eval_sum.
Defined.

(** With no listed product ever open the probability of an open market
    choice is the no-fly probability. *)
Lemma prob_market_open_all_closed availability probs nofly :
  (forall p pr, In (p, pr) probs -> pr * get availability p 0 = 0) ->
  prob_market_open availability probs nofly = nofly.
Proof.
  intros H. unfold prob_market_open.
  assert (E : sum (map (fun '(p, pr) => pr * get availability p 0) probs) = 0);
    [|lra].
  induction probs as [|[p pr] probs IH]; cbn [map].
  - apply sum_nil.
  - rewrite sum_cons, (H p pr (or_introl eq_refl)), IH; [lra|].
    intros q qr Hq. apply H. now right.
Qed.

(** X7.  When no product of a non-empty [probs] was ever open (each has
    availability 0, or none, or probability 0), the host-level system is
    singular: for a no-fly probability other than 0 and 1 both
    [estimate_host_level] and [estimate_class_level] raise [LinAlgError],
    whatever the observed demand.  The class-level check for booked but
    never available products is not reached. *)
Theorem estimate_all_closed {kd} observed availability probs nofly :
  probs <> [] ->
  (forall p pr, In (p, pr) probs -> pr * get availability p 0 = 0) ->
  nofly <> 0 -> nofly <> 1 ->
  estimate_host_level kd observed availability probs nofly = inl LinAlgError
  /\ forall calibrate,
       estimate_class_level kd observed availability probs nofly calibrate
       = inl LinAlgError.
Proof.
  intros Hne Hclosed Hn0 Hn1.
  assert (Hh : estimate_host_level kd observed availability probs nofly
               = inl LinAlgError).
  { apply estimate_host_level_all_closed; try assumption.
    now apply prob_market_open_all_closed. }
  split; [exact Hh|].
  intros calibrate. rewrite estimate_class_level_eq. now rewrite Hh.
Qed.

Lemma estimate_all_closed_witness :
  estimate_host_level PyFloat ErrorPath.observed ErrorPath.availability
    ErrorPath.probs ErrorPath.nofly_prob = inl LinAlgError
  /\ forall calibrate,
       estimate_class_level PyFloat ErrorPath.observed ErrorPath.availability
         ErrorPath.probs ErrorPath.nofly_prob calibrate
       = inl LinAlgError.
Proof.
  apply (estimate_all_closed (kd:=PyFloat) ErrorPath.observed ErrorPath.availability
           ErrorPath.probs ErrorPath.nofly_prob).
  - discriminate.
  - intros p pr [[= <- <-]|[]]. unfold ErrorPath.availability, get.
    eval_dict. lra.
  - unfold ErrorPath.nofly_prob. lra.
  - unfold ErrorPath.nofly_prob. lra.
Defined.

(** ** [estimate_class_level] *)

Lemma setitem_notin {V : Type} (d : dict V) k v :
  ~ In k (keys d) -> setitem d k v = d ++ [(k, v)].
Proof.
  unfold keys. induction d as [|[k0 v0] d IH]; cbn [setitem map fst app In];
    [reflexivity|].
  intros H. destruct (String.eqb k k0) eqn:E.
  - apply String.eqb_eq in E. subst. tauto.
  - f_equal. apply IH. tauto.
Qed.

Section StoreFresh.
(** The loop of [StoreLoop] over distinct keys that the mapping does not
    hold yet: it appends one entry per key, in the order of the keys. *)
Variable V : Type.
Variable g : key -> result V.

Lemma for_each_store_fresh l : forall d d',
  NoDup l -> (forall p, In p l -> ~ In p (keys d)) ->
  for_each (fun d p => e <- g p ;; ret (setitem d p e)) l d = inr d' ->
  exists es, d' = d ++ es /\ keys es = l
             /\ forall p e, In (p, e) es -> g p = inr e.
Proof.
  induction l as [|q l IH]; intros d d' Hnd Hfresh; cbn [for_each].
  - intros [= <-]. exists []. rewrite app_nil_r.
    split; [reflexivity|]. split; [reflexivity|]. intros p e [].
  - destruct (g q) as [x|e] eqn:Eq; cbn [bind ret]; [discriminate|].
    inversion Hnd as [|? ? Hq Hnd']; subst.
    rewrite setitem_notin by (apply Hfresh; now left).
    intros H. apply IH in H; [|assumption|].
    + destruct H as [es [-> [Hk He]]]. exists ((q, e) :: es).
      rewrite <- app_assoc. split; [reflexivity|]. split.
      * unfold keys in *. cbn [map fst]. now f_equal.
      * intros p e0 [[= <- <-]|Hin]; [exact Eq | now apply He].
    + intros p Hp. unfold keys. rewrite map_app, in_app_iff.
      cbn [map fst In]. intros [Hin|[<-|[]]].
      * apply (Hfresh p); [now right | exact Hin].
      * contradiction.
Qed.

End StoreFresh.

(** Before calibration: one entry per product of [probs], in the order of
    [probs], each the entry its iteration computes. *)
Lemma class_loop_fresh observed availability total hr l est0 :
  NoDup l ->
  for_each (class_level_step observed availability total hr) l [] = inr est0 ->
  keys est0 = l
  /\ forall p e, In (p, e) est0 ->
       class_level_entry observed availability total hr p = inr e.
Proof.
  rewrite class_loop_store. intros Hnd H.
  destruct (for_each_store_fresh _ _ _ [] _ Hnd (fun _ _ H0 => H0) H)
    as [es [-> H']].
  exact H'.
Qed.

Lemma redistributed_keys estimates observed availability probs hs :
  keys (redistributed estimates observed availability probs hs)
  = keys estimates.
Proof.
  unfold redistributed, keys. rewrite map_map. apply map_ext. now intros [k e].
Qed.

Lemma redistributed_recapture estimates observed availability probs hs :
  map recapture
    (values (redistributed estimates observed availability probs hs))
  = map recapture (values estimates).
Proof.
  unfold redistributed, values. rewrite !map_map. apply map_ext.
  intros [k e]. cbn [snd]. now destruct (eqb (get observed k 0) 0).
Qed.

(** What calibration keeps of a mapping. *)
Lemma calibrate_values_keeps {kd}
  estimates observed availability probs hs est' :
  wf estimates ->
  calibrate_values kd estimates observed availability probs hs = inr est' ->
  keys est' = keys estimates
  /\ map recapture (values est') = map recapture (values estimates).
Proof.
  intros Hwf H.
  destruct (calibrate_values_inr _ _ _ _ _ _ Hwf H)
    as [[_ ->]|[_ [_ [_ ->]]]]; [now split|].
  split; [apply redistributed_keys | apply redistributed_recapture].
Qed.

(** X8.  On an empty [probs], [estimate_class_level] returns the empty
    mapping, calibrated or not, whatever the other arguments: the host-level
    estimate is (0, 0, 0), the loop runs over nothing and there is no spill
    to redistribute. *)
Theorem estimate_class_level_empty_probs {kd}
  observed availability nofly calibrate :
  estimate_host_level kd observed availability [] nofly = inr (0, 0, 0)
  /\ estimate_class_level kd observed availability [] nofly calibrate = inr [].
Proof.
  split; [reflexivity|].
  rewrite estimate_class_level_eq, estimate_host_level_empty.
  cbn [bind keys map for_each ret]. destruct calibrate; [|reflexivity].
  apply calibrate_values_unchanged.
  unfold unaccounted, values. cbn [map]. rewrite sum_nil. lra.
Qed.

(** X9.  The mapping [estimate_class_level] returns has exactly the products
    of [probs] as its keys, in the order of [probs], calibrated or not: a
    product that only [observed] or [availability] lists gets no estimate. *)
Theorem estimate_class_level_keys {kd}
  observed availability probs nofly calibrate est :
  wf probs ->
  estimate_class_level kd observed availability probs nofly calibrate
  = inr est ->
  keys est = keys probs.
Proof.
  intros Hwf H. apply estimate_class_level_inr in H.
  destruct H as [hd [hs [hr [est0 [_ [Hl Hc]]]]]].
  destruct (class_loop_fresh _ _ _ _ _ _ Hwf Hl) as [Hk _].
  destruct calibrate; [|now subst].
  destruct (calibrate_values_keeps _ _ _ _ _ _
              (class_loop_wf _ _ _ _ _ _ _ wf_nil Hl) Hc) as [-> _].
  exact Hk.
Qed.

Lemma estimate_class_level_keys_witness :
  keys [("A", Estimate (185/2) (37/2) 26); ("B", Estimate (185/3) (185/3) 0)]
  = keys Closed.probs.
Proof.
  apply (estimate_class_level_keys (kd:=PyFloat) Closed.observed Closed.availability
           Closed.probs Closed.nofly_prob true).
  - unfold Closed.probs. wf_dict.
  - exact closed_class_level_calibrated.
Defined.

Lemma sum_Permutation (l l' : list R) : Permutation l l' -> sum l = sum l'.
Proof.
  induction 1 as [|x l l' _ IH|x y l|l l' l'' _ IH1 _ IH2].
  - reflexivity.
  - rewrite !sum_cons. lra.
  - rewrite !sum_cons. lra.
  - congruence.
Qed.

(** Reading a dict at its own keys gives its values. *)
Lemma get_keys_values (d : dict R) :
  wf d -> map (fun p => get d p 0) (keys d) = values d.
Proof.
  unfold wf, keys, values. induction d as [|[k v] d IH]; cbn [map fst snd];
    [reflexivity|].
  intros Hnd. inversion Hnd as [|? ? Hk Hnd']; subst. f_equal.
  - unfold get. cbn [lookup]. now rewrite String.eqb_refl.
  - rewrite <- IH by assumption. apply map_ext_in. intros p Hp.
    unfold get. cbn [lookup].
    destruct (String.eqb p k) eqn:E; [|reflexivity].
    apply String.eqb_eq in E. subst. contradiction.
Qed.

Lemma values_keys_map {V : Type} (es : dict V) (r : V -> R) (f : key -> R) :
  (forall p e, In (p, e) es -> r e = f p) ->
  map r (values es) = map f (keys es).
Proof.
  unfold values, keys. rewrite !map_map. intros H. apply map_ext_in.
  intros [p e] Hin. cbn [fst snd]. now apply H.
Qed.

(** X10.  The class-level recaptures add up to the host-level recapture:
    when [observed] and [probs] list the same products and the total
    observed demand is not zero, the recaptures of the mapping
    [estimate_class_level] returns, calibrated or not, sum to the recapture
    [estimate_host_level] returns. *)
Theorem estimate_class_level_recapture {kd}
  observed availability probs nofly calibrate est hd hs hr :
  wf probs -> wf observed ->
  Permutation (keys observed) (keys probs) ->
  sum (values observed) <> 0 ->
  estimate_host_level kd observed availability probs nofly = inr (hd, hs, hr) ->
  estimate_class_level kd observed availability probs nofly calibrate
  = inr est ->
  sum (map recapture (values est)) = hr.
Proof.
  intros Hwf Hwfo Hperm Ht Hh H. apply estimate_class_level_inr in H.
  destruct H as [hd' [hs' [hr' [est0 [Hh' [Hl Hc]]]]]].
  rewrite Hh in Hh'. injection Hh' as <- <- <-.
  destruct (class_loop_fresh _ _ _ _ _ _ Hwf Hl) as [Hk He].
  assert (Hrec : map recapture (values est) = map recapture (values est0)).
  { destruct calibrate; [|now subst].
    now destruct (calibrate_values_keeps _ _ _ _ _ _
                    (class_loop_wf _ _ _ _ _ _ _ wf_nil Hl) Hc). }
  rewrite Hrec.
  rewrite (values_keys_map est0 recapture
             (fun p => hr / sum (values observed) * get observed p 0)).
  - rewrite Hk, (sum_map_scale (fun p => get observed p 0)).
    rewrite <- (sum_Permutation _ _
                  (Permutation_map (fun p => get observed p 0) Hperm)).
    rewrite get_keys_values by assumption. now field.
  - intros p e Hin. apply He in Hin.
    destruct (Req_dec_T (get observed p 0) 0) as [Hz|Hnz].
    + rewrite class_level_entry_zero in Hin by assumption.
      injection Hin as <-. cbn [recapture]. rewrite Hz. ring.
    + apply class_level_entry_sound in Hin; [|assumption].
      destruct Hin as [_ [-> _]]. now field.
Qed.

Lemma estimate_class_level_recapture_witness :
  sum (map recapture
         (values [("A", Estimate (185/2) (37/2) 26);
                  ("B", Estimate (185/3) (185/3) 0)]))
  = 26.
Proof.
  apply (estimate_class_level_recapture (kd:=PyFloat) Closed.observed Closed.availability
           Closed.probs Closed.nofly_prob true _ (925/6) (481/6) 26).
  - unfold Closed.probs. wf_dict.
  - unfold Closed.observed. wf_dict.
  - apply Permutation_refl.
  - unfold Closed.observed. eval_sum.
  - exact closed_host_level.
  - exact closed_class_level_calibrated.
Defined.

(** X11.  Conservation through the pipeline: when the uncalibrated run
    returns a mapping whose spills fall short of the host spill, and the
    weights [probs[p] * (1 - availability.get(p, 0))] of the products of
    [probs] without observed bookings do not add up to zero (so there is
    such a product), the calibrated run returns and the spills of its
    mapping add up to the host spill. *)
Theorem estimate_class_level_conservation {kd}
  observed availability probs nofly est0 hd hs hr :
  wf probs ->
  estimate_host_level kd observed availability probs nofly
  = inr (hd, hs, hr) ->
  estimate_class_level kd observed availability probs nofly false
  = inr est0 ->
  sum (map spill (values est0)) < hs ->
  sum (map (weight probs availability)
         (filter (fun p => eqb (get observed p 0) 0) (keys probs))) <> 0 ->
  exists est,
    estimate_class_level kd observed availability probs nofly true = inr est
    /\ sum (map spill (values est)) = hs.
Proof.
  intros Hwfp Hh H0 Hlt HW.
  apply estimate_class_level_inr in H0.
  destruct H0 as [hd0 [hs0 [hr0 [e0 [Hh0 [Hl0 <-]]]]]].
  rewrite Hh in Hh0. injection Hh0 as <- <- <-.
  assert (Hwf : wf est0) by exact (class_loop_wf _ _ _ _ _ _ _ wf_nil Hl0).
  destruct (class_loop_fresh _ _ _ _ _ _ Hwfp Hl0) as [Hk _].
  assert (HW' : total_weight est0 observed availability probs <> 0).
  { unfold total_weight, no_booking. now rewrite Hk. }
  assert (Hrun : calibrate_values kd est0 observed availability probs hs
                 = inr (redistributed est0 observed availability probs hs)).
  { apply calibrate_values_redistributes; try assumption.
    - unfold unaccounted. lra.
    - apply Forall_forall. intros p Hp. apply no_booking_In in Hp.
      rewrite <- Hk. tauto.
    - now right. }
  exists (redistributed est0 observed availability probs hs). split.
  - rewrite estimate_class_level_eq, Hh. cbn [bind]. now rewrite Hl0.
  - apply redistributed_spill; [exact HW'|].
    intros k e Hin Hz.
    rewrite (class_loop_no_booking _ _ _ _ _ _ k e Hl0
               (In_lookup _ _ _ _ Hwf Hin) Hz).
    reflexivity.
Qed.

Lemma estimate_class_level_conservation_witness :
  exists est,
    estimate_class_level PyFloat Closed.observed Closed.availability
      Closed.probs Closed.nofly_prob true = inr est
    /\ sum (map spill (values est)) = 481/6.
Proof.
  apply (estimate_class_level_conservation (kd:=PyFloat) Closed.observed
           Closed.availability Closed.probs Closed.nofly_prob
           [("A", Estimate (185/2) (37/2) 26); ("B", Estimate 0 0 0)]
           (925/6) (481/6) 26).
  - unfold Closed.probs. wf_dict.
  - exact closed_host_level.
  - exact closed_class_level_uncalibrated.
  - eval_sum.
  - unfold Closed.probs, Closed.observed, Closed.availability, keys, weight,
      get.
    eval_dict. decide_tests. eval_dict. rewrite sum_cons, sum_nil. lra.
Defined.

(** X12.  What the [calibrate] flag can change: when the calibrated run
    returns, so does the uncalibrated one, and the two mappings have the
    same keys, the same recapture for every product, and the same entry for
    every product with non-zero observed demand. *)
Theorem estimate_class_level_calibrate_agrees {kd}
  observed availability probs nofly est :
  estimate_class_level kd observed availability probs nofly true = inr est ->
  exists est0,
    estimate_class_level kd observed availability probs nofly false = inr est0
    /\ keys est = keys est0
    /\ map recapture (values est) = map recapture (values est0)
    /\ forall p, get observed p 0 <> 0 -> lookup est p = lookup est0 p.
Proof.
  intros H. apply estimate_class_level_inr in H.
  destruct H as [hd [hs [hr [est0 [Hh [Hl Hc]]]]]].
  pose proof (class_loop_wf _ _ _ _ _ _ _ wf_nil Hl) as Hwf0.
  exists est0. split.
  { rewrite estimate_class_level_eq, Hh. cbn [bind]. now rewrite Hl. }
  destruct (calibrate_values_keeps _ _ _ _ _ _ Hwf0 Hc) as [Hk Hr].
  split; [exact Hk|]. split; [exact Hr|].
  intros p Hp. exact (calibrate_values_frame _ _ _ _ _ _ p Hwf0 Hc Hp).
Qed.

Lemma estimate_class_level_calibrate_agrees_witness :
  exists est0,
    estimate_class_level PyFloat Closed.observed Closed.availability Closed.probs
      Closed.nofly_prob false = inr est0
    /\ keys [("A", Estimate (185/2) (37/2) 26);
             ("B", Estimate (185/3) (185/3) 0)] = keys est0
    /\ map recapture
         (values [("A", Estimate (185/2) (37/2) 26);
                  ("B", Estimate (185/3) (185/3) 0)])
       = map recapture (values est0)
    /\ forall p, get Closed.observed p 0 <> 0 ->
         lookup [("A", Estimate (185/2) (37/2) 26);
                 ("B", Estimate (185/3) (185/3) 0)] p = lookup est0 p.
Proof.
  apply (estimate_class_level_calibrate_agrees (kd:=PyFloat) Closed.observed
           Closed.availability Closed.probs Closed.nofly_prob).
  exact closed_class_level_calibrated.
Defined.

(** ** [calibrate_no_booking] *)

(** The run on the store of the redistributing example: 3 of the host
    spill 5 are unaccounted for and go to B, the one product without
    bookings. *)
Lemma store_calibrate_example_run {kd} :
  exists h' r',
    Store.calibrate_no_booking kd
      [Store.ORecord (Estimate 10 2 0); Store.ORecord (Estimate 0 0 0);
       Store.ODict [("A", 0%nat); ("B", 1%nat)]] 2%nat
      [("A", 10)] [("A", 4/5); ("B", 1/2)] [("A", 3/10); ("B", 1/5)] 5
    = inr (h', r').
Proof.
  destruct (store_calibrate_redistributes (kd:=kd) _ _ _
              [("A", 10)] [("A", 4/5); ("B", 1/2)] [("A", 3/10); ("B", 1/5)]
              5 example_denotes) as [h' [r' [Hrun _]]].
  - wf_dict.
  - rewrite example_unaccounted. lra.
  - rewrite example_no_booking. intros p [<-|[]]. unfold keys. cbn. auto.
  - rewrite example_total_weight. lra.
  - eauto.
Qed.

(** X14.  What [calibrate_no_booking] keeps, on a mapping whose keys hold
    distinct inner dicts: the mapping a returning run returns has the keys
    of the input in the same order and the same recapture for every
    product; an entry that differs from the input's belongs to a product
    without observed bookings and has demand equal to spill. *)
Theorem calibrate_no_booking_preserves {kd}
  h r est observed availability probs host_spill h' r' :
  Store.denotes h r est -> wf est ->
  Store.calibrate_no_booking kd h r observed availability probs host_spill
  = inr (h', r') ->
  exists est',
    Store.denotes h' r' est'
    /\ keys est' = keys est
    /\ map recapture (values est') = map recapture (values est)
    /\ forall k e e',
         lookup est k = Some e -> lookup est' k = Some e' ->
         e' = e \/ (get observed k 0 = 0 /\ demand e' = spill e').
Proof.
  intros Hden Hwf Hrun.
  pose proof (calibrate_refines (kd:=kd) h r est observed availability probs
                host_spill Hden) as Href.
  destruct (calibrate_values kd est observed availability probs host_spill)
    as [x|est'] eqn:H.
  { rewrite Href in Hrun. discriminate. }
  destruct Href as [h'' [r'' [Hrun' [Hden' _]]]].
  rewrite Hrun' in Hrun. injection Hrun as -> ->.
  exists est'. split; [exact Hden'|].
  destruct (calibrate_values_keeps _ _ _ _ _ _ Hwf H) as [Hk Hr].
  split; [exact Hk|]. split; [exact Hr|].
  intros k e e' He He'.
  destruct (calibrate_values_inr _ _ _ _ _ _ Hwf H)
    as [[_ ->]|[_ [_ [_ ->]]]]; [left; congruence|].
  rewrite lookup_redistributed, He in He'. cbn [option_map] in He'.
  destruct (eqb (get observed k 0) 0) eqn:Ez.
  - right. apply eqb_true in Ez. split; [exact Ez|].
    injection He' as <-. reflexivity.
  - left. congruence.
Qed.

Lemma calibrate_no_booking_preserves_witness :
  exists h' r' est',
    Store.calibrate_no_booking PyFloat
      [Store.ORecord (Estimate 10 2 0); Store.ORecord (Estimate 0 0 0);
       Store.ODict [("A", 0%nat); ("B", 1%nat)]] 2%nat
      [("A", 10)] [("A", 4/5); ("B", 1/2)] [("A", 3/10); ("B", 1/5)] 5
    = inr (h', r')
    /\ Store.denotes h' r' est'
    /\ keys est' = keys [("A", Estimate 10 2 0); ("B", Estimate 0 0 0)]
    /\ map recapture (values est')
       = map recapture (values [("A", Estimate 10 2 0); ("B", Estimate 0 0 0)])
    /\ forall k e e',
         lookup [("A", Estimate 10 2 0); ("B", Estimate 0 0 0)] k = Some e ->
         lookup est' k = Some e' ->
         e' = e \/ (get [("A", 10)] k 0 = 0 /\ demand e' = spill e').
Proof.
  destruct (store_calibrate_example_run (kd:=PyFloat)) as [h' [r' Hrun]].
  destruct (calibrate_no_booking_preserves (kd:=PyFloat) _ _ _ _ _ _ _ _ _
              example_denotes ltac:(wf_dict) Hrun) as [est' H].
  exists h', r', est'. split; [exact Hrun | exact H].
Defined.

(** X15.  [probs] is subscripted, not read with a default: on any mapping,
    when the unaccounted spill is positive and some key of [estimates]
    without observed bookings is not a key of [probs],
    [calibrate_no_booking] raises [KeyError], whatever the weights of the
    other products. *)
Theorem calibrate_no_booking_missing_prob {kd}
  h r est observed availability probs host_spill k :
  Store.holds h r est ->
  unaccounted est host_spill > 0 ->
  In k (keys est) -> get observed k 0 = 0 -> ~ In k (keys probs) ->
  Store.calibrate_no_booking kd h r observed availability probs host_spill
  = inl KeyError.
Proof.
  intros Hh Hu Hk Hz Hp.
  apply (store_calibrate_KeyError h r est); [exact Hh | exact Hu |].
  intros Hall. apply Hp.
  apply (proj1 (Forall_forall _ _) Hall k).
  apply no_booking_In. now split.
Qed.

Lemma calibrate_no_booking_missing_prob_witness :
  Store.calibrate_no_booking PyFloat
    [Store.ORecord (Estimate 0 0 0); Store.ODict [("B", 0%nat)]] 1%nat
    [] [("B", 1/2)] [("A", 1/5)] 5
  = inl KeyError.
Proof.
  apply (calibrate_no_booking_missing_prob (kd:=PyFloat)
           _ _ [("B", Estimate 0 0 0)] [] [("B", 1/2)] [("A", 1/5)] 5 "B").
  - exists [("B", 0%nat)]. split; reflexivity.
  - unfold unaccounted. eval_sum.
  - unfold keys. cbn. auto.
  - reflexivity.
  - unfold keys. cbn. intros [H|[]]. discriminate.
Defined.

Lemma comprehension_In {A B : Type} (f : A -> result B) l ys :
  comprehension f l = inr ys -> forall x, In x l -> exists y, f x = inr y.
Proof.
  revert ys. induction l as [|a l IH]; intros ys H x Hx; [contradiction|].
  cbn [comprehension] in H.
  destruct (f a) as [e|y] eqn:Ea; cbn [bind] in H; [discriminate|].
  destruct (comprehension f l) as [e|ys'] eqn:El; cbn [bind ret] in H;
    [discriminate|].
  destruct Hx as [<-|Hx]; [eauto | exact (IH _ eq_refl x Hx)].
Qed.

(** X19.  [calibrate_no_booking] always returns a copy: the mapping it
    returns and every inner dict of that mapping are objects allocated
    during the call, also when nothing is redistributed. *)
Theorem calibrate_no_booking_fresh_copy {kd}
  h r observed availability probs host_spill h' r' :
  Store.calibrate_no_booking kd h r observed availability probs host_spill
  = inr (h', r') ->
  (List.length h <= r')%nat
  /\ exists d',
       Store.read_dict h' r' = inr d'
       /\ forall l, In l (values d') -> (List.length h <= l)%nat.
Proof.
  unfold Store.calibrate_no_booking, Store.deepcopy.
  destruct (Store.read_dict h r) as [x|d]; cbn [bind]; [discriminate|].
  destruct (Store.deepcopy_entries h [] d) as [x|[h1 c]] eqn:Ed;
    cbn [bind ret]; [discriminate|].
  destruct (deepcopy_entries_extends d h [] (List.length h) h1 c
              (le_n _) ltac:(discriminate) Ed) as [[t ->] Hnew].
  assert (Hr0 : nth_error ((h ++ t) ++ [Store.ODict c]) (List.length (h ++ t))
                = Some (Store.ODict c)).
  { rewrite nth_error_app2 by lia. now rewrite Nat.sub_diag. }
  assert (Hlen : (List.length h <= List.length (h ++ t))%nat)
    by (rewrite length_app; lia).
  unfold Store.read_dict at 1. rewrite Hr0. cbn [ret bind].
  destruct (comprehension _ (values c)) as [x|spills] eqn:Es; cbn [bind];
    [discriminate|].
  destruct (gtb _ 0).
  - destruct (comprehension _ (filter _ (keys c))) as [x|ws]; cbn [bind];
      [discriminate|].
    destruct (comprehension _ ws) as [x|ws']; cbn [bind]; [discriminate|].
    destruct (for_each _ ws' _) as [x|h2] eqn:El; cbn [bind ret];
      [discriminate|].
    intros [= <- <-]. split; [exact Hlen|]. exists c. split; [|exact Hnew].
    apply read_dict_inr.
    rewrite (store_calibrate_loop_frame _ _ _ _ _ El); [exact Hr0|].
    intros Hin. destruct (comprehension_In _ _ _ Es _ Hin) as [y Hy].
    destruct (Store.read_record _ _) as [x|e] eqn:Er; [discriminate|].
    apply read_record_inr in Er. congruence.
  - intros [= <- <-]. split; [exact Hlen|]. exists c.
    split; [now apply read_dict_inr | exact Hnew].
Qed.

Lemma calibrate_no_booking_fresh_copy_witness :
  exists h' r',
    Store.calibrate_no_booking PyFloat
      [Store.ORecord (Estimate 10 2 0); Store.ORecord (Estimate 0 0 0);
       Store.ODict [("A", 0%nat); ("B", 1%nat)]] 2%nat
      [("A", 10)] [("A", 4/5); ("B", 1/2)] [("A", 3/10); ("B", 1/5)] 5
    = inr (h', r')
    /\ (3 <= r')%nat
    /\ exists d',
         Store.read_dict h' r' = inr d'
         /\ forall l, In l (values d') -> (3 <= l)%nat.
Proof.
  destruct (store_calibrate_example_run (kd:=PyFloat)) as [h' [r' Hrun]].
  exists h', r'. split; [exact Hrun|].
  exact (calibrate_no_booking_fresh_copy (kd:=PyFloat) _ _ _ _ _ _ _ _ Hrun).
Defined.

(** ** The two balance solvers *)

(** X16.  The cases of [demand_mass_balance_c]: a zero class demand gives
    (0, 0, 0) whatever the other arguments; for a non-zero class demand and
    a non-zero host demand, availability 0 makes the 2x2 system singular
    ([LinAlgError]), and any other availability gives
    recapture = host_recapture * class_odemand / host_odemand,
    demand = (class_odemand - recapture) / avail and
    spill = (1 - avail) * demand. *)
Theorem demand_mass_balance_c_cases {kd}
  host_odemand class_odemand avail host_recapture :
  (class_odemand = 0 ->
   demand_mass_balance_c kd host_odemand class_odemand avail host_recapture
   = inr (0, 0, 0))
  /\ (class_odemand <> 0 -> host_odemand <> 0 -> avail = 0 ->
      demand_mass_balance_c kd host_odemand class_odemand avail host_recapture
      = inl LinAlgError)
  /\ (class_odemand <> 0 -> host_odemand <> 0 -> avail <> 0 ->
      let r := host_recapture * class_odemand / host_odemand in
      let d := (class_odemand - r) / avail in
      demand_mass_balance_c kd host_odemand class_odemand avail host_recapture
      = inr (d, (1 - avail) * d, r)).
Proof.
  split; [|split].
  - intros ->. apply demand_mass_balance_c_zero.
  - intros Hc Hh ->. unfold demand_mass_balance_c.
    apply truthy_true in Hc. rewrite Hc, div_ok by assumption.
    cbn [bind ret]. rewrite solve2_singular; [reflexivity|].
    rewrite det2_class_matrix. ring.
  - intros Hc Hh Ha r d.
    rewrite demand_mass_balance_c_closed by assumption.
    apply f_equal. apply f_equal2; [apply f_equal2|]; unfold d, r;
      try reflexivity.
    field. split; assumption.
Qed.

Lemma demand_mass_balance_c_cases_witness :
  demand_mass_balance_c PyFloat 100 0 (4/5) 6 = inr (0, 0, 0)
  /\ demand_mass_balance_c PyFloat 100 10 0 6 = inl LinAlgError
  /\ demand_mass_balance_c PyFloat 100 100 (4/5) 6
     = inr ((100 - 6 * 100 / 100) / (4/5),
            (1 - 4/5) * ((100 - 6 * 100 / 100) / (4/5)),
            6 * 100 / 100).
Proof.
  split; [|split].
  - apply (proj1 (demand_mass_balance_c_cases (kd:=PyFloat) 100 0 (4/5) 6)). reflexivity.
  - apply (proj1 (proj2 (demand_mass_balance_c_cases (kd:=PyFloat) 100 10 0 6)));
      [lra | lra | reflexivity].
  - apply (proj2 (proj2 (demand_mass_balance_c_cases (kd:=PyFloat) 100 100 (4/5) 6))); lra.
Defined.

(** X17.  The cases of [demand_mass_balance_h]: the 3x3 system is singular,
    and the call raises [LinAlgError], exactly when
    close_prob * (1 - recapture_rate) = 1; otherwise the call returns
    demand = odemand / (1 - close_prob + close_prob * recapture_rate),
    spill = close_prob * demand and recapture = recapture_rate * spill. *)
Theorem demand_mass_balance_h_cases odemand close_prob recapture_rate :
  (close_prob * (1 - recapture_rate) = 1 ->
   demand_mass_balance_h odemand close_prob recapture_rate = inl LinAlgError)
  /\ (close_prob * (1 - recapture_rate) <> 1 ->
      let d := odemand / (1 - close_prob + close_prob * recapture_rate) in
      demand_mass_balance_h odemand close_prob recapture_rate
      = inr (d, close_prob * d, recapture_rate * (close_prob * d))).
Proof.
  split.
  - intros H. apply demand_mass_balance_h_singular. lra.
  - intros H d.
    assert (Hd : 1 - close_prob + close_prob * recapture_rate <> 0) by lra.
    rewrite demand_mass_balance_h_closed by assumption.
    apply f_equal. apply f_equal2; [apply f_equal2|]; unfold d;
      try reflexivity; field; exact Hd.
Qed.

Lemma demand_mass_balance_h_cases_witness :
  demand_mass_balance_h 100 2 (1/2) = inl LinAlgError
  /\ demand_mass_balance_h 100 (1/2) (1/2)
     = inr (100 / (1 - 1/2 + 1/2 * (1/2)),
            1/2 * (100 / (1 - 1/2 + 1/2 * (1/2))),
            1/2 * (1/2 * (100 / (1 - 1/2 + 1/2 * (1/2))))).
Proof.
  split.
  - apply (proj1 (demand_mass_balance_h_cases 100 2 (1/2))). lra.
  - apply (proj2 (demand_mass_balance_h_cases 100 (1/2) (1/2))). lra.
Defined.

(** ** The pipeline on a market that was open all period *)

Lemma for_each_store_value {V : Type} (g : key -> result V) (f : key -> V) l :
  forall d, NoDup l -> (forall p, In p l -> ~ In p (keys d)) ->
  (forall p, In p l -> g p = inr (f p)) ->
  for_each (fun d p => e <- g p ;; ret (setitem d p e)) l d
  = inr (d ++ map (fun p => (p, f p)) l).
Proof.
  induction l as [|q l IH]; intros d Hnd Hfresh Hg; cbn [for_each map].
  - now rewrite app_nil_r.
  - rewrite (Hg q) by now left. cbn [bind ret].
    inversion Hnd as [|? ? Hq Hnd']; subst.
    rewrite setitem_notin by (apply Hfresh; now left).
    rewrite IH; [now rewrite <- app_assoc | assumption |
                 | intros; apply Hg; now right].
    intros p Hp. unfold keys. rewrite map_app, in_app_iff. cbn [map fst In].
    intros [Hin|[<-|[]]]; [apply (Hfresh p); [now right | exact Hin]
                          | contradiction].
Qed.

Lemma sum_map_zero {A : Type} (l : list A) : sum (map (fun _ => 0) l) = 0.
Proof.
  induction l as [|x l IH]; cbn [map]; [apply sum_nil|].
  rewrite sum_cons, IH. lra.
Qed.

Lemma prob_market_open_fully_open availability probs nofly :
  (forall p, In p (keys probs) -> get availability p 0 = 1) ->
  prob_market_open availability probs nofly = nofly + sum (values probs).
Proof.
  intros H. unfold prob_market_open, values. apply f_equal.
  apply sum_map_ext. intros [p pr] Hin. cbn [snd].
  rewrite (H p); [ring|]. now apply in_keys with pr.
Qed.

(** X18.  When every product of [probs] was available all period
    (availability 1) and the probabilities with the no-fly probability add
    up to 1, nothing is spilt or recaptured: [estimate_host_level] returns
    the total observed demand with spill 0 and recapture 0, and, for a
    non-zero total, [estimate_class_level] returns for each product of
    [probs] its observed demand with spill 0 and recapture 0, calibrated or
    not. *)
Theorem estimate_fully_open {kd} observed availability probs nofly :
  wf probs -> probs <> [] ->
  (forall p, In p (keys probs) -> get availability p 0 = 1) ->
  nofly + sum (values probs) = 1 -> nofly <> 1 ->
  estimate_host_level kd observed availability probs nofly
  = inr (sum (values observed), 0, 0)
  /\ (sum (values observed) <> 0 ->
      forall calibrate,
        estimate_class_level kd observed availability probs nofly calibrate
        = inr (map (fun p => (p, Estimate (get observed p 0) 0 0))
                 (keys probs))).
Proof.
  intros Hwf Hne Hav Hsum Hn.
  assert (Hp : prob_market_open availability probs nofly = 1)
    by (rewrite prob_market_open_fully_open; assumption).
  assert (Hh : estimate_host_level kd observed availability probs nofly
               = inr (sum (values observed), 0, 0)).
  { apply (estimate_host_level_value _ _ _ _ 1 (sum (values observed))
             0 (1 - nofly)); try assumption; try reflexivity; try lra.
    field. }
  split; [exact Hh|]. intros Ht calibrate.
  rewrite (estimate_class_level_value _ _ _ _ calibrate _ _ _
             (map (fun p => (p, Estimate (get observed p 0) 0 0))
                (keys probs)) Hh).
  - destruct calibrate; [|reflexivity].
    apply calibrate_values_unchanged.
    unfold unaccounted, values. rewrite !map_map. cbn [snd spill].
    rewrite sum_map_zero. lra.
  - rewrite (for_each_store_value _
               (fun p => Estimate (get observed p 0) 0 0));
      [reflexivity | exact Hwf | intros p _ H; exact H |].
    intros p Hp'. destruct (Req_dec_T (get observed p 0) 0) as [Hz|Hnz].
    + rewrite class_level_entry_zero by assumption. now rewrite Hz.
    + apply (class_level_entry_value _ _ _ _ p (get observed p 0) 1);
        try reflexivity; try assumption; try lra.
      now apply Hav.
Qed.

Lemma estimate_fully_open_witness :
  estimate_host_level PyFloat [("A", 100); ("B", 0)] [("A", 1); ("B", 1)]
    [("A", 3/10); ("B", 1/5)] (1/2)
  = inr (sum (values [("A", 100); ("B", 0)]), 0, 0)
  /\ (sum (values [("A", 100); ("B", 0)]) <> 0 ->
      forall calibrate,
        estimate_class_level PyFloat [("A", 100); ("B", 0)] [("A", 1); ("B", 1)]
          [("A", 3/10); ("B", 1/5)] (1/2) calibrate
        = inr (map (fun p => (p, Estimate (get [("A", 100); ("B", 0)] p 0)
                                   0 0))
                 (keys [("A", 3/10); ("B", 1/5)]))).
Proof.
  apply (estimate_fully_open (kd:=PyFloat) [("A", 100); ("B", 0)] [("A", 1); ("B", 1)]
           [("A", 3/10); ("B", 1/5)] (1/2)).
  - wf_dict.
  - discriminate.
  - unfold keys. cbn [map fst In].
    intros p [<-|[<-|[]]]; unfold get; eval_dict; reflexivity.
  - eval_sum.
  - lra.
Defined.

(** ** The functions composed *)

(** X20.  What [selection_probs] returns is a valid input of
    [estimate_host_level] (whose divisions are numpy's then, the
    probabilities being numpy scalars; the statement holds for either
    kind): for a non-empty utility mapping, a market share
    in (0,1), availabilities in [0,1] with some product of the mapping open
    part of the period, and a non-negative total of observed demand, the
    host-level estimate on the returned probabilities and no-fly probability
    returns, with demand at least the total observed demand and
    0 <= recapture <= spill. *)
Theorem selection_probs_host_level {kd kd'}
  utilities market_share observed availability :
  utilities <> [] -> 0 < market_share < 1 ->
  (forall p, In p (keys utilities) -> 0 <= get availability p 0 <= 1) ->
  (exists p, In p (keys utilities) /\ 0 < get availability p 0) ->
  0 <= sum (values observed) ->
  exists probs nofly d s r,
    selection_probs kd utilities market_share = inr (probs, nofly)
    /\ estimate_host_level kd' observed availability probs nofly
       = inr (d, s, r)
    /\ sum (values observed) <= d
    /\ 0 <= r <= s.
Proof.
  intros Hne Hm Hav [p0 [Hp0 Ha0]] Ht.
  set (probs := map (fun '(p, u) =>
                       (p, market_share * exp u
                           / sum (map exp (values utilities))))
                  utilities).
  assert (Hsel : selection_probs kd utilities market_share
                 = inr (probs, 1 - market_share))
    by (apply selection_probs_value; [exact Hne | lra]).
  assert (Hrange : forall p pr, In (p, pr) probs ->
                     0 <= pr /\ 0 <= get availability p 0 <= 1).
  { intros p pr Hin. apply in_map_iff in Hin.
    destruct Hin as [[p' u] [[= <- <-] Hu]]. split.
    - apply Rlt_le, softmax_pos; [exact Hne | lra].
    - apply Hav. now apply in_keys with u. }
  assert (Hopen : exists p pr,
                    In (p, pr) probs /\ 0 < pr * get availability p 0).
  { unfold keys in Hp0. apply in_map_iff in Hp0.
    destruct Hp0 as [[p' u] [Hfst Hu]]. cbn [fst] in Hfst. subst p'.
    exists p0, (market_share * exp u / sum (map exp (values utilities))).
    split.
    - unfold probs. apply in_map_iff. exists (p0, u).
      split; [reflexivity | exact Hu].
    - apply Rmult_lt_0_compat; [|exact Ha0].
      apply softmax_pos; [exact Hne | lra]. }
  assert (Hsum : sum (values probs) = market_share)
    by (apply softmax_sum; exact Hne).
  pose proof (prob_market_open_bounds availability probs (1 - market_share)
                Hrange) as [_ Hhi].
  pose proof (prob_market_open_gt availability probs (1 - market_share)
                Hrange Hopen) as Hlo.
  assert (Hne' : probs <> [])
    by (unfold probs; destruct utilities; [congruence | discriminate]).
  exists probs, (1 - market_share). do 3 eexists.
  split; [exact Hsel|]. split.
  { apply estimate_host_level_solution; [exact Hne' | lra | lra | lra]. }
  apply host_solution_bounds; lra.
Qed.

Lemma selection_probs_host_level_witness :
  exists probs nofly d s r,
    selection_probs PyFloat [("A", 2); ("B", 1)] (3/5) = inr (probs, nofly)
    /\ estimate_host_level NumPy Scenario.observed Scenario.availability
         probs nofly = inr (d, s, r)
    /\ sum (values Scenario.observed) <= d
    /\ 0 <= r <= s.
Proof.
  apply (selection_probs_host_level (kd:=PyFloat) (kd':=NumPy)
           [("A", 2); ("B", 1)] (3/5)
           Scenario.observed Scenario.availability).
  - discriminate.
  - lra.
  - unfold keys. cbn [map fst In].
    intros p [<-|[<-|[]]]; unfold Scenario.availability, get; eval_dict; lra.
  - exists "A". split; [unfold keys; cbn; auto|].
    unfold Scenario.availability, get. eval_dict. lra.
  - unfold Scenario.observed. eval_sum.
Defined.

(** X21.  The class-level estimate of a booked product in terms of the
    inputs: in a mapping [estimate_class_level] returns, calibrated or not,
    a product of [probs] with non-zero observed demand od and availability a
    has a <> 0, demand = od * pmo / a, spill = (1 - a) * demand and
    recapture = od * (1 - pmo), pmo the probability of an open market
    choice. *)
Theorem estimate_class_level_booked_closed_form {kd}
  observed availability probs nofly calibrate est p :
  estimate_class_level kd observed availability probs nofly calibrate
  = inr est ->
  In p (keys probs) -> get observed p 0 <> 0 ->
  let pmo := prob_market_open availability probs nofly in
  let od := get observed p 0 in
  let a := get availability p 0 in
  a <> 0
  /\ exists e,
       lookup est p = Some e
       /\ demand e = od * pmo / a
       /\ spill e = (1 - a) * demand e
       /\ recapture e = od * (1 - pmo).
Proof.
  intros H Hp Ho pmo od a.
  apply estimate_class_level_inr in H.
  destruct H as [hd [hs [hr [est0 [Hh [Hl Hc]]]]]].
  assert (Hne : probs <> []) by (intros ->; exact Hp).
  destruct (estimate_host_level_inv _ _ _ _ _ _ _ Hne Hh)
    as [Hp0 [_ [_ [_ [_ Hr]]]]].
  fold pmo in Hp0, Hr.
  destruct (class_loop_entry _ _ _ _ _ _ _ Hl Hp) as [e [He Hlk]].
  apply class_level_entry_sound in He; [|assumption].
  destruct He as [Ht [Hrec [Hsp Hbal]]]. fold od a in Hrec, Hsp, Hbal.
  assert (Hrec' : recapture e = od * (1 - pmo)).
  { rewrite Hrec, Hr. field. exact Ht. }
  assert (Had : a * demand e = od * pmo)
    by (rewrite Hsp, Hrec' in Hbal; lra).
  assert (Ha : a <> 0).
  { intros Ha. rewrite Ha in Had.
    assert (H0 : od * pmo = 0) by lra.
    apply Rmult_integral in H0. destruct H0; contradiction. }
  split; [exact Ha|]. exists e. split.
  { destruct calibrate; [|now subst].
    rewrite (calibrate_values_frame _ _ _ _ _ _ p
               (class_loop_wf _ _ _ _ _ _ _ wf_nil Hl) Hc Ho).
    exact Hlk. }
  split; [|split; assumption].
  apply Rmult_eq_reg_l with a; [|exact Ha]. rewrite Had. field. exact Ha.
Qed.

Lemma estimate_class_level_booked_closed_form_witness :
  let pmo := prob_market_open Scenario.availability Scenario.probs
               Scenario.nofly_prob in
  let od := get Scenario.observed "A" 0 in
  let a := get Scenario.availability "A" 0 in
  a <> 0
  /\ exists e,
       lookup [("A", Estimate (235/2) (47/2) 6); ("B", Estimate 0 0 0)] "A"
       = Some e
       /\ demand e = od * pmo / a
       /\ spill e = (1 - a) * demand e
       /\ recapture e = od * (1 - pmo).
Proof.
  apply (estimate_class_level_booked_closed_form (kd:=PyFloat) Scenario.observed
           Scenario.availability Scenario.probs Scenario.nofly_prob true).
  - exact (scenario_class_level true).
  - unfold Scenario.probs, keys. cbn. auto.
  - unfold Scenario.observed, get. eval_dict. lra.
Defined.
